(** * Trace capture and metrics pipeline: a shallow embedding

    The scripts under [scripts/] drive a browser through a fixed shopping
    journey, record a trace around every step and turn the collected
    metrics into reports.  This development embeds the parts of those
    scripts that decide the documented properties of the pipeline:

    - [JS]: the fragment of the JavaScript value semantics the scripts
      rely on (truthiness, property access, coercions, [JSON.parse]);
    - [Binary64]: rounding to the nearest binary64 value, and the sum
      and the difference of two numbers under it;
    - [Report]: the metric arithmetic of the report generators
      (Total Blocking Time, TTFB, the Core Web Vitals table row, the
      trace-file decoder of the Word report);
    - [Observer]: the in-page [PerformanceObserver] callbacks;
    - [Driver]: promises over a scripted browser, as a state and
      exception monad with an event log and a logical clock;
    - [FullScenario], [EnhancedPerf]: the two scenario runners;
    - [DetailedPerf]: the request tracker, the network statistics and
      the recommendations of the detailed analysis;
    - [McpReport], [EnhancedReport]: the sections and tables of the
      other report generators; [HtmlReport], [WordReport]: the two
      generators that end before they write their report.

    The modules come first; the statements and the proofs about them
    follow.

    A number is the rational it denotes (plus NaN and the two
    infinities); the sign of zero is not modelled.  The sums the scripts
    accumulate step by step, Total Blocking Time and Cumulative Layout
    Shift, are added as the engine adds them, each result rounded to the
    nearest binary64 value ([Binary64]); the other operators are read
    on the exact values. *)

From Stdlib Require Import List String Ascii ZArith NArith QArith Lia Bool.
From Stdlib Require Import DecimalString Qminmax Sorted Floats.
Import ListNotations.

Set Implicit Arguments.
Set Warnings "-register-all".
Set Warnings "-inexact-float".
Close Scope Q_scope.
Close Scope float_scope.

(* ================================================================== *)
(** * JavaScript values *)
(* ================================================================== *)

Module JS.

Local Open Scope string_scope.

(** A JavaScript number. *)
Inductive num : Type :=
| Fin (q : Q)
| NaN
| Inf (negative : bool).

Inductive value : Type :=
| VUndef
| VNull
| VBool (b : bool)
| VNum (n : num)
| VStr (s : string)
| VArr (elems : list value)
| VObj (props : list (string * value)).

Inductive error : Type :=
| SyntaxError (msg : string)
| TypeError (msg : string)
| ReferenceError (msg : string)
| Rejected (msg : string).

Definition message (e : error) : string :=
  match e with SyntaxError m | TypeError m | ReferenceError m | Rejected m => m end.

(** The outcome of evaluating an expression or awaiting a promise. *)
Inductive Result (A : Type) : Type :=
| Ok (a : A)
| Throw (e : error).

Arguments Ok {A} a.
Arguments Throw {A} e.

Definition rbind {A B} (r : Result A) (k : A -> Result B) : Result B :=
  match r with
  | Ok a => k a
  | Throw e => Throw e
  end.

Definition returns {A} (r : Result A) : bool :=
  match r with Ok _ => true | Throw _ => false end.

Declare Scope js_scope.
Delimit Scope js_scope with js.
Notation "x <- c ;; k" := (rbind c (fun x => k))
  (at level 61, c at next level, right associativity) : js_scope.

(** ** Arithmetic *)

Definition num_of_Z (z : Z) : num := Fin (inject_Z z).

Definition num_add (a b : num) : num :=
  match a, b with
  | NaN, _ | _, NaN => NaN
  | Fin x, Fin y => Fin (Qred (x + y)%Q)
  | Inf s, Inf t => if Bool.eqb s t then Inf s else NaN
  | Inf s, Fin _ => Inf s
  | Fin _, Inf t => Inf t
  end.

Definition num_sub (a b : num) : num :=
  match a, b with
  | NaN, _ | _, NaN => NaN
  | Fin x, Fin y => Fin (Qred (x - y)%Q)
  | Inf s, Inf t => if Bool.eqb s t then NaN else Inf s
  | Inf s, Fin _ => Inf s
  | Fin _, Inf t => Inf (negb t)
  end.

Definition Qneg_bool (q : Q) : bool := negb (Qle_bool 0%Q q).

Definition num_div (a b : num) : num :=
  match a, b with
  | NaN, _ | _, NaN => NaN
  | Fin x, Fin y =>
      if Qeq_bool y 0%Q
      then (if Qeq_bool x 0%Q then NaN else Inf (Qneg_bool x))
      else Fin (Qred (x / y)%Q)
  | Inf _, Inf _ => NaN
  | Inf s, Fin y => Inf (xorb s (Qneg_bool y))
  | Fin _, Inf _ => Fin 0%Q
  end.

(** [a < b]; every comparison with NaN is false. *)
Definition num_ltb (a b : num) : bool :=
  match a, b with
  | NaN, _ | _, NaN => false
  | Fin x, Fin y => negb (Qle_bool y x)
  | Inf s, Inf t => s && negb t
  | Inf s, Fin _ => s
  | Fin _, Inf t => negb t
  end.

(** [Math.max(a, b)]. *)
Definition Math_max (a b : num) : num :=
  match a, b with
  | NaN, _ | _, NaN => NaN
  | _, _ => if num_ltb a b then b else a
  end.

(** ** Number literals and their rendering *)

Definition is_digit (c : ascii) : bool :=
  let n := nat_of_ascii c in ((48 <=? n)%nat && (n <=? 57)%nat)%bool.

Definition digit_val (c : ascii) : N := N.of_nat (nat_of_ascii c - 48).

(** Reads a run of decimal digits: its value, its length and the rest. *)
Fixpoint read_digits (cs : list ascii) (acc : N) (len : nat)
  : N * nat * list ascii :=
  match cs with
  | c :: r =>
      if is_digit c then read_digits r (acc * 10 + digit_val c)%N (S len)
      else (acc, len, cs)
  | [] => (acc, len, [])
  end.

(** [mant * 10 ^ e10] as a reduced fraction. *)
Definition decimal (neg : bool) (mant : N) (e10 : Z) : Q :=
  let m := if neg then Z.opp (Z.of_N mant) else Z.of_N mant in
  Qred (if (0 <=? e10)%Z
        then inject_Z (m * 10 ^ e10)
        else Qmake m (Z.to_pos (10 ^ (- e10)))).

(** The optional exponent part [e[+-]ddd]; no exponent reads as 0. *)
Definition read_exponent (cs : list ascii) : option (Z * list ascii) :=
  match cs with
  | c :: r =>
      if (Ascii.eqb c "e" || Ascii.eqb c "E")%bool then
        let '(neg, r1) :=
          match r with
          | "-"%char :: r' => (true, r')
          | "+"%char :: r' => (false, r')
          | _ => (false, r)
          end in
        match read_digits r1 0 0 with
        | (_, O, _) => None
        | (e, _, r2) => Some (if neg then Z.opp (Z.of_N e) else Z.of_N e, r2)
        end
      else Some (0%Z, cs)
  | [] => Some (0%Z, [])
  end.

Definition nat_digits (n : N) : string :=
  NilZero.string_of_uint (N.to_uint n).

Fixpoint frac_digits (fuel : nat) (r den : N) : string :=
  match fuel with
  | O => EmptyString
  | S f =>
      if (r =? 0)%N then EmptyString
      else String (ascii_of_N (48 + (r * 10) / den))
                  (frac_digits f ((r * 10) mod den) den)
  end.

(** [Number::toString] on the plain decimal expansion (exponent notation
    for very large or very small magnitudes is not produced). *)
Definition NumberToString (n : num) : string :=
  match n with
  | NaN => "NaN"
  | Inf s => if s then "-Infinity" else "Infinity"
  | Fin q =>
      let q := Qred q in
      let a := Z.abs_N (Qnum q) in
      let d := Npos (Qden q) in
      let body :=
        nat_digits (a / d) ++
        (if (a mod d =? 0)%N then EmptyString else "." ++ frac_digits 40 (a mod d) d) in
      if Qneg_bool q then "-" ++ body else body
  end.

Definition pad_zeros (width : nat) (s : string) : string :=
  match (width - String.length s)%nat with
  | O => s
  | S k => String.concat EmptyString (repeat "0" (S k)) ++ s
  end.

(** [Number.prototype.toFixed(d)]: round half away from zero at [d]
    fractional digits. *)
Definition toFixed (n : num) (d : nat) : string :=
  match n with
  | Fin q =>
      let a := Z.abs_N (Qnum q) in
      let den := Npos (Qden q) in
      let scaled := ((2 * a * 10 ^ N.of_nat d + den) / (2 * den))%N in
      let ds := pad_zeros (S d) (nat_digits scaled) in
      let k := (String.length ds - d)%nat in
      let body :=
        match d with
        | O => ds
        | _ => substring 0 k ds ++ "." ++ substring k d ds
        end in
      if Qneg_bool q then "-" ++ body else body
  | _ => NumberToString n
  end.

(** ** Strings *)

Definition chars (s : string) : list ascii := list_ascii_of_string s.
Definition text (cs : list ascii) : string := string_of_list_ascii cs.

(** White space of [String.prototype.trim] and of numeric strings
    (the ASCII part). *)
Definition is_space (c : ascii) : bool :=
  match nat_of_ascii c with
  | 9 | 10 | 11 | 12 | 13 | 32 => true
  | _ => false
  end.

Fixpoint drop_while (p : ascii -> bool) (cs : list ascii) : list ascii :=
  match cs with
  | c :: r => if p c then drop_while p r else cs
  | [] => []
  end.

Definition trim (s : string) : string :=
  text (rev (drop_while is_space (rev (drop_while is_space (chars s))))).

Definition lower_char (c : ascii) : ascii :=
  let n := nat_of_ascii c in
  if ((65 <=? n)%nat && (n <=? 90)%nat)%bool then ascii_of_nat (n + 32) else c.

(** [String.prototype.toLowerCase] (ASCII letters). *)
Definition toLowerCase (s : string) : string :=
  text (map lower_char (chars s)).

(** [hay.includes(needle)]. *)
Fixpoint includes (hay needle : string) : bool :=
  (prefix needle hay ||
   match hay with
   | EmptyString => false
   | String _ rest => includes rest needle
   end)%bool.

Fixpoint split_chars (sep : ascii) (cs cur : list ascii) : list string :=
  match cs with
  | [] => [text (rev cur)]
  | c :: r =>
      if Ascii.eqb c sep then text (rev cur) :: split_chars sep r []
      else split_chars sep r (c :: cur)
  end.

(** [s.split(sep)] for a one-character separator. *)
Definition split (sep : ascii) (s : string) : list string :=
  split_chars sep (chars s) [].

(** Writes a text that contains double quotes with single quotes in
    their place, as the scripts do for selectors. *)
Definition dq (s : string) : string :=
  text (map (fun c => if Ascii.eqb c "'" then ascii_of_nat 34 else c) (chars s)).

(** [s.replace(/\s+/g, '_')]. *)
Fixpoint replace_spaces (cs : list ascii) (in_run : bool) : list ascii :=
  match cs with
  | [] => []
  | c :: r =>
      if is_space c
      then (if in_run then replace_spaces r true
            else "_"%char :: replace_spaces r true)
      else c :: replace_spaces r false
  end.

Fixpoint take_until (stop : ascii -> bool) (cs : list ascii) : list ascii :=
  match cs with
  | [] => []
  | c :: r => if stop c then [] else c :: take_until stop r
  end.

(** The origin of an absolute URL (scheme, [://], authority); a text
    without them is not a valid base. *)
Definition origin (base : string) : option string :=
  match index 0 "://" base with
  | Some i =>
      let rest := chars (substring (i + 3) (String.length base - (i + 3)) base) in
      let host :=
        take_until (fun c => (Ascii.eqb c "/" || Ascii.eqb c "?" || Ascii.eqb c "#")%bool)
                   rest in
      match i, host with
      | O, _ | _, [] => None
      | _, _ => Some (substring 0 (i + 3) base ++ text host)
      end
  | None => None
  end.

(** [new URL(path, base).href] for a path that starts with a slash. *)
Definition resolveUrl (path base : string) : Result string :=
  match origin base with
  | Some o => Ok (o ++ path)
  | None => Throw (TypeError "Invalid URL")
  end.

(** [new URL(base)]: its [origin] and its [href], which ends the
    origin with a slash when the base has no path. *)
Definition URL (base : string) : Result (string * string) :=
  match origin base with
  | Some o => Ok (o, if String.eqb base o then o ++ "/" else base)
  | None => Throw (TypeError "Invalid URL")
  end.

(** The functions above read a base the way the URL parser of the
    platform does when the base is plain: [http://] or [https://] in
    lower case, a host of labels of lower-case letters and digits that
    each start with a letter, an optional port in its shortest decimal
    form that is not the default of the scheme, and then nothing or a
    path of letters, digits, [-], [_], [.] and [/] in which no segment
    starts with a dot.  The parser leaves such a base as it is, up to
    the slash it puts after a bare origin.  On other texts they are an
    approximation; the statements about whole runs are made for plain
    bases. *)
Definition is_lower (c : ascii) : bool :=
  let n := nat_of_ascii c in ((97 <=? n)%nat && (n <=? 122)%nat)%bool.

Definition is_upper (c : ascii) : bool :=
  let n := nat_of_ascii c in ((65 <=? n)%nat && (n <=? 90)%nat)%bool.

Fixpoint strip_prefix (p cs : list ascii) : option (list ascii) :=
  match p, cs with
  | [], _ => Some cs
  | a :: p', c :: r => if Ascii.eqb a c then strip_prefix p' r else None
  | _ :: _, [] => None
  end.

Fixpoint plainHost (cs : list ascii) (labelStart : bool) : bool :=
  match cs with
  | [] => negb labelStart
  | c :: r =>
      if labelStart then (is_lower c && plainHost r false)%bool
      else if Ascii.eqb c "." then plainHost r true
      else ((is_lower c || is_digit c) && plainHost r false)%bool
  end.

Definition plainPort (default : N) (cs : list ascii) : bool :=
  match cs with
  | [] => true
  | c :: digits =>
      let '(port, len, rest) := read_digits digits 0%N 0 in
      (Ascii.eqb c ":" && (0 <? len)%nat
       && match rest with [] => true | _ => false end
       && match digits with d :: _ => negb (Ascii.eqb d "0") | [] => false end
       && (port <=? 65535)%N && negb (port =? default)%N)%bool
  end.

Definition plainAuthority (default : N) (cs : list ascii) : bool :=
  let host := take_until (fun c => Ascii.eqb c ":") cs in
  (plainHost host true && plainPort default (skipn (List.length host) cs))%bool.

Fixpoint plainSegments (cs : list ascii) (segmentStart : bool) : bool :=
  match cs with
  | [] => true
  | c :: r =>
      if Ascii.eqb c "/" then plainSegments r true
      else if Ascii.eqb c "." then (negb segmentStart && plainSegments r false)%bool
      else ((is_lower c || is_upper c || is_digit c
             || Ascii.eqb c "-" || Ascii.eqb c "_") && plainSegments r false)%bool
  end.

Definition plainPath (cs : list ascii) : bool :=
  match cs with
  | [] => true
  | c :: _ => (Ascii.eqb c "/" && plainSegments cs false)%bool
  end.

Definition plainBase (base : string) : bool :=
  match origin base with
  | Some o =>
      (match strip_prefix (chars "https://") (chars o) with
       | Some authority => plainAuthority 443 authority
       | None =>
           match strip_prefix (chars "http://") (chars o) with
           | Some authority => plainAuthority 80 authority
           | None => false
           end
       end
       && plainPath (skipn (String.length o) (chars base)))%bool
  | None => false
  end.

(** ** Coercions *)

Definition radix_val (base : N) (c : ascii) : option N :=
  let n := N.of_nat (nat_of_ascii c) in
  let v :=
    if ((48 <=? n) && (n <=? 57))%N%bool then Some (n - 48)%N
    else if ((97 <=? n) && (n <=? 102))%N%bool then Some (n - 87)%N
    else if ((65 <=? n) && (n <=? 70))%N%bool then Some (n - 55)%N
    else None in
  match v with
  | Some d => if (d <? base)%N then Some d else None
  | None => None
  end.

Fixpoint read_radix (base : N) (cs : list ascii) (acc : N) : option N :=
  match cs with
  | [] => Some acc
  | c :: r =>
      match radix_val base c with
      | Some d => read_radix base r (acc * base + d)%N
      | None => None
      end
  end.

(** The unsigned part of a [StrDecimalLiteral], to the end of input. *)
Definition read_decimal (neg : bool) (cs : list ascii) : num :=
  if String.eqb (text cs) "Infinity" then Inf neg else
  let '(i, ilen, r) := read_digits cs 0 0 in
  let '(m, flen, r1) :=
    match r with
    | "."%char :: r' => read_digits r' i 0
    | _ => (i, O, r)
    end in
  match (ilen + flen)%nat, read_exponent r1 with
  | S _, Some (e, []) => Fin (decimal neg m (e - Z.of_nat flen))
  | _, _ => NaN
  end.

(** [StringToNumber]: the numeric value of a string, NaN when it is not
    a numeric literal. *)
Definition StringToNumber (s : string) : num :=
  match chars (trim s) with
  | [] => Fin 0%Q
  | "0"%char :: x :: d :: ds' =>
      let ds := d :: ds' in
      let base :=
        if (Ascii.eqb x "x" || Ascii.eqb x "X")%bool then Some 16%N
        else if (Ascii.eqb x "o" || Ascii.eqb x "O")%bool then Some 8%N
        else if (Ascii.eqb x "b" || Ascii.eqb x "B")%bool then Some 2%N
        else None in
      match base with
      | Some b =>
          match read_radix b ds 0 with
          | Some n => Fin (inject_Z (Z.of_N n))
          | None => NaN
          end
      | None => read_decimal false ("0"%char :: x :: ds)
      end
  | "-"%char :: r => read_decimal true r
  | "+"%char :: r => read_decimal false r
  | cs => read_decimal false cs
  end.

(** [ToString]. *)
Fixpoint ToString (v : value) : string :=
  match v with
  | VUndef => "undefined"
  | VNull => "null"
  | VBool b => if b then "true" else "false"
  | VNum n => NumberToString n
  | VStr s => s
  | VArr l =>
      String.concat ","
        ((fix elems (l : list value) : list string :=
            match l with
            | [] => []
            | (VUndef | VNull) :: r => EmptyString :: elems r
            | x :: r => ToString x :: elems r
            end) l)
  | VObj _ => "[object Object]"
  end.

(** [ToNumber]; arrays and objects go through their string form. *)
Definition ToNumber (v : value) : num :=
  match v with
  | VUndef => NaN
  | VNull => Fin 0%Q
  | VBool b => Fin (if b then 1%Q else 0%Q)
  | VNum n => n
  | VStr s => StringToNumber s
  | VArr _ | VObj _ => StringToNumber (ToString v)
  end.

(** [ToBoolean]. *)
Definition truthy (v : value) : bool :=
  match v with
  | VUndef | VNull => false
  | VBool b => b
  | VNum (Fin q) => negb (Qeq_bool q 0%Q)
  | VNum NaN => false
  | VNum (Inf _) => true
  | VStr s => negb (String.eqb s EmptyString)
  | VArr _ | VObj _ => true
  end.

(** [a || b] and [a && b] on already evaluated operands. *)
Definition js_or (a b : value) : value := if truthy a then a else b.
Definition js_and (a b : value) : value := if truthy a then b else a.

(** Operands whose primitive form is a string. *)
Definition is_string (v : value) : bool :=
  match v with VStr _ | VArr _ | VObj _ => true | _ => false end.

(** The binary [+]: concatenation as soon as one operand is (or turns
    into) a string, addition otherwise. *)
Definition js_add (a b : value) : value :=
  if (is_string a || is_string b)%bool
  then VStr (ToString a ++ ToString b)
  else VNum (num_add (ToNumber a) (ToNumber b)).

Definition js_sub (a b : value) : value := VNum (num_sub (ToNumber a) (ToNumber b)).
Definition js_div (a b : value) : value := VNum (num_div (ToNumber a) (ToNumber b)).

(** [a > b] and [a < b]; two strings compare as strings, which the
    scripts never do, so the operands here are compared as numbers. *)
Definition js_gt (a b : value) : bool := num_ltb (ToNumber b) (ToNumber a).
Definition js_lt (a b : value) : bool := num_ltb (ToNumber a) (ToNumber b).

(** [v === "literal"]. *)
Definition strict_eq_str (v : value) (s : string) : bool :=
  match v with VStr t => String.eqb t s | _ => false end.

(** ** Property access *)

(** The last binding of a key wins, as in an object built by
    [JSON.parse]. *)
Fixpoint lookup (k : string) (props : list (string * value)) : option value :=
  match props with
  | [] => None
  | (k', v) :: r =>
      match lookup k r with
      | Some w => Some w
      | None => if String.eqb k' k then Some v else None
      end
  end.

Definition str_length (s : string) : value :=
  VNum (Fin (inject_Z (Z.of_nat (String.length s)))).

(** [v.k] on a value that is not null or undefined (data properties
    only). *)
Definition own (v : value) (k : string) : value :=
  match v with
  | VObj props => match lookup k props with Some w => w | None => VUndef end
  | VArr l =>
      if String.eqb k "length"
      then VNum (Fin (inject_Z (Z.of_nat (List.length l)))) else VUndef
  | VStr s => if String.eqb k "length" then str_length s else VUndef
  | _ => VUndef
  end.

Definition nullish (v : value) : bool :=
  match v with VUndef | VNull => true | _ => false end.

(** [v.k]: a TypeError on null and undefined. *)
Definition get (v : value) (k : string) : Result value :=
  if nullish v
  then Throw (TypeError ("Cannot read properties of " ++ ToString v))
  else Ok (own v k).

(** [v?.k]. *)
Definition opt_get (v : value) (k : string) : value :=
  if nullish v then VUndef else own v k.

(** The receiver of an array method ([find], [filter], [reduce], [map]). *)
Definition as_array (v : value) (method : string) : Result (list value) :=
  match v with
  | VArr l => Ok l
  | VUndef | VNull => Throw (TypeError ("Cannot read properties of " ++ ToString v))
  | _ => Throw (TypeError (method ++ " is not a function"))
  end.

(** The elements a [for ... of] loop visits. *)
Definition iterate (v : value) : Result (list value) :=
  match v with
  | VArr l => Ok l
  | VStr s => Ok (map (fun c => VStr (String c EmptyString)) (chars s))
  | _ => Throw (TypeError "value is not iterable")
  end.

Fixpoint Array_find (p : value -> Result bool) (l : list value) : Result value :=
  match l with
  | [] => Ok VUndef
  | x :: r =>
      match p x with
      | Ok true => Ok x
      | Ok false => Array_find p r
      | Throw e => Throw e
      end
  end.

Fixpoint Array_filter (p : value -> Result bool) (l : list value)
  : Result (list value) :=
  match l with
  | [] => Ok []
  | x :: r =>
      match p x with
      | Ok b =>
          match Array_filter p r with
          | Ok r' => Ok (if b then x :: r' else r')
          | Throw e => Throw e
          end
      | Throw e => Throw e
      end
  end.

(** [l.reduce(f, init)]. *)
Fixpoint Array_reduce (f : value -> value -> Result value) (l : list value)
  (acc : value) : Result value :=
  match l with
  | [] => Ok acc
  | x :: r =>
      match f acc x with
      | Ok acc' => Array_reduce f r acc'
      | Throw e => Throw e
      end
  end.

(** [v?.toFixed(d)]: undefined on a missing value, a TypeError on a
    value that is not a number. *)
Definition opt_toFixed (v : value) (d : nat) : Result value :=
  match v with
  | VUndef | VNull => Ok VUndef
  | VNum n => Ok (VStr (toFixed n d))
  | _ => Throw (TypeError "toFixed is not a function")
  end.

(** ** JSON.parse *)

(** JSON white space: space, tab, line feed, carriage return. *)
Definition is_json_ws (c : ascii) : bool :=
  match nat_of_ascii c with
  | 9 | 10 | 13 | 32 => true
  | _ => false
  end.

Definition skip_ws (cs : list ascii) : list ascii := drop_while is_json_ws cs.

(** A JSON number: an optional minus sign, an integer part without
    leading zeros, an optional fraction and an optional exponent. *)
Definition parse_number (cs : list ascii) : option (value * list ascii) :=
  let '(neg, r0) :=
    match cs with
    | "-"%char :: r => (true, r)
    | _ => (false, cs)
    end in
  let '(i, ilen, r1) := read_digits r0 0 0 in
  let leading_zero :=
    match r0 with
    | "0"%char :: _ => (1 <? ilen)%nat
    | _ => false
    end in
  if ((ilen =? 0)%nat || leading_zero)%bool then None else
  let frac :=
    match r1 with
    | "."%char :: r' =>
        match read_digits r' i 0 with
        | (_, O, _) => None
        | (m, flen, r2) => Some (m, flen, r2)
        end
    | _ => Some (i, O, r1)
    end in
  match frac with
  | None => None
  | Some (m, flen, r2) =>
      match read_exponent r2 with
      | None => None
      | Some (e, r3) => Some (VNum (Fin (decimal neg m (e - Z.of_nat flen))), r3)
      end
  end.

(** The UTF-8 bytes of a code unit given by a [\uXXXX] escape. *)
Definition utf8 (u : N) : list ascii :=
  if (u <? 128)%N then [ascii_of_N u]
  else if (u <? 2048)%N then
    [ascii_of_N (192 + u / 64); ascii_of_N (128 + u mod 64)]
  else
    [ascii_of_N (224 + u / 4096); ascii_of_N (128 + (u / 64) mod 64);
     ascii_of_N (128 + u mod 64)].

(** The characters of a string literal after its opening quote
    (34 is the double quote, 92 the backslash). *)
Fixpoint parse_string (cs acc : list ascii) : option (string * list ascii) :=
  match cs with
  | [] => None
  | c :: r =>
      match nat_of_ascii c with
      | 34 => Some (text (rev acc), r)
      | 92 =>
          match r with
          | [] => None
          | e :: r1 =>
              match nat_of_ascii e with
              | 34 | 92 | 47 => parse_string r1 (e :: acc)
              | 98 => parse_string r1 (ascii_of_nat 8 :: acc)
              | 102 => parse_string r1 (ascii_of_nat 12 :: acc)
              | 110 => parse_string r1 (ascii_of_nat 10 :: acc)
              | 114 => parse_string r1 (ascii_of_nat 13 :: acc)
              | 116 => parse_string r1 (ascii_of_nat 9 :: acc)
              | 117 =>
                  match r1 with
                  | h1 :: h2 :: h3 :: h4 :: r' =>
                      match read_radix 16 [h1; h2; h3; h4] 0 with
                      | Some u => parse_string r' (rev (utf8 u) ++ acc)
                      | None => None
                      end
                  | _ => None
                  end
              | _ => None
              end
          end
      | n => if (n <? 32)%nat then None else parse_string r (c :: acc)
      end
  end.

Definition dquote : ascii := ascii_of_nat 34.

Definition expect (lit : string) (v : value) (cs : list ascii)
  : option (value * list ascii) :=
  if prefix lit (text cs)
  then Some (v, skipn (String.length lit) cs) else None.

(** One JSON value and the input left after it; [None] is a syntax
    error.  The fuel bounds the number of nested and successive values,
    both of which the length of the input bounds. *)
Fixpoint parse_value (fuel : nat) (cs : list ascii) {struct fuel}
  : option (value * list ascii) :=
  match fuel with
  | O => None
  | S f =>
      match skip_ws cs with
      | [] => None
      | c :: r =>
          if Ascii.eqb c "n" then expect "null" VNull (c :: r)
          else if Ascii.eqb c "t" then expect "true" (VBool true) (c :: r)
          else if Ascii.eqb c "f" then expect "false" (VBool false) (c :: r)
          else if Ascii.eqb c dquote then
            match parse_string r [] with
            | Some (s, r') => Some (VStr s, r')
            | None => None
            end
          else if Ascii.eqb c "[" then
            match skip_ws r with
            | "]"%char :: r' => Some (VArr [], r')
            | _ => parse_elements f r []
            end
          else if Ascii.eqb c "{" then
            match skip_ws r with
            | "}"%char :: r' => Some (VObj [], r')
            | _ => parse_members f r []
            end
          else parse_number (c :: r)
      end
  end

with parse_elements (fuel : nat) (cs : list ascii) (acc : list value)
  {struct fuel} : option (value * list ascii) :=
  match fuel with
  | O => None
  | S f =>
      match parse_value f cs with
      | Some (v, r) =>
          match skip_ws r with
          | ","%char :: r' => parse_elements f r' (v :: acc)
          | "]"%char :: r' => Some (VArr (rev (v :: acc)), r')
          | _ => None
          end
      | None => None
      end
  end

with parse_members (fuel : nat) (cs : list ascii) (acc : list (string * value))
  {struct fuel} : option (value * list ascii) :=
  match fuel with
  | O => None
  | S f =>
      match skip_ws cs with
      | [] => None
      | c :: r =>
          if negb (Ascii.eqb c dquote) then None else
          match parse_string r [] with
          | Some (k, r1) =>
              match skip_ws r1 with
              | ":"%char :: r2 =>
                  match parse_value f r2 with
                  | Some (v, r3) =>
                      match skip_ws r3 with
                      | ","%char :: r4 => parse_members f r4 ((k, v) :: acc)
                      | "}"%char :: r4 => Some (VObj (rev ((k, v) :: acc)), r4)
                      | _ => None
                      end
                  | None => None
                  end
              | _ => None
              end
          | None => None
          end
      end
  end.

(** [JSON.parse(text)]: the value, or a SyntaxError. *)
Definition JSON_parse (s : string) : Result value :=
  match parse_value (S (String.length s)) (chars s) with
  | Some (v, rest) =>
      match skip_ws rest with
      | [] => Ok v
      | _ => Throw (SyntaxError "Unexpected non-whitespace character after JSON")
      end
  | None => Throw (SyntaxError "Unexpected token or end of JSON input")
  end.

End JS.

(* ================================================================== *)
(** * Binary64 arithmetic *)
(* ================================================================== *)

Module Binary64.

Import JS.
Local Open Scope Z_scope.

(** The largest [e] with [2 ^ e <= a / d], for positive [a] and [d]. *)
Definition exponent (a d : Z) : Z :=
  let e := Z.log2 a - Z.log2 d in
  if (if 0 <=? e then d * 2 ^ e <=? a else d <=? a * 2 ^ (- e)) then e else e - 1.

(** The integer nearest to [n / d], the even one of two that are
    equally near. *)
Definition nearest_even (n d : Z) : Z :=
  let q := n / d in
  let r := n mod d in
  if 2 * r <? d then q
  else if d <? 2 * r then q + 1
  else if Z.even q then q else q + 1.

(** The binary64 value nearest to a rational, ties to even: a
    significand of 53 bits, or fewer below [2 ^ -1022], times a power
    of two that is at least [2 ^ -1074]; an infinity from [2 ^ 1024]
    on. *)
Definition round (q : Q) : num :=
  let n := Qnum q in
  let d := Z.pos (Qden q) in
  if n =? 0 then Fin 0%Q
  else
    let a := Z.abs n in
    let sh := Z.max (exponent a d - 52) (-1074) in
    let m := if sh <? 0 then nearest_even (a * 2 ^ (- sh)) d
             else nearest_even a (d * 2 ^ sh) in
    if ((0 <=? sh) && (2 ^ 1024 <=? m * 2 ^ sh))%bool then Inf (n <? 0)
    else
      let s := if n <? 0 then (-1) else 1 in
      Fin (Qred (if sh <? 0 then Qmake (s * m) (Z.to_pos (2 ^ (- sh)))
                 else inject_Z (s * m * 2 ^ sh))).

(** The number a value of the engine denotes. *)
Definition of_num (a : num) : num :=
  match a with
  | Fin q => round q
  | _ => a
  end.

(** [a + b] and [a - b] of the engine: the exact result of the
    operands, rounded. *)
Definition add (a b : num) : num := of_num (num_add (of_num a) (of_num b)).
Definition sub (a b : num) : num := of_num (num_sub (of_num a) (of_num b)).

(** The binary [+] and [-] on values, as [JS.js_add] and [JS.js_sub]
    with the rounded operators. *)
Definition js_add (a b : value) : value :=
  if (is_string a || is_string b)%bool
  then VStr (ToString a ++ ToString b)
  else VNum (add (ToNumber a) (ToNumber b)).

Definition js_sub (a b : value) : value := VNum (sub (ToNumber a) (ToNumber b)).

(** The number a primitive float of the kernel denotes, to compare the
    operators above with the hardware. *)
Definition of_float (f : float) : num :=
  match Prim2SF f with
  | S754_zero _ => Fin 0%Q
  | S754_infinity s => Inf s
  | S754_nan => NaN
  | S754_finite s m e =>
      let z := if s then Z.neg m else Z.pos m in
      Fin (Qred (if e <? 0 then Qmake z (Z.to_pos (2 ^ (- e)))
                 else inject_Z (z * 2 ^ e)))
  end.

End Binary64.

(* ================================================================== *)
(** * The report generators *)
(* ================================================================== *)

Module Report.

Import JS.
Local Open Scope string_scope.
Local Open Scope js_scope.

(** [fs.readFile(path, 'utf-8')]: the content, or a rejection. *)
Definition FS := string -> Result string.

(** How the error of an invalid argument names what it received (a
    string is a valid path and is never named). *)
Definition received (v : value) : string :=
  match v with
  | VUndef => "undefined"
  | VNull => "null"
  | VBool _ => "type boolean (" ++ ToString v ++ ")"
  | VNum _ => "type number (" ++ ToString v ++ ")"
  | VStr s => "type string ('" ++ s ++ "')"
  | VArr _ => "an instance of Array"
  | VObj _ => "an instance of Object"
  end.

(** [fs.readFile(path, 'utf-8')] on a value: the path is validated
    before the file system is touched, and a path that is no string
    (the scripts pass no buffer and no URL object) is rejected with a
    [TypeError]. *)
Definition invalidPath (path : value) : error :=
  TypeError
    (dq "The 'path' argument must be of type string or an instance of Buffer or URL. Received "
     ++ received path).

Definition readFile (fs : FS) (path : value) : Result string :=
  match path with
  | VStr p => fs p
  | _ => Throw (invalidPath path)
  end.

Definition Num (z : Z) : value := VNum (num_of_Z z).

(** [x.toFixed(d)] on a value that has to be a number. *)
Definition call_toFixed (v : value) (d : nat) : Result string :=
  match v with
  | VNum n => Ok (toFixed n d)
  | VUndef | VNull => Throw (TypeError ("Cannot read properties of " ++ ToString v))
  | _ => Throw (TypeError "toFixed is not a function")
  end.

(** ** Total Blocking Time

    [longTasks.reduce((sum, task) => sum + Math.max(0, task.duration - 50), 0)],
    the expression shared by [generateHtmlReport], [analyzeTraceMetrics]
    and the markdown [generateReport]: every difference and every
    partial sum is a binary64 value. *)
Definition totalBlockingTime (longTasks : list value) : Result value :=
  Array_reduce
    (fun sum task =>
       d <- get task "duration" ;;
       Ok (Binary64.js_add sum
             (VNum (Math_max (Fin 0%Q) (ToNumber (Binary64.js_sub d (Num 50)))))))
    longTasks (Num 0).

(** The same expression read on the exact values of the durations, in
    the row of the table of the enhanced Word report, of which only
    whether the sum is zero is used below. *)
Definition blockingTime (longTasks : list value) : Result value :=
  Array_reduce
    (fun sum task =>
       d <- get task "duration" ;;
       Ok (js_add sum (VNum (Math_max (Fin 0%Q) (ToNumber (js_sub d (Num 50)))))))
    longTasks (Num 0).

(** [nt.responseStart - nt.requestStart]. *)
Definition timeToFirstByte (nt : value) : Result value :=
  rs <- get nt "responseStart" ;;
  rq <- get nt "requestStart" ;;
  Ok (js_sub rs rq).

(** ** enhanced_perf_test.mjs, [generateHtmlReport]: the key metrics
       the callback of each entry computes *)

Record KeyMetrics : Type := {
  km_lcp : value;
  km_cls : value;
  km_inp : value;
  km_ttfb : value;
  km_longTasks : list value;
  km_tbt : value
}.

(** The metrics file of an entry: a file that cannot be read or parsed
    is replaced by an object carrying an [error] text. *)
Definition readMetrics (fs : FS) (metricsPath : value) : value :=
  match (content <- readFile fs metricsPath ;; JSON_parse content) with
  | Ok v => v
  | Throw _ => VObj [("error", VStr "Could not read metrics")]
  end.

(** [metrics.navigationTiming ? responseStart - requestStart : null]. *)
Definition htmlTtfb (metrics : value) : Result value :=
  nt <- get metrics "navigationTiming" ;;
  if truthy nt then timeToFirstByte nt else Ok VNull.

Definition keyMetrics (metrics : value) : Result KeyMetrics :=
  l <- get metrics "lcp" ;;
  let lcp := opt_get l "duration" in
  cls <- get metrics "cls" ;;
  inp <- get metrics "inp" ;;
  ttfb <- htmlTtfb metrics ;;
  lt <- get metrics "longTasks" ;;
  longTasks <- as_array (js_or lt (VArr [])) "reduce" ;;
  tbt <- totalBlockingTime longTasks ;;
  Ok {| km_lcp := lcp; km_cls := cls; km_inp := inp; km_ttfb := ttfb;
        km_longTasks := longTasks; km_tbt := tbt |}.

(** ** markdown_report.mjs, [generateReport]: the section of one entry *)

(** The optional TTFB of the section: computed only under
    [if (metrics.navigationTiming)]. *)
Definition markdownTtfb (metrics : value) : Result (option value) :=
  nt <- get metrics "navigationTiming" ;;
  if truthy nt
  then (ttfb <- timeToFirstByte nt ;; Ok (Some ttfb))
  else Ok None.

(** The optional TBT of the section: computed only under
    [if (metrics.longTasks?.length > 0)]. *)
Definition markdownTbt (metrics : value) : Result (option value) :=
  lt <- get metrics "longTasks" ;;
  if js_gt (opt_get lt "length") (Num 0)
  then (tasks <- as_array lt "reduce" ;;
        tbt <- totalBlockingTime tasks ;;
        Ok (Some tbt))
  else Ok None.

(** The blocks of a section: each evaluates its text, which may raise,
    and then appends its lines to the report. *)
Definition lcpLine (metrics : value) : Result (list string) :=
  l <- get metrics "lcp" ;;
  let duration := opt_get l "duration" in
  let lcpText :=
    if truthy duration
    then toFixed (ToNumber (js_div duration (Num 1000))) 2 ++ "s"
    else "N/A" in
  Ok ["- LCP: " ++ lcpText].

Definition clsLine (metrics : value) : Result (list string) :=
  c <- get metrics "cls" ;;
  cls <- opt_toFixed c 3 ;;
  Ok ["- CLS: " ++ ToString (js_or cls (VStr "N/A"))].

Definition inpLine (metrics : value) : Result (list string) :=
  i <- get metrics "inp" ;;
  inp <- opt_toFixed i 2 ;;
  Ok ["- INP: " ++ ToString (js_or inp (VStr "N/A")) ++ "ms"].

Definition ttfbLines (metrics : value) : Result (list string) :=
  ttfb <- markdownTtfb metrics ;;
  match ttfb with
  | Some t => (s <- call_toFixed t 2 ;; Ok ["- TTFB: " ++ s ++ "ms"])
  | None => Ok []
  end.

Definition tbtLines (metrics : value) : Result (list string) :=
  tbt <- markdownTbt metrics ;;
  match tbt with
  | Some t =>
      s <- call_toFixed t 2 ;;
      lt <- get metrics "longTasks" ;;
      Ok ["- Total Blocking Time: " ++ s ++ "ms";
          "- Long Tasks Count: " ++ ToString (own lt "length")]
  | None => Ok []
  end.

(** The warnings of the analysis (the heading of each piece of advice;
    the fixed advice lines under it are left out). *)
Definition lcpAdvice (metrics : value) : Result (list string) :=
  l <- get metrics "lcp" ;;
  Ok (if js_gt (opt_get l "duration") (Num 2500)
      then ["⚠️ **High LCP detected**"] else []).

Definition clsAdvice (metrics : value) : Result (list string) :=
  c <- get metrics "cls" ;;
  Ok (if js_gt c (VNum (Fin (1 # 10)))
      then ["⚠️ **High CLS detected**"] else []).

Definition tbtAdvice (metrics : value) : Result (list string) :=
  tbt <- markdownTbt metrics ;;
  Ok (match tbt with
      | Some t => if js_gt t (Num 200) then ["⚠️ **High Total Blocking Time**"] else []
      | None => []
      end).

Definition sectionBlocks (metrics : value) : list (Result (list string)) :=
  [Ok ["### Core Web Vitals"];
   lcpLine metrics; clsLine metrics; inpLine metrics;
   ttfbLines metrics; tbtLines metrics;
   Ok ["### Performance Analysis"];
   lcpAdvice metrics; clsAdvice metrics; tbtAdvice metrics].

(** The lines appended until a block raises, and the error it raised. *)
Fixpoint emit (blocks : list (Result (list string))) : list string * option error :=
  match blocks with
  | [] => ([], None)
  | Ok lines :: rest => let '(more, e) := emit rest in ((lines ++ more)%list, e)
  | Throw e :: _ => ([], Some e)
  end.

(** The body of the [for] loop: what was appended before a failure
    stays in the report, and the failure, be it of reading the metrics
    file, of parsing it or of a block, is reported in the section. *)
Definition entrySection (fs : FS) (entry : value) : Result (list string) :=
  step <- get entry "step" ;;
  let header := "## Step: " ++ ToString step in
  let '(lines, failure) :=
    match (path <- get entry "metricsPath" ;;
           content <- readFile fs path ;;
           JSON_parse content) with
    | Ok metrics => emit (sectionBlocks metrics)
    | Throw e => ([], Some e)
    end in
  let caught :=
    match failure with
    | Some e => ["Error reading metrics: " ++ message e]
    | None => []
    end in
  Ok (header :: lines ++ caught ++ ["---"])%list.

(** [generateReport]: the sections of the entries of the report file,
    in order. *)
Fixpoint sections (fs : FS) (entries : list value) : Result (list string) :=
  match entries with
  | [] => Ok []
  | entry :: rest =>
      s <- entrySection fs entry ;;
      more <- sections fs rest ;;
      Ok (s ++ more)%list
  end.

Definition generateReport (fs : FS) (reportPath : string) : Result (list string) :=
  content <- fs reportPath ;;
  reportData <- JSON_parse content ;;
  entries <- iterate reportData ;;
  body <- sections fs entries ;;
  Ok ("# Performance Test Report" :: body ++ ["## Overall Recommendations"])%list.

(** ** generate_mcp_report.mjs: a row of the Core Web Vitals table *)

Record Row : Type := {
  row_step : value;
  row_lcp : value;
  row_cls : value;
  row_inp : value;
  row_ttfb : value;
  row_tbt : value;
  row_good : bool
}.

Definition metricsRow (entry : value) : Result Row :=
  m <- get entry "metrics" ;;
  let metrics := js_or (opt_get (opt_get m "result") "payload") (VObj []) in
  l <- get metrics "LargestContentfulPaint" ;;
  let lcp := js_or l (VStr "N/A") in
  c <- get metrics "CumulativeLayoutShift" ;;
  let cls := js_or c (Num 0) in
  i <- get metrics "InteractionToNextPaint" ;;
  let inp := js_or i (VStr "N/A") in
  t <- get metrics "TimeToFirstByte" ;;
  let ttfb := js_or t (VStr "N/A") in
  b <- get metrics "TotalBlockingTime" ;;
  let tbt := js_or b (VStr "N/A") in
  let good := (js_lt lcp (Num 2500) && js_lt cls (VNum (Fin (1 # 10))))%bool in
  step <- get entry "step" ;;
  Ok {| row_step := step; row_lcp := lcp; row_cls := cls; row_inp := inp;
        row_ttfb := ttfb; row_tbt := tbt; row_good := good |}.

(** The markdown text of the row. *)
Definition rowText (r : Row) : string :=
  "| " ++ ToString (row_step r) ++ " | " ++ ToString (row_lcp r) ++
  " | " ++ ToString (row_cls r) ++ " | " ++ ToString (row_inp r) ++
  " | " ++ ToString (row_ttfb r) ++ " | " ++ ToString (row_tbt r) ++
  " | " ++ (if row_good r then "✅" else "⚠️") ++ " |".

(** ** generate_enhanced_report.mjs, [analyzeTraceMetrics] *)




(** ** The Word report: [parseTraceMetrics] *)

Record TraceMetrics : Type := {
  loadTime : value;
  firstPaint : value;
  firstContentfulPaint : value;
  networkRequests : value;
  networkBytes : value
}.

(** [traceData.find(e => e.name === name)?.ts]. *)
Definition eventTs (traceData : value) (name : string) : Result value :=
  events <- as_array traceData "find" ;;
  found <- Array_find (fun e => n <- get e "name" ;; Ok (strict_eq_str n name)) events ;;
  Ok (opt_get found "ts").

(** [stamp && navigationStart ? (stamp - navigationStart) / 1000 : null]. *)
Definition sinceNavigation (stamp navigationStart : value) : value :=
  if truthy (js_and stamp navigationStart)
  then js_div (js_sub stamp navigationStart) (Num 1000)
  else VNull.

Definition named (name : string) (e : value) : Result bool :=
  n <- get e "name" ;; Ok (strict_eq_str n name).

Definition parseTraceMetrics (fs : FS) (tracePath : string) : Result TraceMetrics :=
  content <- fs tracePath ;;
  traceData <- JSON_parse content ;;
  navigationStart <- eventTs traceData "navigationStart" ;;
  loadEventEnd <- eventTs traceData "loadEventEnd" ;;
  firstPaint <- eventTs traceData "firstPaint" ;;
  firstContentfulPaint <- eventTs traceData "firstContentfulPaint" ;;
  let loadTime := sinceNavigation loadEventEnd navigationStart in
  let fcp := sinceNavigation firstContentfulPaint navigationStart in
  let fp := sinceNavigation firstPaint navigationStart in
  events <- as_array traceData "filter" ;;
  requests <- Array_filter (named "ResourceSendRequest") events ;;
  let networkRequests := Num (Z.of_nat (List.length requests)) in
  responses <- Array_filter (named "ResourceReceiveResponse") events ;;
  networkBytes <-
    Array_reduce
      (fun sum e =>
         Ok (js_add sum
               (js_or (opt_get (opt_get (opt_get e "args") "data") "encodedDataLength")
                      (Num 0))))
      responses (Num 0) ;;
  Ok {| loadTime := loadTime;
        firstPaint := fp;
        firstContentfulPaint := fcp;
        networkRequests := networkRequests;
        networkBytes := js_div (js_div networkBytes (Num 1024)) (Num 1024) |}.

End Report.

(* ================================================================== *)
(** * The in-page observers of enhanced_perf_test.mjs *)
(* ================================================================== *)

Module Observer.

Import JS.

(** The entries the browser hands to the observers.  [hadRecentInput]
    is the browser's flag of the Layout Instability API (set on a shift
    that follows a user input by less than 500 ms); the candidates of
    [largest-contentful-paint] are those the browser reports, which
    stop at the first user input. *)
Record LayoutShift : Type := {
  hadRecentInput : bool;
  shift_value : Q
}.

Record LcpCandidate : Type := {
  lcp_startTime : Q;
  lcp_size : N
}.

Record Interaction : Type := { interaction_duration : Q }.

Record LongTask : Type := {
  task_duration : Q;
  task_startTime : Q
}.

(** The script state of a document: the variables the callbacks close
    over, and the globals they publish ([None] is [undefined]). *)
Record Document : Type := {
  win_LCP : option LcpCandidate;
  clsValue : num;
  win_CLS : option num;
  maxINP : num;
  win_INP : option num;
  longTasks : list LongTask;
  win_longTasks : option (list LongTask)
}.

(** The state [injectPerformanceObserver] sets up in a new document. *)
Definition newDocument : Document :=
  {| win_LCP := None;
     clsValue := Fin 0%Q; win_CLS := None;
     maxINP := Fin 0%Q; win_INP := None;
     longTasks := []; win_longTasks := None |}.

(** [if (entries.length > 0) window.__LCP = entries[entries.length - 1]]. *)
Definition onLcp (entries : list LcpCandidate) (d : Document) : Document :=
  if (0 <? List.length entries)%nat then
    {| win_LCP := nth_error entries (List.length entries - 1);
       clsValue := clsValue d; win_CLS := win_CLS d;
       maxINP := maxINP d; win_INP := win_INP d;
       longTasks := longTasks d; win_longTasks := win_longTasks d |}
  else d.

(** [for (entry of entries) if (!entry.hadRecentInput) clsValue += entry.value],
    each sum a binary64 value. *)
Definition accumulateShifts (entries : list LayoutShift) (cls : num) : num :=
  fold_left
    (fun acc entry =>
       if negb (hadRecentInput entry)
       then Binary64.add acc (Fin (shift_value entry)) else acc)
    entries cls.

Definition onLayoutShift (entries : list LayoutShift) (d : Document) : Document :=
  let cls := accumulateShifts entries (clsValue d) in
  {| win_LCP := win_LCP d;
     clsValue := cls; win_CLS := Some cls;
     maxINP := maxINP d; win_INP := win_INP d;
     longTasks := longTasks d; win_longTasks := win_longTasks d |}.

Definition onInteraction (entries : list Interaction) (d : Document) : Document :=
  let inp :=
    fold_left (fun acc entry => Math_max acc (Fin (interaction_duration entry)))
              entries (maxINP d) in
  {| win_LCP := win_LCP d;
     clsValue := clsValue d; win_CLS := win_CLS d;
     maxINP := inp; win_INP := Some inp;
     longTasks := longTasks d; win_longTasks := win_longTasks d |}.

Definition onLongTask (entries : list LongTask) (d : Document) : Document :=
  let tasks := (longTasks d ++ entries)%list in
  {| win_LCP := win_LCP d;
     clsValue := clsValue d; win_CLS := win_CLS d;
     maxINP := maxINP d; win_INP := win_INP d;
     longTasks := tasks; win_longTasks := Some tasks |}.

(** One invocation of an observer callback. *)
Inductive batch : Type :=
| LcpBatch (entries : list LcpCandidate)
| ShiftBatch (entries : list LayoutShift)
| InteractionBatch (entries : list Interaction)
| LongTaskBatch (entries : list LongTask).

Definition deliver (d : Document) (b : batch) : Document :=
  match b with
  | LcpBatch l => onLcp l d
  | ShiftBatch l => onLayoutShift l d
  | InteractionBatch l => onInteraction l d
  | LongTaskBatch l => onLongTask l d
  end.

(** The document after the callbacks that ran, in order. *)
Definition observe (batches : list batch) : Document :=
  fold_left deliver batches newDocument.

(** The callbacks of a timeline (time in ms, batch) that have run when
    the page is sampled at [deadline]. *)
Definition delivered (deadline : N) (timeline : list (N * batch)) : list batch :=
  map snd (filter (fun tb => (fst tb <=? deadline)%N) timeline).

(** What [getPerformanceMetrics] reads in the page at [deadline]. *)
Definition sample (deadline : N) (timeline : list (N * batch)) : Document :=
  observe (delivered deadline timeline).

Definition lcpCandidates (batches : list batch) : list LcpCandidate :=
  flat_map (fun b => match b with LcpBatch l => l | _ => [] end) batches.

Definition layoutShifts (batches : list batch) : list LayoutShift :=
  flat_map (fun b => match b with ShiftBatch l => l | _ => [] end) batches.

Definition unflagged (e : LayoutShift) : bool := negb (hadRecentInput e).

(** The batches without the shifts that carry [hadRecentInput]. *)
Definition dropFlagged (b : batch) : batch :=
  match b with
  | ShiftBatch l => ShiftBatch (filter unflagged l)
  | _ => b
  end.

(** The batches the observer is called with when the flagged shifts
    never reach it: a callback is not invoked without entries. *)
Definition prune (batches : list batch) : list batch :=
  filter (fun b => match b with ShiftBatch [] => false | _ => true end)
         (map dropFlagged batches).

(** The running sum of the scores of a list of shifts: the scores
    added one after the other, from zero, in binary64 arithmetic. *)
Definition scoreSum (l : list LayoutShift) : num :=
  fold_left (fun acc e => Binary64.add acc (Fin (shift_value e))) l (Fin 0%Q).

End Observer.

(* ================================================================== *)
(** * Promises over a scripted browser *)
(* ================================================================== *)

Module Driver.

Import JS.
Local Open Scope string_scope.

(** An element of the page, as the scripts look at it. *)
Record Node : Type := {
  node_id : string;
  textContent : option string;
  node_value : option string
}.

(** The document an in-page function runs against. *)
Record Dom : Type := { querySelectorAll : string -> list Node }.

Definition querySelector (d : Dom) (selector : string) : option Node :=
  hd_error (querySelectorAll d selector).

(** What an in-page function does to the document. *)
Inductive effect : Type :=
| Click (n : Node)
| Submit (n : Node).

(** The asynchronous operations of the browser driver, of the file
    system and of the trace-processing library, indexed by the type of
    the value they resolve to. *)
Inductive call : Type -> Type :=
| Launch : call unit
| NewPage : call unit
| SetViewport : call unit
| EvaluateOnNewDocument : call unit
| BrowserClose : call unit
| Mkdir (path : string) : call unit
| Goto (url : string) (waitUntil : list string) : call unit
| TracingStart (categories : list string) : call unit
| TracingStop : call string
| Evaluate : call Dom
| Query (selector : string) : call (option Node)
| HandleClick (n : Node) (clickCount : nat) : call unit
| HandleType (n : Node) (keys : string) : call unit
| PageClick (selector : string) : call unit
| PageType (selector keys : string) : call unit
| WaitForNavigation (timeout : option N) : call unit
| Timer (ms : N) : call unit
| Snapshot : call value
| PageMetrics : call value
| WriteFile (path content : string) : call unit
| WriteJson (path : string) (content : value) : call unit
| ParseRawTraceBuffer (buffer : string) : call value
| GetTraceSummary (parsed : value) : call string.

(** The environment: how the [n]-th operation of a run settles, and
    how long it takes (in ms). *)
Definition Browser : Type := forall R, call R -> nat -> Result R * N.

Inductive event : Type :=
| Settled (R : Type) (c : call R) (ok : bool) (finished : N)
| InPage (e : effect) (finished : N).

Arguments Settled {R} c ok finished.

Definition finished_at (e : event) : N :=
  match e with
  | Settled _ _ t => t
  | InPage _ t => t
  end.

(** The run so far: a logical clock (ms) and the operations settled. *)
Record World : Type := {
  clock : N;
  log : list event
}.

Definition start : World := {| clock := 0; log := [] |}.

(** An awaited promise: it settles to a value or to a rejection, and
    leaves the world it has acted on. *)
Definition promise (A : Type) : Type := Browser -> World -> Result A * World.

Definition ret {A} (a : A) : promise A := fun _ w => (Ok a, w).

Definition reject {A} (e : error) : promise A := fun _ w => (Throw e, w).

Definition bind {A B} (p : promise A) (k : A -> promise B) : promise B :=
  fun env w =>
    match p env w with
    | (Ok a, w') => k a env w'
    | (Throw e, w') => (Throw e, w')
    end.

(** [try { p } catch (e) { h e }], and [p.catch(h)]. *)
Definition catch {A} (p : promise A) (h : error -> promise A) : promise A :=
  fun env w =>
    match p env w with
    | (Ok a, w') => (Ok a, w')
    | (Throw e, w') => h e env w'
    end.

(** [p.catch(() => {})]. *)
Definition ignore_errors (p : promise unit) : promise unit :=
  catch p (fun _ => ret tt).

(** [try { p } finally { q }]. *)
Definition finally {A} (p : promise A) (q : promise unit) : promise A :=
  fun env w =>
    match p env w with
    | (r, w') =>
        match q env w' with
        | (Ok _, w'') => (r, w'')
        | (Throw e, w'') => (Throw e, w'')
        end
    end.

(** The result of a synchronous expression. *)
Definition lift {A} (r : Result A) : promise A := fun _ w => (r, w).

Declare Scope promise_scope.
Delimit Scope promise_scope with promise.
Notation "x <- c ;; k" := (bind c (fun x => k))
  (at level 61, c at next level, right associativity) : promise_scope.
Notation "c ;; k" := (bind c (fun _ => k))
  (at level 61, right associativity) : promise_scope.

(** Awaiting an operation of the environment. *)
Definition perform {R} (c : call R) : promise R :=
  fun env w =>
    let '(r, took) := env R c (List.length (log w)) in
    let t := (clock w + took)%N in
    (r, {| clock := t; log := log w ++ [Settled c (returns r) t] |}).

(** [new Promise(r => setTimeout(r, ms))]: resolves, not before [ms]
    have passed. *)
Definition sleep (ms : N) : promise unit :=
  fun env w =>
    let '(_, late) := env unit (Timer ms) (List.length (log w)) in
    let t := (clock w + ms + late)%N in
    (Ok tt, {| clock := t; log := log w ++ [Settled (Timer ms) true t] |}).

(** [page.evaluate(fn)]: [fn] runs against the document of the page,
    unless the evaluation itself is rejected. *)
Definition evaluate {A} (fn : Dom -> A * list effect) : promise A :=
  fun env w =>
    match perform Evaluate env w with
    | (Ok d, w') =>
        let '(a, effects) := fn d in
        (Ok a, {| clock := clock w';
                  log := log w' ++ map (fun e => InPage e (clock w')) effects |})
    | (Throw e, w') => (Throw e, w')
    end.

(** A promise that is started and not awaited: it acts on the page,
    nobody looks at how it settles, and the caller does not wait.  A
    rejection of such a promise is handled by nobody and ends a Node
    process; that is outside this model, and what is stated about the
    end of a run of the full scenario assumes that the evaluations in
    the page are not rejected, so that no such promise rejects. *)
Definition unawaited {A} (p : promise A) : promise unit :=
  fun env w =>
    let '(_, w') := p env w in
    (Ok tt, {| clock := clock w; log := log w' |}).

(** Two promises started together: how each settles and when. *)
Definition together {A B} (p : promise A) (q : promise B)
  : Browser -> World -> (Result A * N) * (Result B * N) * list event :=
  fun env w =>
    let '(ra, wa) := p env w in
    let '(rb, wb) := q env {| clock := clock w; log := log wa |} in
    ((ra, clock wa), (rb, clock wb), log wb).

(** [Promise.race([p, q])]. *)
Definition Promise_race {A} (p q : promise A) : promise A :=
  fun env w =>
    let '((ra, ta), (rb, tb), l) := together p q env w in
    if (ta <=? tb)%N then (ra, {| clock := ta; log := l |})
    else (rb, {| clock := tb; log := l |}).

(** [Promise.all([p, q])]. *)
Definition Promise_all {A B} (p : promise A) (q : promise B) : promise (A * B) :=
  fun env w =>
    let '((ra, ta), (rb, tb), l) := together p q env w in
    match ra, rb with
    | Ok a, Ok b => (Ok (a, b), {| clock := N.max ta tb; log := l |})
    | Throw e, Ok _ => (Throw e, {| clock := ta; log := l |})
    | Ok _, Throw e => (Throw e, {| clock := tb; log := l |})
    | Throw ea, Throw eb =>
        if (ta <=? tb)%N then (Throw ea, {| clock := ta; log := l |})
        else (Throw eb, {| clock := tb; log := l |})
    end.

(** ** Reading the log *)

Definition is_timer (ms : N) (e : event) : bool :=
  match e with
  | Settled (Timer m) _ _ => (m =? ms)%N
  | _ => false
  end.

Definition is_tracing_start (e : event) : bool :=
  match e with Settled (TracingStart _) _ _ => true | _ => false end.

Definition is_tracing_stop (e : event) : bool :=
  match e with Settled TracingStop _ _ => true | _ => false end.

Definition is_decode (e : event) : bool :=
  match e with Settled (ParseRawTraceBuffer _) _ _ => true | _ => false end.

(** The live sampling of the page: the snapshot of the performance
    entries and [page.metrics()]. *)
Definition is_sampling (e : event) : bool :=
  match e with
  | Settled Snapshot _ _ | Settled PageMetrics _ _ => true
  | _ => false
  end.

Definition is_goto (url : string) (e : event) : bool :=
  match e with
  | Settled (Goto u _) _ _ => String.eqb u url
  | _ => false
  end.


Definition is_evaluate (e : event) : bool :=
  match e with Settled Evaluate _ _ => true | _ => false end.

(** The events a promise adds to the log of the world it starts in. *)
Definition added (w w' : World) : list event :=
  skipn (List.length (log w)) (log w').

End Driver.

(* ================================================================== *)
(** * full_scenario_perf.mjs *)
(* ================================================================== *)

Module FullScenario.

Import JS Driver.
Local Open Scope string_scope.
Local Open Scope promise_scope.

Section Script.

(** The target given on the command line and the output directory. *)
Variable BASE : string.
Variable OUT_DIR : string.

Definition ensureOut : promise unit := perform (Mkdir OUT_DIR).

Definition save (name content : string) : promise string :=
  let file := OUT_DIR ++ "/" ++ name in
  perform (WriteFile file content) ;;
  ret file.

Definition matchesText (txt : string) (n : Node) : bool :=
  includes
    (toLowerCase (trim (match textContent n with Some t => t | None => EmptyString end)))
    (toLowerCase txt).

(** The loops of the in-page function: the first node, in the order of
    the selectors, whose text contains [txt]. *)
Fixpoint firstMatch (d : Dom) (sels : list string) (txt : string) : option Node :=
  match sels with
  | [] => None
  | sel :: rest =>
      match find (matchesText txt) (querySelectorAll d sel) with
      | Some n => Some n
      | None => firstMatch d rest txt
      end
  end.

Definition clickByText (selectorList txt : string) : promise bool :=
  evaluate (fun d =>
    match firstMatch d (split "," selectorList) txt with
    | Some n => (true, [Click n])
    | None => (false, [])
    end).

Definition typeIfExists (selector value : string) : promise bool :=
  catch
    (el <- perform (Query selector) ;;
     match el with
     | None => ret false
     | Some n =>
         perform (HandleClick n 3) ;;
         perform (HandleType n value) ;;
         ret true
     end)
    (fun _ => ret false).

Definition categories : list string :=
  ["-*"; "blink.console"; "blink.user_timing"; "devtools.timeline";
   "disabled-by-default-devtools.screenshot";
   "disabled-by-default-devtools.timeline";
   "disabled-by-default-devtools.timeline.invalidationTracking";
   "disabled-by-default-devtools.timeline.frame";
   "disabled-by-default-devtools.timeline.stack";
   "disabled-by-default-v8.cpu_profiler";
   "disabled-by-default-v8.cpu_profiler.hires";
   "latencyInfo"; "loading"; "disabled-by-default-lighthouse";
   "v8.execute"; "v8"].

Record Options : Type := { reload : bool; autoStop : bool }.

Definition defaults : Options := {| reload := true; autoStop := true |}.

Record Trace : Type := {
  parsed : value;
  summary : string;
  file : string
}.

(** [Date.now()]. *)
Definition now : promise N := fun _ w => (Ok (clock w), w).

(** [parsed?.error ?? 'unknown']. *)
Definition errorOf (parsed : value) : value :=
  let e := opt_get parsed "error" in
  if nullish e then VStr "unknown" else e.

(** [parsed && parsed.parsedTrace ? getTraceSummary(parsed)
      : `Error parsing trace: ${parsed?.error ?? 'unknown'}`]. *)
Definition summarize (parsed : value) : promise string :=
  if truthy (js_and parsed (opt_get parsed "parsedTrace"))
  then perform (GetTraceSummary parsed)
  else ret ("Error parsing trace: " ++ ToString (errorOf parsed)).

Definition recordTraceAround (name : string) (actionFn : promise unit)
  (opts : Options) : promise Trace :=
  (if reload opts
   then ignore_errors (perform (Goto "about:blank" ["networkidle0"]))
   else ret tt) ;;
  perform (TracingStart categories) ;;
  actionFn ;;
  sleep 2500 ;;
  buffer <- perform TracingStop ;;
  parsed <- perform (ParseRawTraceBuffer buffer) ;;
  summary <- summarize parsed ;;
  t <- now ;;
  let fname :=
    nat_digits t ++ "-" ++ text (replace_spaces (chars name) false) ++ ".txt" in
  file <- save fname summary ;;
  ret {| parsed := parsed; summary := summary; file := file |}.

(** ** The actions of the nine steps *)

(** The value of [a || p] where [p] is a promise that is not awaited:
    the promise object itself, which is truthy. *)
Inductive operand : Type :=
| Awaited (b : bool)
| Pending.

Definition holds (o : operand) : bool :=
  match o with Awaited b => b | Pending => true end.

(** [a || await p]. *)
Definition or_await (a : bool) (p : promise bool) : promise bool :=
  if a then ret true else p.

(** [a || p], [p] started and left pending. *)
Definition or_start (a : operand) (p : promise bool) : promise operand :=
  if holds a then ret a else (unawaited p ;; ret Pending).

(** [page.goto(new URL(path, BASE).href, { waitUntil: ['load'] }).catch(() => {})]. *)
Definition gotoOrIgnore (path : string) : promise unit :=
  url <- lift (resolveUrl path BASE) ;;
  ignore_errors (perform (Goto url ["load"])).

(** [page.waitForNavigation({ waitUntil: ['load'], timeout }).catch(() => {})]. *)
Definition awaitNavigation (timeout : N) : promise unit :=
  ignore_errors (perform (WaitForNavigation (Some timeout))).

Definition homeAction : promise unit :=
  perform (Goto BASE ["load"]).

Definition signInPath : string := "/actions/Account.action?signonForm=".

Definition signInAction : promise unit :=
  clicked <- clickByText "a,button" "Sign In" ;;
  (if negb clicked then gotoOrIgnore signInPath else ret tt) ;;
  sleep 1000.

Definition submitForm (d : Dom) : unit * list effect :=
  match querySelector d "form" with
  | Some f => (tt, [Submit f])
  | None => (tt, [])
  end.

Definition loginAction : promise unit :=
  typedUser <- typeIfExists
    (dq "input[name='username'], input[id='username'], input[name='userid']")
    "j2ee" ;;
  typedPass <- typeIfExists
    (dq "input[name='password'], input[id='password']") "j2ee" ;;
  a <- clickByText (dq "input[type='submit'], button") "Login" ;;
  b <- or_await a (clickByText (dq "input[type='submit'], button") "Sign In") ;;
  submitClicked <- or_await b (clickByText "button" "Submit") ;;
  (if negb submitClicked then evaluate submitForm else ret tt) ;;
  awaitNavigation 10000 ;;
  sleep 1000.

Definition fishAction : promise unit :=
  clicked <- clickByText "a,button" "Fish" ;;
  (if negb clicked
   then gotoOrIgnore "/actions/Catalog.action?categoryId=FISH" else ret tt) ;;
  awaitNavigation 8000 ;;
  sleep 1000.

Definition textOf (n : Node) : string :=
  match textContent n with Some t => t | None => EmptyString end.

Definition clickProduct (d : Dom) : bool * list effect :=
  let el :=
    match querySelector d (dq "a[href*='Product.action']") with
    | Some n => Some n
    | None => querySelector d (dq "a[href*='ViewItem']")
    end in
  match el with
  | Some n => (true, [Click n])
  | None =>
      match find (fun a => (includes (textOf a) "Product" ||
                             includes (textOf a) "Item" ||
                             includes (textOf a) "View")%bool)
                 (querySelectorAll d "a") with
      | Some a => (true, [Click a])
      | None => (false, [])
      end
  end.

Definition productAction : promise unit :=
  clicked <- evaluate clickProduct ;;
  (if negb clicked
   then (el <- perform (Query "a") ;;
         match el with
         | Some n => perform (HandleClick n 1)
         | None => ret tt
         end)
   else ret tt) ;;
  awaitNavigation 8000 ;;
  sleep 1000.

Definition clickAddButton (d : Dom) : unit * list effect :=
  let btn :=
    match querySelector d (dq "input[type='submit'][value*='Add']") with
    | Some n => Some n
    | None => querySelector d "button"
    end in
  match btn with
  | Some n => (tt, [Click n])
  | None => (tt, [])
  end.

Definition addToCartAction : promise unit :=
  added <- clickByText "button,input, a" "Add to Cart" ;;
  (if negb added then evaluate clickAddButton else ret tt) ;;
  awaitNavigation 8000 ;;
  sleep 1000.

Definition viewCartAction : promise unit :=
  a <- clickByText "a,button" "Cart" ;;
  b <- or_start (Awaited a) (clickByText "a,button" "View Cart") ;;
  clicked <- or_start b (clickByText "a,button" "My Cart") ;;
  (if negb (holds clicked) then gotoOrIgnore "/actions/Cart.action" else ret tt) ;;
  awaitNavigation 8000 ;;
  sleep 1000.

(** [n.textContent || n.value || ''] *)
Definition labelOf (n : Node) : string :=
  match textContent n with
  | Some (String c t) => String c t
  | _ => match node_value n with Some v => v | None => EmptyString end
  end.

Definition clickCheckout (d : Dom) : unit * list effect :=
  match find (fun n => let l := toLowerCase (labelOf n) in
                       (includes l "proceed" || includes l "checkout" ||
                        includes l "confirm")%bool)
             (querySelectorAll d "button,input") with
  | Some btn => (tt, [Click btn])
  | None => (tt, [])
  end.

Definition checkoutAction : promise unit :=
  a <- clickByText "a,button" "Proceed to Checkout" ;;
  clicked <- or_start (Awaited a) (clickByText "a,button" "Proceed") ;;
  (if negb (holds clicked) then evaluate clickCheckout else ret tt) ;;
  awaitNavigation 8000 ;;
  sleep 1000.

Definition logoutAction : promise unit :=
  a <- clickByText "a,button" "Sign Out" ;;
  clicked <- or_start (Awaited a) (clickByText "a,button" "Logout") ;;
  (if negb (holds clicked)
   then gotoOrIgnore "/actions/Account.action?signoff=" else ret tt) ;;
  awaitNavigation 8000 ;;
  sleep 1000.

(** ** The runner *)

Record Entry : Type := {
  step : string;
  trace : Trace
}.

(** The fixed scenario: the step names pushed on the report, in order. *)
Definition stepNames : list string :=
  ["home"; "sign_in"; "login"; "fish"; "product"; "add_to_cart";
   "view_cart"; "checkout"; "logout"].

Definition nl : string := String (ascii_of_nat 10) EmptyString.

Definition collate (report : list Entry) : string :=
  fold_left
    (fun final r =>
       final ++ "=== Step: " ++ step r ++ " ===" ++ nl ++
       "Trace file: " ++ file (trace r) ++ nl ++
       summary (trace r) ++ nl ++ nl)
    report ("Performance test report for " ++ BASE ++ nl ++ nl).

(** The body of [run] between [try] and [finally]: step after step,
    each awaited before the next starts. *)
Definition steps : promise (list Entry) :=
  perform NewPage ;;
  let report := [] in
  home <- recordTraceAround "home" homeAction defaults ;;
  let report := (report ++ [{| step := "home"; trace := home |}])%list in
  signIn <- recordTraceAround "sign_in" signInAction defaults ;;
  let report := (report ++ [{| step := "sign_in"; trace := signIn |}])%list in
  login <- recordTraceAround "login" loginAction defaults ;;
  let report := (report ++ [{| step := "login"; trace := login |}])%list in
  fish <- recordTraceAround "fish_category" fishAction defaults ;;
  let report := (report ++ [{| step := "fish"; trace := fish |}])%list in
  product <- recordTraceAround "product_click" productAction defaults ;;
  let report := (report ++ [{| step := "product"; trace := product |}])%list in
  addToCart <- recordTraceAround "add_to_cart" addToCartAction defaults ;;
  let report := (report ++ [{| step := "add_to_cart"; trace := addToCart |}])%list in
  viewCart <- recordTraceAround "view_cart" viewCartAction defaults ;;
  let report := (report ++ [{| step := "view_cart"; trace := viewCart |}])%list in
  checkout <- recordTraceAround "proceed_to_checkout" checkoutAction defaults ;;
  let report := (report ++ [{| step := "checkout"; trace := checkout |}])%list in
  logout <- recordTraceAround "logout" logoutAction defaults ;;
  let report := (report ++ [{| step := "logout"; trace := logout |}])%list in
  t <- now ;;
  save ("final-report-" ++ nat_digits t ++ ".txt") (collate report) ;;
  ret report.

Definition run : promise (list Entry) :=
  ensureOut ;;
  perform Launch ;;
  finally steps (ignore_errors (perform BrowserClose)).

(** [run().catch(err => process.exit(1))]: the exit code of the
    process. *)
Definition exitCode (env : Browser) : nat :=
  match fst (run env start) with
  | Ok _ => 0
  | Throw _ => 1
  end.

End Script.

End FullScenario.

(* ================================================================== *)
(** * enhanced_perf_test.mjs *)
(* ================================================================== *)

Module EnhancedPerf.

Import JS Driver.
Local Open Scope string_scope.
Local Open Scope promise_scope.

Section Script.

Variable BASE : string.
Variable OUT_DIR : string.

Definition categories : list string :=
  ["-*"; "disabled-by-default-devtools.timeline";
   "disabled-by-default-devtools.timeline.frame"; "devtools.timeline";
   "blink.user_timing"; "loading"; "latencyInfo";
   "disabled-by-default-lighthouse"; "v8.execute";
   "disabled-by-default-v8.cpu_profiler";
   "disabled-by-default-v8.cpu_profiler.hires"].

Definition properties (v : value) : list (string * value) :=
  match v with VObj props => props | _ => [] end.

(** The in-page snapshot (navigation timing, [window.__LCP],
    [window.__CLS], ...), then the metrics of the browser itself. *)
Definition getPerformanceMetrics : promise value :=
  metrics <- perform Snapshot ;;
  chromeMetrics <- perform PageMetrics ;;
  ret (VObj (properties metrics ++ [("chromeMetrics", chromeMetrics)])).

Record Options : Type := { reload : bool; autoStop : bool }.

Definition defaults : Options := {| reload := true; autoStop := true |}.

Record Trace : Type := {
  path : string;
  metricsPath : string;
  metrics : value
}.

Definition recordTraceAround (name : string) (actionFn : promise unit)
  (opts : Options) : promise Trace :=
  let outPath := OUT_DIR ++ "/" ++ name ++ ".trace.json" in
  let metricsPath := OUT_DIR ++ "/" ++ name ++ ".metrics.json" in
  (if reload opts
   then ignore_errors (perform (Goto "about:blank" ["networkidle0"]))
   else ret tt) ;;
  perform (TracingStart categories) ;;
  actionFn ;;
  sleep 2500 ;;
  metrics <- getPerformanceMetrics ;;
  perform (WriteJson metricsPath metrics) ;;
  buffer <- perform TracingStop ;;
  perform (WriteFile outPath buffer) ;;
  ret {| path := outPath; metricsPath := metricsPath; metrics := metrics |}.

Definition ensureOut : promise unit := perform (Mkdir OUT_DIR).

(** ** The actions of the nine steps; [o] is the origin and [href]
       the text of the parsed [BASE] *)

Definition waitForLoad : promise unit := perform (WaitForNavigation None).

(** [page.goto(BASE.href, ...)], [BASE] the parsed base. *)
Definition homeAction (href : string) : promise unit :=
  perform (Goto href ["load"; "networkidle0"]) ;;
  sleep 1000.

(** [try { await Promise.race([page.click(sel), page.goto(url)]); await sleep(1000) }
     catch (e) { await page.goto(url); await sleep(1000) }] *)
Definition clickOrGoto (selector url : string) : promise unit :=
  catch
    (Promise_race (perform (PageClick selector)) (perform (Goto url [])) ;;
     sleep 1000)
    (fun _ => perform (Goto url []) ;; sleep 1000).

Definition signInAction (o : string) : promise unit :=
  clickOrGoto (dq "a:has-text('Sign In')") (o ++ "/actions/Account.action?signonForm=").

Definition loginAction : promise unit :=
  catch
    (perform (PageType (dq "input[name='username']") "j2ee") ;;
     perform (PageType (dq "input[name='password']") "j2ee") ;;
     Promise_all waitForLoad (perform (PageClick (dq "input[type='submit']"))) ;;
     sleep 1000)
    (fun _ => ret tt).

Definition fishAction (o : string) : promise unit :=
  clickOrGoto (dq "a:has-text('Fish')") (o ++ "/actions/Catalog.action?categoryId=FISH").

Definition productAction : promise unit :=
  catch
    (productLink <- perform (Query (dq "a[href*='Product.action']")) ;;
     match productLink with
     | Some n => Promise_all waitForLoad (perform (HandleClick n 1)) ;; ret tt
     | None => ret tt
     end ;;
     sleep 1000)
    (fun _ => ret tt).

(** [try { await Promise.all([page.waitForNavigation(...), page.click(sel)]);
          await sleep(1000) } catch (e) { h }] *)
Definition clickAndWait (selector : string) (h : promise unit) : promise unit :=
  catch
    (Promise_all waitForLoad (perform (PageClick selector)) ;;
     sleep 1000)
    (fun _ => h).

Definition addToCartAction : promise unit :=
  clickAndWait (dq "a:has-text('Add to Cart')") (ret tt).

Definition viewCartAction (o : string) : promise unit :=
  clickAndWait (dq "a:has-text('Cart')")
    (perform (Goto (o ++ "/actions/Cart.action") []) ;; sleep 1000).

Definition checkoutAction : promise unit :=
  clickAndWait (dq "a:has-text('Proceed to Checkout')") (ret tt).

Definition logoutAction (o : string) : promise unit :=
  clickAndWait (dq "a:has-text('Sign Out')")
    (perform (Goto (o ++ "/actions/Account.action?signoff=") []) ;; sleep 1000).

(** ** The runner *)

Record Entry : Type := {
  step : string;
  trace : Trace
}.

Definition stepNames : list string :=
  ["homepage"; "sign_in"; "login"; "fish"; "product"; "add_to_cart";
   "view_cart"; "checkout"; "logout"].

Definition entryValue (e : Entry) : value :=
  VObj [("step", VStr (step e));
        ("path", VStr (path (trace e)));
        ("metricsPath", VStr (metricsPath (trace e)));
        ("metrics", metrics (trace e))].

(** The body of the [try] block of [main]. *)
Definition scenario : promise (list Entry) :=
  ensureOut ;;
  perform Launch ;;
  perform NewPage ;;
  perform SetViewport ;;
  perform EvaluateOnNewDocument ;;
  let report := [] in
  parsed <- lift (URL BASE) ;;
  let '(o, href) := parsed in
  home <- recordTraceAround "homepage" (homeAction href)
            {| reload := true; autoStop := false |} ;;
  let report := (report ++ [{| step := "homepage"; trace := home |}])%list in
  signIn <- recordTraceAround "sign_in" (signInAction o) defaults ;;
  let report := (report ++ [{| step := "sign_in"; trace := signIn |}])%list in
  login <- recordTraceAround "login" loginAction defaults ;;
  let report := (report ++ [{| step := "login"; trace := login |}])%list in
  fish <- recordTraceAround "fish_category" (fishAction o) defaults ;;
  let report := (report ++ [{| step := "fish"; trace := fish |}])%list in
  product <- recordTraceAround "product_details" productAction defaults ;;
  let report := (report ++ [{| step := "product"; trace := product |}])%list in
  addToCart <- recordTraceAround "add_to_cart" addToCartAction defaults ;;
  let report := (report ++ [{| step := "add_to_cart"; trace := addToCart |}])%list in
  viewCart <- recordTraceAround "view_cart" (viewCartAction o) defaults ;;
  let report := (report ++ [{| step := "view_cart"; trace := viewCart |}])%list in
  checkout <- recordTraceAround "checkout" checkoutAction defaults ;;
  let report := (report ++ [{| step := "checkout"; trace := checkout |}])%list in
  logout <- recordTraceAround "logout" (logoutAction o) defaults ;;
  let report := (report ++ [{| step := "logout"; trace := logout |}])%list in
  perform (WriteJson (OUT_DIR ++ "/report.json") (VArr (map entryValue report))) ;;
  perform BrowserClose ;;
  ret report.



End Script.

End EnhancedPerf.

(* ================================================================== *)
(** * detailed-perf-analysis.mjs *)
(* ================================================================== *)

Module DetailedPerf.

Local Open Scope string_scope.

(** ** The network request tracker *)

Module Tracker.

(** An entry of [networkRequests]; [None] is a property that has not
    been set. *)
Record Request : Type := {
  requestId : string;
  url : string;
  method : string;
  resourceType : option string;
  timestamp : Q;
  initiator : string;
  status : option Z;
  mimeType : option string;
  headers : option (list (string * string));
  responseTime : option Q;
  fromCache : option bool;
  encodedDataLength : option Q;
  finishTime : option Q;
  failed : bool;
  errorText : option string
}.

(** The parameters of the events of the Network domain the script
    listens to. *)
Inductive NetworkEvent : Type :=
| requestWillBeSent (id address verb : string) (type : option string)
    (time : Q) (initiatorType : option string)
| responseReceived (id : string) (code : Z) (mime : string)
    (responseHeaders : list (string * string)) (time : Q)
    (fromDiskCache fromServiceWorker : option bool)
| loadingFinished (id : string) (length : Q) (time : Q)
| loadingFailed (id : string) (reason : string).

(** [params.initiator?.type || 'unknown']. *)
Definition initiatorOf (initiatorType : option string) : string :=
  match initiatorType with
  | Some (String c s) => String c s
  | _ => "unknown"
  end.

(** [a || b] on two flags that may be missing. *)
Definition either (a b : option bool) : option bool :=
  match a with
  | Some true => Some true
  | _ => b
  end.

(** [const request = networkRequests.find(r => r.requestId === id);
     if (request) { ... }]: the first entry with that id is updated in
    place. *)
Fixpoint update (id : string) (f : Request -> Request) (requests : list Request)
  : list Request :=
  match requests with
  | [] => []
  | r :: rest =>
      if String.eqb (requestId r) id then f r :: rest
      else r :: update id f rest
  end.

Definition handle (requests : list Request) (e : NetworkEvent) : list Request :=
  match e with
  | requestWillBeSent id address verb type time initiatorType =>
      (requests ++
       [{| requestId := id; url := address; method := verb;
           resourceType := type; timestamp := time;
           initiator := initiatorOf initiatorType;
           status := None; mimeType := None; headers := None;
           responseTime := None; fromCache := None;
           encodedDataLength := None; finishTime := None;
           failed := false; errorText := None |}])%list
  | responseReceived id code mime responseHeaders time fromDiskCache fromServiceWorker =>
      update id
        (fun r =>
           {| requestId := requestId r; url := url r; method := method r;
              resourceType := resourceType r; timestamp := timestamp r;
              initiator := initiator r;
              status := Some code; mimeType := Some mime;
              headers := Some responseHeaders;
              responseTime := Some time;
              fromCache := either fromDiskCache fromServiceWorker;
              encodedDataLength := encodedDataLength r; finishTime := finishTime r;
              failed := failed r; errorText := errorText r |})
        requests
  | loadingFinished id length time =>
      update id
        (fun r =>
           {| requestId := requestId r; url := url r; method := method r;
              resourceType := resourceType r; timestamp := timestamp r;
              initiator := initiator r;
              status := status r; mimeType := mimeType r; headers := headers r;
              responseTime := responseTime r; fromCache := fromCache r;
              encodedDataLength := Some length; finishTime := Some time;
              failed := failed r; errorText := errorText r |})
        requests
  | loadingFailed id reason =>
      update id
        (fun r =>
           {| requestId := requestId r; url := url r; method := method r;
              resourceType := resourceType r; timestamp := timestamp r;
              initiator := initiator r;
              status := status r; mimeType := mimeType r; headers := headers r;
              responseTime := responseTime r; fromCache := fromCache r;
              encodedDataLength := encodedDataLength r; finishTime := finishTime r;
              failed := true; errorText := Some reason |})
        requests
  end.

(** [networkRequests] after the events of a page load, in the order
    the browser sent them. *)
Definition track (events : list NetworkEvent) : list Request :=
  fold_left handle events [].

End Tracker.

(** ** Page timings *)

Module Timing.

(** The fields of [performance.timing] that [calculateTimings] reads
    (milliseconds since the epoch, 0 for an instant that has not
    happened). *)
Record NavigationTiming : Type := {
  navigationStart : Q;
  redirectStart : Q;
  redirectEnd : Q;
  domainLookupStart : Q;
  domainLookupEnd : Q;
  connectStart : Q;
  connectEnd : Q;
  requestStart : Q;
  responseStart : Q;
  responseEnd : Q;
  domLoading : Q;
  domComplete : Q;
  domContentLoadedEventStart : Q;
  loadEventStart : Q;
  loadEventEnd : Q
}.

Record Timings : Type := {
  redirectTime : Q;
  dnsTime : Q;
  tcpTime : Q;
  requestTime : Q;
  responseTime : Q;
  domProcessingTime : Q;
  domContentLoadedTime : Q;
  loadTime : Q;
  totalTime : Q
}.

Definition calculateTimings (timing : NavigationTiming) : Timings :=
  let base := navigationStart timing in
  {| redirectTime := (redirectEnd timing - redirectStart timing)%Q;
     dnsTime := (domainLookupEnd timing - domainLookupStart timing)%Q;
     tcpTime := (connectEnd timing - connectStart timing)%Q;
     requestTime := (responseStart timing - requestStart timing)%Q;
     responseTime := (responseEnd timing - responseStart timing)%Q;
     domProcessingTime := (domComplete timing - domLoading timing)%Q;
     domContentLoadedTime := (domContentLoadedEventStart timing - base)%Q;
     loadTime := (loadEventStart timing - base)%Q;
     totalTime := (loadEventEnd timing - base)%Q |}.

End Timing.

(** ** Network statistics *)

Import Tracker.

Record Stat : Type := { count : nat; size : Q }.

(** [r.encodedDataLength || 0]. *)
Definition transferred (r : Request) : Q :=
  match encodedDataLength r with
  | Some q => if Qeq_bool q 0 then 0%Q else q
  | None => 0%Q
  end.

(** [req.resourceType || 'other']. *)
Definition typeOf (r : Request) : string :=
  match resourceType r with
  | Some (String c s) => String c s
  | _ => "other"
  end.

(** The keys every object inherits from [Object.prototype]: reading
    one of them from an object literal gives a function (or the
    prototype itself), which is truthy. *)
Definition inherited (key : string) : bool :=
  existsb (String.eqb key)
    ["constructor"; "__defineGetter__"; "__defineSetter__"; "hasOwnProperty";
     "__lookupGetter__"; "__lookupSetter__"; "isPrototypeOf";
     "propertyIsEnumerable"; "toString"; "valueOf"; "__proto__"; "toLocaleString"].

(** The own properties of a breakdown object, in the order of their
    creation. *)
Definition Breakdown : Type := list (string * Stat).

Fixpoint bump (key : string) (bytes : Q) (groups : Breakdown) : Breakdown :=
  match groups with
  | [] => [(key, {| count := 1; size := (0 + bytes)%Q |})]
  | (k, s) :: rest =>
      if String.eqb k key
      then (k, {| count := S (count s); size := (size s + bytes)%Q |}) :: rest
      else (k, s) :: bump key bytes rest
  end.

(** [if (!groups[key]) groups[key] = { count: 0, size: 0 };
     groups[key].count++; groups[key].size += bytes]: under an
    inherited key the counters are those of the inherited value, and
    the breakdown gets no property. *)
Definition tally (key : string) (bytes : Q) (groups : Breakdown) : Breakdown :=
  if inherited key then groups else bump key bytes groups.

(** [groups[key]], for a key that is not inherited. *)
Fixpoint group (key : string) (groups : Breakdown) : option Stat :=
  match groups with
  | [] => None
  | (k, s) :: rest => if String.eqb k key then Some s else group key rest
  end.

Record NetworkStats : Type := {
  totalRequests : nat;
  failedRequests : nat;
  cachedRequests : nat;
  totalTransferSize : Q;
  requestsByType : Breakdown;
  requestsByDomain : Breakdown
}.

Section Statistics.

(** [new URL(url).hostname]; [None] when the address is not a valid
    URL and the constructor throws. *)
Variable hostname : string -> option string.

(** The body of [networkRequests.forEach]. *)
Definition classify (groups : Breakdown * Breakdown) (req : Request)
  : Breakdown * Breakdown :=
  let '(byType, byDomain) := groups in
  (tally (typeOf req) (transferred req) byType,
   match hostname (url req) with
   | Some domain => tally domain (transferred req) byDomain
   | None => byDomain
   end).

Definition networkStats (networkRequests : list Request) : NetworkStats :=
  let groups := fold_left classify networkRequests ([], []) in
  {| totalRequests := List.length networkRequests;
     failedRequests := List.length (filter failed networkRequests);
     cachedRequests :=
       List.length (filter (fun r => match fromCache r with
                                     | Some true => true
                                     | _ => false
                                     end) networkRequests);
     totalTransferSize :=
       fold_left (fun sum r => (sum + transferred r)%Q) networkRequests 0%Q;
     requestsByType := fst groups;
     requestsByDomain := snd groups |}.

End Statistics.

(** ** Recommendations *)

(** A recommendation, with the figure its text quotes. *)
Inductive Recommendation : Type :=
| HighRequestCount (requests : nat)
| LargeTransferSize (bytes : Q)
| SlowDomContentLoaded (ms : Q)
| SlowLoad (ms : Q)
| FailedRequests (requests : nat)
| LargeImagePayload (bytes : Q)
| LargeScriptPayload (bytes : Q).

(** [a > b]. *)
Definition exceeds (a b : Q) : bool := negb (Qle_bool a b).

(** [(groups[key] || { size: 0 }).size]. *)
Definition sizeOf (key : string) (groups : Breakdown) : Q :=
  match group key groups with
  | Some s => size s
  | None => 0%Q
  end.

Definition recommendations (stats : NetworkStats) (timings : Timing.Timings)
  : list Recommendation :=
  ((if (50 <? totalRequests stats)%nat
    then [HighRequestCount (totalRequests stats)] else []) ++
   (if exceeds (totalTransferSize stats) (2 * 1024 * 1024)
    then [LargeTransferSize (totalTransferSize stats)] else []) ++
   (if exceeds (Timing.domContentLoadedTime timings) 1500
    then [SlowDomContentLoaded (Timing.domContentLoadedTime timings)] else []) ++
   (if exceeds (Timing.loadTime timings) 3000
    then [SlowLoad (Timing.loadTime timings)] else []) ++
   (if (0 <? failedRequests stats)%nat
    then [FailedRequests (failedRequests stats)] else []) ++
   (let imageSize := sizeOf "Image" (requestsByType stats) in
    if exceeds imageSize (1024 * 1024) then [LargeImagePayload imageSize] else []) ++
   (let scriptSize := sizeOf "Script" (requestsByType stats) in
    if exceeds scriptSize (500 * 1024) then [LargeScriptPayload scriptSize] else []))%list.

End DetailedPerf.

(* ================================================================== *)
(** * The other sections of the reports *)
(* ================================================================== *)

(** ** generate_mcp_report.mjs: the detailed analysis and the summary *)

Module McpReport.

Import JS.
Local Open Scope string_scope.
Local Open Scope js_scope.

Definition upper_char (c : ascii) : ascii :=
  let n := nat_of_ascii c in
  if ((97 <=? n)%nat && (n <=? 122)%nat)%bool then ascii_of_nat (n - 32) else c.

(** [v.toUpperCase()] (ASCII letters), on a value that has to be a
    string. *)
Definition call_toUpperCase (v : value) : Result string :=
  match v with
  | VStr s => Ok (text (map upper_char (chars s)))
  | VUndef | VNull => Throw (TypeError ("Cannot read properties of " ++ ToString v))
  | _ => Throw (TypeError "toUpperCase is not a function")
  end.

(** [test ? warn : '✅ GOOD']. *)
Definition verdict (test : bool) (warn : string) : string :=
  if test then warn else "✅ GOOD".

(** The section of a step: its heading, the lines of its Core Web
    Vitals, and the headings of the insights that follow (the fixed
    advice under each heading is left out). *)
Record Detail : Type := {
  heading : string;
  vitals : list string;
  insights : list string
}.

Definition detailSection (entry : value) : Result Detail :=
  step <- get entry "step" ;;
  title <- call_toUpperCase step ;;
  m <- get entry "metrics" ;;
  let metrics := js_or (opt_get (opt_get m "result") "payload") (VObj []) in
  lcp <- get metrics "LargestContentfulPaint" ;;
  cls <- get metrics "CumulativeLayoutShift" ;;
  inp <- get metrics "InteractionToNextPaint" ;;
  ttfb <- get metrics "TimeToFirstByte" ;;
  tbt <- get metrics "TotalBlockingTime" ;;
  Ok {| heading := "### " ++ title;
        vitals :=
          ["- **LCP (Largest Contentful Paint):** " ++ ToString lcp ++ "ms " ++
             verdict (js_gt lcp (Report.Num 2500)) "⚠️ NEEDS IMPROVEMENT";
           "- **CLS (Cumulative Layout Shift):** " ++ ToString cls ++ " " ++
             verdict (js_gt cls (VNum (Fin (1 # 10)))) "⚠️ NEEDS IMPROVEMENT";
           "- **INP (Interaction to Next Paint):** " ++ ToString inp ++ "ms";
           "- **TTFB (Time to First Byte):** " ++ ToString ttfb ++ "ms " ++
             verdict (js_gt ttfb (Report.Num 600)) "⚠️ SLOW";
           "- **TBT (Total Blocking Time):** " ++ ToString tbt ++ "ms " ++
             verdict (js_gt tbt (Report.Num 200)) "⚠️ HIGH"];
        insights :=
          ((if js_gt lcp (Report.Num 2500) then ["**⚠️ High LCP Detected**"] else []) ++
           (if js_gt cls (VNum (Fin (1 # 10))) then ["**⚠️ High CLS Detected**"] else []) ++
           (if js_gt tbt (Report.Num 200) then ["**⚠️ High Total Blocking Time**"] else []) ++
           (if js_gt ttfb (Report.Num 600) then ["**⚠️ Slow Time to First Byte**"] else []))%list
     |}.

Fixpoint Array_some (p : value -> Result bool) (l : list value) : Result bool :=
  match l with
  | [] => Ok false
  | x :: r =>
      match p x with
      | Ok true => Ok true
      | Ok false => Array_some p r
      | Throw e => Throw e
      end
  end.

Fixpoint Array_every (p : value -> Result bool) (l : list value) : Result bool :=
  match l with
  | [] => Ok true
  | x :: r =>
      match p x with
      | Ok true => Array_every p r
      | Ok false => Ok false
      | Throw e => Throw e
      end
  end.

(** [e.metrics?.result?.payload?.<signal> || 0]. *)
Definition signalOrZero (signal : string) (e : value) : Result value :=
  m <- get e "metrics" ;;
  Ok (js_or (opt_get (opt_get (opt_get m "result") "payload") signal) (Report.Num 0)).

(** The choices of the Recommendations Summary and of the Conclusion:
    whether the LCP and the CLS items ask for a fix, and whether the
    conclusion reads [good]. *)
Record Summary : Type := {
  lcpCritical : bool;
  clsCritical : bool;
  good : bool
}.

Definition summarize (reportData : value) : Result Summary :=
  l1 <- as_array reportData "some" ;;
  lcp <- Array_some
           (fun e => v <- signalOrZero "LargestContentfulPaint" e ;;
                     Ok (js_gt v (Report.Num 2500))) l1 ;;
  l2 <- as_array reportData "some" ;;
  cls <- Array_some
           (fun e => v <- signalOrZero "CumulativeLayoutShift" e ;;
                     Ok (js_gt v (VNum (Fin (1 # 10))))) l2 ;;
  l3 <- as_array reportData "every" ;;
  isGood <- Array_every
              (fun e => v <- signalOrZero "LargestContentfulPaint" e ;;
                        Ok (js_lt v (Report.Num 2500))) l3 ;;
  Ok {| lcpCritical := lcp; clsCritical := cls; good := isGood |}.

(** [for (const entry of entries) { ... }], collecting what each
    iteration appends. *)
Fixpoint each {A} (f : value -> Result A) (entries : list value) : Result (list A) :=
  match entries with
  | [] => Ok []
  | entry :: rest =>
      a <- f entry ;;
      more <- each f rest ;;
      Ok (a :: more)
  end.

Record ComprehensiveReport : Type := {
  table : list Report.Row;
  details : list Detail;
  summary : Summary
}.

Definition generateComprehensiveReport (fs : Report.FS) (reportPath : string)
  : Result ComprehensiveReport :=
  content <- fs reportPath ;;
  reportData <- JSON_parse content ;;
  entries <- iterate reportData ;;
  rows <- each Report.metricsRow entries ;;
  sections <- each detailSection entries ;;
  s <- summarize reportData ;;
  Ok {| table := rows; details := sections; summary := s |}.

End McpReport.

(** ** generate_enhanced_report.mjs: a row of the metrics table *)

Module EnhancedReport.

Import JS.
Local Open Scope string_scope.
Local Open Scope js_scope.

(** The value of each cell before [.toString()]. *)
Definition lcpCell (metrics : value) : value :=
  js_or (opt_get (opt_get metrics "lcp") "duration") (VStr "N/A").

Definition clsCell (metrics : value) : value :=
  js_or (opt_get metrics "cls") (VStr "N/A").

Definition inpCell (metrics : value) : value :=
  js_or (opt_get metrics "inp") (VStr "N/A").

Definition ttfbCell (metrics : value) : value :=
  let nt := opt_get metrics "navigationTiming" in
  js_or (js_sub (opt_get nt "responseStart") (opt_get nt "requestStart")) (VStr "N/A").

Definition tbtCell (metrics : value) : Result value :=
  let lt := opt_get metrics "longTasks" in
  if nullish lt then Ok (VStr "N/A")
  else (tasks <- as_array lt "reduce" ;;
        tbt <- Report.blockingTime tasks ;;
        Ok (js_or tbt (VStr "N/A"))).

Record Cells : Type := {
  cell_step : value;
  cell_lcp : string;
  cell_cls : string;
  cell_inp : string;
  cell_ttfb : string;
  cell_tbt : string
}.

Definition tableRow (analysis : value) : Result Cells :=
  step <- get analysis "step" ;;
  metrics <- get analysis "metrics" ;;
  tbt <- tbtCell metrics ;;
  Ok {| cell_step := step;
        cell_lcp := ToString (lcpCell metrics);
        cell_cls := ToString (clsCell metrics);
        cell_inp := ToString (inpCell metrics);
        cell_ttfb := ToString (ttfbCell metrics);
        cell_tbt := ToString tbt |}.

End EnhancedReport.

(** ** enhanced_perf_test.mjs, [generateHtmlReport] *)

Module HtmlReport.

Import JS.
Local Open Scope string_scope.
Local Open Scope js_scope.


End HtmlReport.

(** ** The Word report of the trace files *)

Module WordReport.

Import JS.
Local Open Scope string_scope.
Local Open Scope js_scope.

Section Charts.

(** [createPerformanceChart] and [createNetworkChart] draw on a canvas
    and write an image; what they do is left to the environment: the
    path of the image, or an error. *)
Variable createPerformanceChart : list Report.TraceMetrics -> list value -> Result string.
Variable createNetworkChart : list Report.TraceMetrics -> list value -> Result string.

(** [parseTraceMetrics(entry.path)]: the path reaches [fs.readFile]
    as it is. *)
Definition parseTraceMetrics (fs : Report.FS) (tracePath : value)
  : Result Report.TraceMetrics :=
  match tracePath with
  | VStr p => Report.parseTraceMetrics fs p
  | _ => Throw (Report.invalidPath tracePath)
  end.

(** The loop over the entries: the steps and their metrics. *)
Fixpoint collect (fs : Report.FS) (entries : list value)
  : Result (list value * list Report.TraceMetrics) :=
  match entries with
  | [] => Ok ([], [])
  | entry :: rest =>
      step <- get entry "step" ;;
      tracePath <- get entry "path" ;;
      traceMetrics <- parseTraceMetrics fs tracePath ;;
      more <- collect fs rest ;;
      Ok (step :: fst more, traceMetrics :: snd more)
  end.

(** [generateReport]: after the charts,
    [const doc = new Document({ ... await Media.addImage(doc, ...) ... })]
    reads [doc] inside its own initialiser, before the file of the
    first chart is read; the table, the document and the removal of
    the images are never reached. *)
Definition generateReport (fs : Report.FS) (reportPath : string) : Result unit :=
  content <- fs reportPath ;;
  reportData <- JSON_parse content ;;
  entries <- iterate reportData ;;
  collected <- collect fs entries ;;
  let '(steps, metrics) := collected in
  perfChartPath <- createPerformanceChart metrics steps ;;
  networkChartPath <- createNetworkChart metrics steps ;;
  Throw (ReferenceError "Cannot access 'doc' before initialization").

End Charts.

End WordReport.

(* ================================================================== *)
(** * Statements: the quantities, hypotheses and scripted runs the
      properties below are stated with *)
(* ================================================================== *)

Import JS.
Import Observer.
Import Driver.
Local Open Scope string_scope.
Unset Implicit Arguments.

(** The blocking part of a task of [d] ms, and the sum over a list of
    durations, as the documentation words them. *)
Definition blockingPortion (d : Q) : Q := Qmax 0 (d - 50).

Definition blockingSum (ds : list Q) : Q :=
  fold_right (fun d acc => (blockingPortion d + acc)%Q) 0%Q ds.

(** A long task entry whose [duration] is the number [d]. *)
Definition lasts (task : value) (d : Q) : Prop :=
  nullish task = false /\ own task "duration" = VNum (Fin d).

(** The same quantities in the arithmetic of the engine: the blocking
    part of a task is the binary64 difference when it is positive, and
    the sum adds the parts one after the other, from zero, each partial
    sum a binary64 value. *)
Definition blockingPortion64 (d : Q) : num :=
  Math_max (Fin 0%Q) (Binary64.sub (Fin d) (Fin 50%Q)).

Definition blockingSum64 (ds : list Q) : num :=
  fold_left (fun sum d => Binary64.add sum (blockingPortion64 d)) ds (Fin 0%Q).

(** The sum of the blocking parts of durations that are whole numbers
    of milliseconds. *)
Definition blockingSumZ (zs : list Z) : Z :=
  fold_right (fun z acc => (Z.max 0 (z - 50) + acc)%Z) 0%Z zs.

(** Long tasks of 50.4, 128.3 and 171.3 ms. *)
Definition decimal_durations : list Q := [(504 # 10)%Q; (1283 # 10)%Q; (1713 # 10)%Q].

Definition decimal_tasks : list value :=
  map (fun d => VObj [("duration", VNum (Fin d))]) decimal_durations.


(** The payload a row of the Core Web Vitals table reads. *)
Definition payload (entry : value) : value :=
  js_or (opt_get (opt_get (own entry "metrics") "result") "payload") (VObj []).

Definition absent (v : value) (k : string) : Prop := nullish (own v k) = true.

(** How a report marks a value it does not have. *)
Definition marked_absent (v : value) : bool :=
  match v with
  | VNull => true
  | VStr s => String.eqb s "N/A"
  | _ => false
  end.

Definition entry_without_metrics : value := VObj [("step", VStr "home")].

Definition present (v : value) : Prop := nullish v = false.


(** The last element of a list. *)
Fixpoint final {A} (l : list A) : option A :=
  match l with
  | [] => None
  | x :: r => match final r with Some y => Some y | None => Some x end
  end.

Definition smaller (a b : LcpCandidate) : Prop := (lcp_size a < lcp_size b)%N.

Definition candidate (t : Q) (size : N) : LcpCandidate :=
  {| lcp_startTime := t; lcp_size := size |}.

(** A heading painted at 300 ms, a hero image at 900 ms, and a larger
    banner at 4000 ms, after the page was sampled at 3500 ms. *)
Definition lcp_timeline : list (N * batch) :=
  [(310%N, LcpBatch [candidate 300 1200]);
   (400%N, ShiftBatch [{| hadRecentInput := false; shift_value := 1 # 20 |}]);
   (950%N, LcpBatch [candidate 900 48000]);
   (4010%N, LcpBatch [candidate 4000 90000])].

Definition shift (flagged : bool) (score : Q) : LayoutShift :=
  {| hadRecentInput := flagged; shift_value := score |}.

(** Two batches of shifts around an empty LCP batch; the shift of 0.5
    follows a click. *)
Definition shift_batches : list batch :=
  [ShiftBatch [shift false (1 # 20); shift true (1 # 2)];
   LcpBatch [];
   ShiftBatch [shift false (1 # 10)]].

(** An operation the environment never rejects. *)
Definition always (env : Browser) {R} (c : call R) : Prop :=
  forall n, exists r, fst (env R c n) = Ok r.

(** A promise that resolves from every world. *)
Definition total (env : Browser) {A} (p : promise A) : Prop :=
  forall w, exists a w', p env w = (Ok a, w').

(** A promise that, started at or after [t], finishes at or after [t]
    and only adds events that finish at or after [t]. *)
Definition after (t : N) {A} (p : promise A) : Prop :=
  forall env w r w',
    p env w = (r, w') ->
    (t <= clock w)%N ->
    (t <= clock w')%N
    /\ exists evs, log w' = (log w ++ evs)%list
                   /\ Forall (fun e => (t <= finished_at e)%N) evs.

(** The transaction before its action (reset of the page, start of the
    trace) and after it, in each script. *)
Definition full_open (opts : FullScenario.Options) : promise unit :=
  bind (if FullScenario.reload opts
        then ignore_errors (perform (Goto "about:blank" ["networkidle0"]))
        else ret tt)
       (fun _ => perform (TracingStart FullScenario.categories)).

Definition full_close (OUT_DIR name : string) : promise FullScenario.Trace :=
  bind (sleep 2500) (fun _ =>
  bind (perform TracingStop) (fun buffer =>
  bind (perform (ParseRawTraceBuffer buffer)) (fun parsed =>
  bind (FullScenario.summarize parsed) (fun summary =>
  bind FullScenario.now (fun t =>
  bind (FullScenario.save OUT_DIR
          (nat_digits t ++ "-" ++ text (replace_spaces (chars name) false) ++ ".txt")
          summary) (fun file =>
  ret {| FullScenario.parsed := parsed;
         FullScenario.summary := summary;
         FullScenario.file := file |})))))).

Definition enhanced_open (opts : EnhancedPerf.Options) : promise unit :=
  bind (if EnhancedPerf.reload opts
        then ignore_errors (perform (Goto "about:blank" ["networkidle0"]))
        else ret tt)
       (fun _ => perform (TracingStart EnhancedPerf.categories)).

Definition enhanced_close (OUT_DIR name : string) : promise EnhancedPerf.Trace :=
  bind (sleep 2500) (fun _ =>
  bind EnhancedPerf.getPerformanceMetrics (fun metrics =>
  bind (perform (WriteJson (OUT_DIR ++ "/" ++ name ++ ".metrics.json") metrics)) (fun _ =>
  bind (perform TracingStop) (fun buffer =>
  bind (perform (WriteFile (OUT_DIR ++ "/" ++ name ++ ".trace.json") buffer)) (fun _ =>
  ret {| EnhancedPerf.path := OUT_DIR ++ "/" ++ name ++ ".trace.json";
         EnhancedPerf.metricsPath := OUT_DIR ++ "/" ++ name ++ ".metrics.json";
         EnhancedPerf.metrics := metrics |}))))).

(** The operations of a transaction outside its action that the
    environment never rejects. *)
Definition tracing_works (env : Browser) : Prop :=
  (forall cats, always env (TracingStart cats))
  /\ always env TracingStop
  /\ (forall buffer, always env (ParseRawTraceBuffer buffer))
  /\ (forall parsed, always env (GetTraceSummary parsed))
  /\ (forall path content, always env (WriteFile path content))
  /\ always env Snapshot
  /\ always env PageMetrics
  /\ (forall path content, always env (WriteJson path content)).

Definition emptyDom : Dom := {| querySelectorAll := fun _ => [] |}.

Definition signInLink : Node :=
  {| node_id := "a#sign-in"; textContent := Some " Sign In "; node_value := None |}.

(** A page whose only link reads Sign In. *)
Definition shopDom : Dom :=
  {| querySelectorAll := fun sel => if String.eqb sel "a" then [signInLink] else [] |}.

(** An environment in which the navigations to the [reachable]
    addresses succeed and all others are refused, the page shows [dom],
    [page.click] and [page.type] find no element, waiting for a
    navigation times out, and tracing and the file system work. *)
Definition scripted (reachable : string -> bool) (dom : Dom) : Browser :=
  fun R c _ =>
    match c in call R return Result R * N with
    | Launch => (Ok tt, 800%N)
    | NewPage => (Ok tt, 50%N)
    | SetViewport | EvaluateOnNewDocument | BrowserClose => (Ok tt, 1%N)
    | Mkdir _ => (Ok tt, 1%N)
    | Goto url _ =>
        if reachable url then (Ok tt, 300%N)
        else (Throw (Rejected "net::ERR_CONNECTION_REFUSED"), 20%N)
    | TracingStart _ => (Ok tt, 5%N)
    | TracingStop => (Ok "[]", 40%N)
    | Evaluate => (Ok dom, 3%N)
    | Query sel => (Ok (querySelector dom sel), 2%N)
    | HandleClick _ _ | HandleType _ _ => (Ok tt, 10%N)
    | PageClick _ | PageType _ _ =>
        (Throw (Rejected "No element found for selector"), 2%N)
    | WaitForNavigation _ =>
        (Throw (Rejected "Navigation timeout exceeded"), 8000%N)
    | Timer _ => (Ok tt, 0%N)
    | Snapshot | PageMetrics => (Ok (VObj []), 2%N)
    | WriteFile _ _ | WriteJson _ _ => (Ok tt, 1%N)
    | ParseRawTraceBuffer _ => (Ok (VObj [("error", VStr "no events")]), 1%N)
    | GetTraceSummary _ => (Ok "summary", 1%N)
    end.

Definition shop : string := "https://shop.example/actions/Catalog.action".

(** The shop cannot be reached at all. *)
Definition offline : Browser :=
  scripted (fun url => String.eqb url "about:blank") emptyDom.

(** The home page loads; after it no element is ever found and every
    other navigation is refused. *)
Definition unresponsive : Browser :=
  scripted (fun url => (String.eqb url "about:blank" || String.eqb url shop)%bool)
           emptyDom.

(** Every navigation succeeds, no element is ever found. *)
Definition clickless : Browser := scripted (fun _ => true) emptyDom.

(** The world in which the action of a transaction starts, and the one
    it leaves, in a scripted run. *)
Definition opened_in (env : Browser) : World :=
  snd (enhanced_open EnhancedPerf.defaults env start).

Definition acted_in (env : Browser) (actionFn : promise unit) : World :=
  snd (actionFn env (opened_in env)).

(** The page goes away while a function is evaluated in it; all else
    is as in [clickless]. *)
Definition detached : Browser :=
  fun R c n =>
    match c in call R0 return Result R0 * N with
    | Evaluate => (Throw (Rejected "Execution context was destroyed"), 1%N)
    | c0 => clickless _ c0 n
    end.

(** The element lookups of the driver are rejected; all else is as in
    [clickless]. *)
Definition stale : Browser :=
  fun R c n =>
    match c in call R0 return Result R0 * N with
    | Query _ => (Throw (Rejected "Protocol error: Cannot find context with specified id"), 1%N)
    | c0 => clickless _ c0 n
    end.

(** Whether [clickByText] finds an element in a document. *)
Definition found (d : Dom) (selectorList txt : string) : bool :=
  match FullScenario.firstMatch d (split "," selectorList) txt with
  | Some _ => true
  | None => false
  end.





(** A promise that only adds events that satisfy [P], however it
    settles. *)
Definition emits (P : event -> Prop) {A} (p : promise A) : Prop :=
  forall env w r w',
    p env w = (r, w') ->
    exists evs, log w' = (log w ++ evs)%list /\ Forall P evs.

(** A promise that has only added events that satisfy [P] when it
    rejects. *)
Definition rejects_within (P : event -> Prop) {A} (p : promise A) : Prop :=
  forall env w e w',
    p env w = (Throw e, w') ->
    exists evs, log w' = (log w ++ evs)%list /\ Forall P evs.

(** [browser.close()] has resolved. *)
Definition is_closed (e : event) : bool :=
  match e with Settled BrowserClose true _ => true | _ => false end.

(** A [page.goto], whatever its address and outcome. *)
Definition is_navigation (e : event) : bool :=
  match e with Settled (Goto _ _) _ _ => true | _ => false end.

(** A page with a user name field. *)
Definition userField : Node :=
  {| node_id := "input#username"; textContent := None; node_value := Some EmptyString |}.

Definition loginDom : Dom :=
  {| querySelectorAll :=
       fun sel => if String.eqb sel "input" then [userField] else [] |}.

(** The entries of the interaction and long-task batches, in the order
    of their delivery. *)
Definition interactions (batches : list batch) : list Interaction :=
  flat_map (fun b => match b with InteractionBatch l => l | _ => [] end) batches.

Definition longTaskEntries (batches : list batch) : list LongTask :=
  flat_map (fun b => match b with LongTaskBatch l => l | _ => [] end) batches.

Definition is_interaction_batch (b : batch) : bool :=
  match b with InteractionBatch _ => true | _ => false end.

Definition is_longtask_batch (b : batch) : bool :=
  match b with LongTaskBatch _ => true | _ => false end.

(** Three long tasks in two batches, around an interaction of 80 ms. *)
Definition busy_batches : list batch :=
  [LongTaskBatch [{| task_duration := 120; task_startTime := 10 |};
                  {| task_duration := 40; task_startTime := 200 |}];
   InteractionBatch [{| interaction_duration := 80 |}];
   LongTaskBatch [{| task_duration := 75; task_startTime := 900 |}]].

(** A long task as the metrics file carries it, its attribution left
    out. *)
Definition taskValue (t : LongTask) : value :=
  VObj [("duration", VNum (Fin (task_duration t)));
        ("startTime", VNum (Fin (task_startTime t)))].

(** The requests the browser has announced, in order: the id, the
    address and the resource type of each. *)
Definition announced (events : list DetailedPerf.Tracker.NetworkEvent)
  : list (string * string * option string) :=
  flat_map
    (fun e => match e with
              | DetailedPerf.Tracker.requestWillBeSent id address _ type _ _ =>
                  [(id, address, type)]
              | _ => []
              end)
    events.

Definition identity (r : DetailedPerf.Tracker.Request)
  : string * string * option string :=
  (DetailedPerf.Tracker.requestId r, DetailedPerf.Tracker.url r,
   DetailedPerf.Tracker.resourceType r).

(** The request an event reports on. *)
Definition reportsOn (e : DetailedPerf.Tracker.NetworkEvent) : option string :=
  match e with
  | DetailedPerf.Tracker.requestWillBeSent _ _ _ _ _ _ => None
  | DetailedPerf.Tracker.responseReceived id _ _ _ _ _ _ => Some id
  | DetailedPerf.Tracker.loadingFinished id _ _ => Some id
  | DetailedPerf.Tracker.loadingFailed id _ => Some id
  end.

(** The requests and the bytes a breakdown accounts for. *)
Definition counted (groups : DetailedPerf.Breakdown) : nat :=
  fold_right (fun g n => (DetailedPerf.count (snd g) + n)%nat) 0%nat groups.

Definition weighed (groups : DetailedPerf.Breakdown) : Q :=
  fold_right (fun g q => (DetailedPerf.size (snd g) + q)%Q) 0%Q groups.

(** The requests that have a key, and one that is not inherited. *)
Definition grouped (key : DetailedPerf.Tracker.Request -> option string)
  (requests : list DetailedPerf.Tracker.Request) : list DetailedPerf.Tracker.Request :=
  filter (fun r => match key r with
                   | Some k => negb (DetailedPerf.inherited k)
                   | None => false
                   end) requests.

Definition transferSum (requests : list DetailedPerf.Tracker.Request) : Q :=
  fold_right (fun r q => (DetailedPerf.transferred r + q)%Q) 0%Q requests.

(** A page load: the document, a script that arrives from the disk
    cache, an image that fails, and a finish event for a request the
    tracker has never seen. *)
Definition page_load : list DetailedPerf.Tracker.NetworkEvent :=
  [DetailedPerf.Tracker.requestWillBeSent "1" "https://shop.example/" "GET"
     (Some "Document") 10 (Some "other");
   DetailedPerf.Tracker.requestWillBeSent "2" "https://cdn.example/app.js" "GET"
     (Some "Script") 11 (Some "parser");
   DetailedPerf.Tracker.responseReceived "1" 200 "text/html" [] 12 (Some false) None;
   DetailedPerf.Tracker.loadingFinished "1" 4096 13;
   DetailedPerf.Tracker.requestWillBeSent "3" "https://constructor/logo.png" "GET"
     (Some "Image") 14 None;
   DetailedPerf.Tracker.responseReceived "2" 200 "text/javascript" [] 15 (Some true) None;
   DetailedPerf.Tracker.loadingFinished "2" 600000 16;
   DetailedPerf.Tracker.loadingFailed "3" "net::ERR_FAILED";
   DetailedPerf.Tracker.loadingFinished "9" 123 17].

(** The host of an address, for the addresses of [page_load]. *)
Definition hostOf (address : string) : option string :=
  match origin address with
  | Some o =>
      match index 0 "://" o with
      | Some i => Some (substring (i + 3) (String.length o - (i + 3)) o)
      | None => None
      end
  | None => None
  end.

(** A navigation whose load event has not fired when the timings are
    read. *)
Definition unfinished_load : DetailedPerf.Timing.NavigationTiming :=
  {| DetailedPerf.Timing.navigationStart := 1700000000000;
     DetailedPerf.Timing.redirectStart := 0;
     DetailedPerf.Timing.redirectEnd := 0;
     DetailedPerf.Timing.domainLookupStart := 1700000000005;
     DetailedPerf.Timing.domainLookupEnd := 1700000000020;
     DetailedPerf.Timing.connectStart := 1700000000020;
     DetailedPerf.Timing.connectEnd := 1700000000060;
     DetailedPerf.Timing.requestStart := 1700000000061;
     DetailedPerf.Timing.responseStart := 1700000000400;
     DetailedPerf.Timing.responseEnd := 1700000000900;
     DetailedPerf.Timing.domLoading := 1700000000410;
     DetailedPerf.Timing.domComplete := 0;
     DetailedPerf.Timing.domContentLoadedEventStart := 1700000002500;
     DetailedPerf.Timing.loadEventStart := 0;
     DetailedPerf.Timing.loadEventEnd := 0 |}.

(** Two steps of a report whose payloads carry no LCP. *)
Definition steps_without_lcp : list value :=
  [VObj [("step", VStr "home")];
   VObj [("step", VStr "login");
         ("metrics",
          VObj [("result",
                 VObj [("payload", VObj [("CumulativeLayoutShift", VNum (Fin (1 # 4)))])])])]].

(** A step within the budgets of the table. *)
Definition fast_step : value :=
  VObj [("step", VStr "home");
        ("metrics",
         VObj [("result",
                VObj [("payload",
                       VObj [("LargestContentfulPaint", Report.Num 1800);
                             ("CumulativeLayoutShift", VNum (Fin (1 # 50)));
                             ("TimeToFirstByte", Report.Num 900)])])])].

(** The metrics of a step whose two long tasks stay under 50 ms and
    whose response started with the request. *)
Definition idle_step : value :=
  VObj [("lcp", VObj [("duration", Report.Num 0)]);
        ("navigationTiming",
         VObj [("requestStart", Report.Num 120); ("responseStart", Report.Num 120)]);
        ("longTasks", VArr [VObj [("duration", Report.Num 50)];
                            VObj [("duration", Report.Num 12)]])].

(** The first event of a trace that bears a name, its time stamp, and
    the number of events that bear it. *)
Definition firstNamed (name : string) (events : list value) : option value :=
  find (fun e => strict_eq_str (own e "name") name) events.

Definition stamp (name : string) (events : list value) : value :=
  match firstNamed name events with
  | Some e => own e "ts"
  | None => VUndef
  end.



(** A browser whose page answers the snapshot with a [chromeMetrics]
    key of its own. *)
Definition shadowing : Browser :=
  fun R c n =>
    match c in call R0 return Result R0 * N with
    | Snapshot => (Ok (VObj [("cls", VNum (Fin (1 # 20))); ("chromeMetrics", VStr "page")]), 2%N)
    | PageMetrics => (Ok (VObj [("Nodes", Report.Num 512)]), 2%N)
    | c0 => clickless _ c0 n
    end.




(** A file system in which the metrics of the login step are missing. *)
Definition login_metrics_missing : Report.FS :=
  fun path =>
    if String.eqb path "out/login.metrics.json"
    then Throw (Rejected "ENOENT: no such file or directory")
    else Ok "{}".

Definition home_and_login : list value :=
  [VObj [("step", VStr "home"); ("metricsPath", VStr "out/home.metrics.json")];
   VObj [("step", VStr "login"); ("metricsPath", VStr "out/login.metrics.json")]].

(* ================================================================== *)
(** * Properties of the report generators *)
(* ================================================================== *)

(** ** Total Blocking Time *)

Lemma Math_max_blocking (d : Q) :
  exists m, Math_max (Fin 0%Q) (ToNumber (js_sub (VNum (Fin d)) (Report.Num 50))) = Fin m
            /\ (m == blockingPortion d)%Q.
Proof.
  cbv beta iota delta [js_sub ToNumber Report.Num num_of_Z num_sub Math_max
                       num_ltb blockingPortion].
  change (inject_Z 50) with 50%Q.
  assert (Qred (d - 50) == d - 50)%Q as R by apply Qred_correct.
  set (x := Qred (d - 50)) in *.
  destruct (Qle_bool x 0) eqn:E; cbv [negb].
  - exists 0%Q. split; [reflexivity|].
    apply Qle_bool_iff in E. rewrite R in E.
    symmetry. apply Q.max_l. exact E.
  - exists x. split; [reflexivity|].
    rewrite R. symmetry. apply Q.max_r.
    apply Qlt_le_weak. apply Qnot_le_lt. intro H.
    rewrite <- R in H. apply Qle_bool_iff in H. congruence.
Qed.

Lemma blockingTime_from (tasks : list value) (ds : list Q) :
  Forall2 lasts tasks ds ->
  forall a : Q,
  exists q,
    Array_reduce
      (fun sum task =>
         rbind (get task "duration") (fun d =>
           Ok (js_add sum (VNum (Math_max (Fin 0%Q)
                                   (ToNumber (js_sub d (Report.Num 50))))))))
      tasks (VNum (Fin a)) = Ok (VNum (Fin q))
    /\ (q == a + blockingSum ds)%Q.
Proof.
  induction 1 as [|task d tasks ds [Hn Hd] _ IH]; intros a.
  - exists a. split; [reflexivity|]. cbn [blockingSum fold_right].
    symmetry. apply Qplus_0_r.
  - cbn [Array_reduce]. unfold get at 1. rewrite Hn, Hd. cbn [rbind].
    destruct (Math_max_blocking d) as [m [Hm Em]]. rewrite Hm.
    change (js_add (VNum (Fin a)) (VNum (Fin m))) with (VNum (Fin (Qred (a + m)))).
    destruct (IH (Qred (a + m))) as [q [Hq Eq]].
    exists q. split; [exact Hq|].
    rewrite Eq, Qred_correct, Em. cbn [blockingSum fold_right].
    symmetry. apply Qplus_assoc.
Qed.

Lemma totalBlockingTime_from (tasks : list value) (ds : list Q) :
  Forall2 lasts tasks ds ->
  forall a : num,
    Array_reduce
      (fun sum task =>
         rbind (get task "duration") (fun d =>
           Ok (Binary64.js_add sum
                 (VNum (Math_max (Fin 0%Q)
                          (ToNumber (Binary64.js_sub d (Report.Num 50))))))))
      tasks (VNum a)
    = Ok (VNum (fold_left (fun sum d => Binary64.add sum (blockingPortion64 d)) ds a)).
Proof.
  induction 1 as [|task d tasks ds [Hn Hd] _ IH]; intros a; [reflexivity|].
  cbn [Array_reduce fold_left]. unfold get at 1. rewrite Hn, Hd. cbn [rbind].
  exact (IH (Binary64.add a (blockingPortion64 d))).
Qed.

Lemma totalBlockingTime_sum (tasks : list value) (ds : list Q) :
  Forall2 lasts tasks ds ->
  Report.totalBlockingTime tasks = Ok (VNum (blockingSum64 ds)).
Proof. intros H. exact (totalBlockingTime_from _ _ H (Fin 0%Q)). Qed.

(** The guard of the markdown report and of [analyzeTraceMetrics]. *)
Lemma length_positive (tasks : list value) :
  js_gt (own (VArr tasks) "length") (Report.Num 0)
  = match tasks with [] => false | _ => true end.
Proof. destruct tasks as [|t tasks]; reflexivity. Qed.

(** *** Binary64 sums of whole numbers

    A whole number below [2 ^ 53] is a binary64 value, so that sums
    and differences of such numbers that stay below [2 ^ 53] are
    exact. *)

Lemma Qred_inject_Z (z : Z) : Qred (inject_Z z) = inject_Z z.
Proof.
  unfold Qred, inject_Z.
  pose proof (Z.ggcd_gcd z 1) as Hg.
  pose proof (Z.ggcd_correct_divisors z 1) as Hd.
  destruct (Z.ggcd z 1) as [g [aa bb]]. cbn [fst snd] in *.
  rewrite Z.gcd_1_r in Hg. subst g. destruct Hd as [Ha Hb].
  rewrite Z.mul_1_l in Ha, Hb. subst aa bb. reflexivity.
Qed.

Lemma Qred_scaled (z k : Z) :
  (0 < k)%Z -> Qred (Qmake (z * k) (Z.to_pos k)) = inject_Z z.
Proof.
  intros Hk. rewrite <- (Qred_inject_Z z). apply Qred_complete.
  unfold Qeq, inject_Z. cbn [Qnum Qden]. rewrite Z2Pos.id by exact Hk. ring.
Qed.

Lemma exponent_Z (a : Z) : (0 < a)%Z -> Binary64.exponent a 1 = Z.log2 a.
Proof.
  intros Ha. unfold Binary64.exponent.
  change (Z.log2 1) with 0%Z. rewrite Z.sub_0_r.
  pose proof (Z.log2_nonneg a) as Hn.
  destruct (Z.leb_spec 0 (Z.log2 a)) as [_|H]; [|lia].
  rewrite Z.mul_1_l.
  destruct (Z.leb_spec (2 ^ Z.log2 a) a) as [_|H]; [reflexivity|].
  pose proof (Z.log2_spec a Ha). lia.
Qed.

Lemma nearest_even_1 (n : Z) : Binary64.nearest_even n 1 = n.
Proof.
  unfold Binary64.nearest_even. rewrite Z.div_1_r, Z.mod_1_r. reflexivity.
Qed.

Lemma round_Z (z : Z) :
  (Z.abs z < 2 ^ 53)%Z -> Binary64.round (inject_Z z) = Fin (inject_Z z).
Proof.
  intros Hz. unfold Binary64.round. cbn [Qnum Qden inject_Z].
  destruct (Z.eqb_spec z 0) as [->|Hne]; [reflexivity|].
  assert (0 < Z.abs z)%Z as Ha by lia.
  rewrite (exponent_Z _ Ha).
  pose proof (Z.log2_nonneg (Z.abs z)) as Hn.
  assert (Z.log2 (Z.abs z) < 53)%Z as Hl by (apply Z.log2_lt_pow2; lia).
  rewrite Z.max_l by lia.
  assert ((if z <? 0 then -1 else 1) * Z.abs z = z)%Z as Hs
    by (destruct (Z.ltb_spec z 0); lia).
  destruct (Z.ltb_spec (Z.log2 (Z.abs z) - 52) 0) as [Hlt|Hge].
  - rewrite nearest_even_1.
    destruct (Z.leb_spec 0 (Z.log2 (Z.abs z) - 52)) as [H|_]; [lia|]. cbn [andb].
    f_equal. rewrite Z.mul_assoc, Hs. apply Qred_scaled.
    apply Z.pow_pos_nonneg; lia.
  - assert (Z.log2 (Z.abs z) - 52 = 0)%Z as -> by lia.
    change (2 ^ 0)%Z with 1%Z. rewrite !Z.mul_1_r, nearest_even_1.
    destruct (Z.leb_spec (2 ^ 1024) (Z.abs z)) as [H|_].
    + assert (2 ^ 53 < 2 ^ 1024)%Z by (apply Z.pow_lt_mono_r; lia). lia.
    + change (0 <=? 0)%Z with true. cbn [andb]. rewrite Hs. f_equal. apply Qred_inject_Z.
Qed.

Lemma add_Z (a b : Z) :
  (Z.abs a < 2 ^ 53)%Z -> (Z.abs b < 2 ^ 53)%Z -> (Z.abs (a + b) < 2 ^ 53)%Z ->
  Binary64.add (Fin (inject_Z a)) (Fin (inject_Z b)) = Fin (inject_Z (a + b)).
Proof.
  intros Ha Hb Hab. unfold Binary64.add. cbn [Binary64.of_num].
  rewrite (round_Z a Ha), (round_Z b Hb). cbn [num_add Binary64.of_num].
  assert (Qred (inject_Z a + inject_Z b) = inject_Z (a + b)) as ->.
  { rewrite <- (Qred_inject_Z (a + b)). apply Qred_complete. rewrite inject_Z_plus. apply Qeq_refl. }
  apply round_Z, Hab.
Qed.

Lemma sub_Z (a b : Z) :
  (Z.abs a < 2 ^ 53)%Z -> (Z.abs b < 2 ^ 53)%Z -> (Z.abs (a - b) < 2 ^ 53)%Z ->
  Binary64.sub (Fin (inject_Z a)) (Fin (inject_Z b)) = Fin (inject_Z (a - b)).
Proof.
  intros Ha Hb Hab. unfold Binary64.sub. cbn [Binary64.of_num].
  rewrite (round_Z a Ha), (round_Z b Hb). cbn [num_sub Binary64.of_num].
  assert (Qred (inject_Z a - inject_Z b) = inject_Z (a - b)) as ->.
  { rewrite <- (Qred_inject_Z (a - b)). apply Qred_complete.
    unfold Z.sub, Qminus. rewrite inject_Z_plus, inject_Z_opp. apply Qeq_refl. }
  apply round_Z, Hab.
Qed.

Lemma blockingPortion64_Z (z : Z) :
  (0 <= z < 2 ^ 53)%Z ->
  blockingPortion64 (inject_Z z) = Fin (inject_Z (Z.max 0 (z - 50))).
Proof.
  intros Hz. unfold blockingPortion64.
  change (Fin 50%Q) with (Fin (inject_Z 50)).
  rewrite sub_Z by lia.
  unfold Math_max, num_ltb, Qle_bool, inject_Z. cbn [Qnum Qden].
  rewrite !Z.mul_1_r.
  destruct (Z.leb_spec (z - 50) 0) as [H|H]; cbn [negb].
  - rewrite Z.max_l by lia. reflexivity.
  - rewrite Z.max_r by lia. reflexivity.
Qed.

Lemma blockingSumZ_nonneg (zs : list Z) : (0 <= blockingSumZ zs)%Z.
Proof. induction zs as [|z zs IH]; cbn [blockingSumZ fold_right]; [lia|]. fold (blockingSumZ zs). lia. Qed.

Lemma blockingSum64_Z (zs : list Z) :
  Forall (fun z => 0 <= z < 2 ^ 53)%Z zs ->
  forall acc : Z,
    (0 <= acc)%Z -> (acc + blockingSumZ zs < 2 ^ 53)%Z ->
    fold_left (fun sum d => Binary64.add sum (blockingPortion64 d))
              (map inject_Z zs) (Fin (inject_Z acc))
    = Fin (inject_Z (acc + blockingSumZ zs)).
Proof.
  induction 1 as [|z zs Hz _ IH]; intros acc Ha Hb.
  - cbn [map fold_left blockingSumZ fold_right]. rewrite Z.add_0_r. reflexivity.
  - cbn [map fold_left blockingSumZ fold_right] in *. fold (blockingSumZ zs) in *.
    pose proof (blockingSumZ_nonneg zs) as Hn.
    rewrite (blockingPortion64_Z z Hz), add_Z by lia.
    rewrite IH by lia. f_equal. f_equal. lia.
Qed.

Lemma blockingPortion_Z (z : Z) :
  (blockingPortion (inject_Z z) == inject_Z (Z.max 0 (z - 50)))%Q.
Proof.
  unfold blockingPortion.
  assert (inject_Z z - 50 == inject_Z (z - 50))%Q as E.
  { unfold Z.sub, Qminus. rewrite inject_Z_plus, inject_Z_opp. apply Qeq_refl. }
  destruct (Z.le_ge_cases (z - 50) 0) as [H|H].
  - rewrite Z.max_l by exact H. apply Q.max_l. rewrite E.
    change 0%Q with (inject_Z 0). rewrite <- Zle_Qle. exact H.
  - rewrite Z.max_r by exact H. rewrite <- E. apply Q.max_r. rewrite E.
    change 0%Q with (inject_Z 0). rewrite <- Zle_Qle. exact H.
Qed.

Lemma blockingSum_Z (zs : list Z) :
  (blockingSum (map inject_Z zs) == inject_Z (blockingSumZ zs))%Q.
Proof.
  induction zs as [|z zs IH]; [apply Qeq_refl|].
  cbn [map blockingSum blockingSumZ fold_right].
  fold (blockingSum (map inject_Z zs)). fold (blockingSumZ zs).
  rewrite inject_Z_plus, IH, blockingPortion_Z. apply Qeq_refl.
Qed.

(** The rounding and the two operators agree with the hardware. *)
Lemma binary64_examples :
  Binary64.round (1 # 10) = Binary64.of_float 0.1%float
  /\ Binary64.round (504 # 10) = Binary64.of_float 50.4%float
  /\ Binary64.round (inject_Z (2 ^ 53 + 1)) = Binary64.of_float 9007199254740992%float
  /\ Binary64.round (inject_Z (2 ^ 53 + 3)) = Binary64.of_float 9007199254740996%float
  /\ Binary64.round (1 # Pos.pow 10 320) = Binary64.of_float 1e-320%float
  /\ Binary64.round (inject_Z (10 ^ 309)) = Inf false
  /\ Binary64.add (Fin (1 # 10)) (Fin (2 # 10)) = Binary64.of_float (0.1 + 0.2)%float
  /\ Binary64.sub (Fin (1283 # 10)) (Fin 50) = Binary64.of_float (128.3 - 50)%float
  /\ Binary64.add (Fin (1 # 10)) (Fin (2 # 10)) <> Fin (3 # 10).
Proof. vm_compute. repeat split. discriminate. Qed.

(** C3. For every list of long tasks (entries whose duration is a
    number), the Total Blocking Time computed by the reports is the sum
    over the tasks of max(0, duration - 50), in the arithmetic of the
    engine: the blocking parts are added in the order of the list,
    starting from zero, and every difference and every partial sum is a
    binary64 value.  For durations that are whole numbers of
    milliseconds it is the sum of the documentation itself, the exact
    sum of max(0, duration - 50), as long as that stays below
    [2 ^ 53].  The markdown
    report computes it for the list of long tasks of a step when the
    list is not empty. *)
Theorem total_blocking_time (tasks : list value) (ds : list Q) :
  Forall2 lasts tasks ds ->
  Report.totalBlockingTime tasks = Ok (VNum (blockingSum64 ds))
  /\ (forall zs,
        ds = map inject_Z zs ->
        Forall (fun z => 0 <= z < 2 ^ 53)%Z zs ->
        (blockingSumZ zs < 2 ^ 53)%Z ->
        Report.totalBlockingTime tasks = Ok (VNum (Fin (inject_Z (blockingSumZ zs))))
        /\ (inject_Z (blockingSumZ zs) == blockingSum ds)%Q)
  /\ (forall metrics,
        nullish metrics = false ->
        own metrics "longTasks" = VArr tasks ->
        Report.markdownTbt metrics
        = Ok (match tasks with
              | [] => None
              | _ => Some (VNum (blockingSum64 ds))
              end)).
Proof.
  intros H.
  assert (Report.totalBlockingTime tasks = Ok (VNum (blockingSum64 ds))) as Ht
    by exact (totalBlockingTime_sum _ _ H).
  split; [exact Ht|]. split.
  - intros zs -> Hz Hs. split.
    + rewrite Ht. do 2 f_equal.
      exact (blockingSum64_Z zs Hz 0%Z (Z.le_refl 0) Hs).
    + symmetry. apply blockingSum_Z.
  - intros metrics Hm Hl. unfold Report.markdownTbt, get. rewrite Hm, Hl. cbn [rbind].
    change (opt_get (VArr tasks) "length") with (own (VArr tasks) "length").
    rewrite length_positive.
    destruct tasks as [|t tasks]; [reflexivity|].
    cbn [as_array rbind]. rewrite Ht. reflexivity.
Qed.

(** One long task of 120 ms: 70 ms of blocking time.  Long tasks of
    50.4, 128.3 and 171.3 ms: 200.00000000000003 ms, the sum the
    hardware gives, where the sum of the exact parts is 200. *)
Lemma total_blocking_time_120 :
  Report.totalBlockingTime [VObj [("duration", Report.Num 120)]] = Ok (Report.Num 70)
  /\ blockingSum64 [120%Q] = Fin 70%Q
  /\ blockingSumZ [120%Z] = 70%Z
  /\ Report.totalBlockingTime decimal_tasks
     = Ok (VNum (blockingSum64 decimal_durations))
  /\ blockingSum64 decimal_durations
     = Binary64.of_float (0 + (50.4 - 50) + (128.3 - 50) + (171.3 - 50))%float
  /\ blockingSum64 decimal_durations
     = Fin (7036874417766401 # 35184372088832)
  /\ (blockingSum decimal_durations == 200)%Q.
Proof.
  split; [|split; [reflexivity|split; [reflexivity|]]].
  - apply (proj1 (proj2 (total_blocking_time [VObj [("duration", Report.Num 120)]] [120%Q]
                           ltac:(repeat constructor)))
             [120%Z] eq_refl).
    + repeat constructor; lia.
    + vm_compute. reflexivity.
  - split.
    + exact (proj1 (total_blocking_time decimal_tasks decimal_durations
                      ltac:(repeat constructor))).
    + split; [vm_compute; reflexivity|]. split; vm_compute; reflexivity.
Defined.

(** ** Time to first byte *)

Lemma get_present (v : value) (k : string) :
  nullish v = false -> get v k = Ok (own v k).
Proof. intros H. unfold get. rewrite H. reflexivity. Qed.

Lemma truthy_present (v : value) : truthy v = true -> nullish v = false.
Proof. destruct v; simpl; congruence. Qed.

Lemma nullish_falsy (v : value) : nullish v = true -> truthy v = false.
Proof. destruct v; simpl; congruence. Qed.

Lemma rbind_Ok {A B} (r : Result A) (k : A -> Result B) (b : B) :
  rbind r k = Ok b -> exists a, r = Ok a /\ k a = Ok b.
Proof. destruct r as [a|e]; simpl; intros H; [eauto | discriminate]. Qed.



(** The TTFB field of [generateHtmlReport] is that expression. *)
Lemma keyMetrics_ttfb (metrics : value) (km : Report.KeyMetrics) :
  Report.keyMetrics metrics = Ok km ->
  Report.htmlTtfb metrics = Ok (Report.km_ttfb km).
Proof.
  unfold Report.keyMetrics. intros H.
  repeat (apply rbind_Ok in H; destruct H as [? [? H]]).
  injection H as <-. assumption.
Qed.

(** Its TBT field is the blocking time of its list of long tasks. *)
Lemma keyMetrics_tbt (metrics : value) (km : Report.KeyMetrics) :
  Report.keyMetrics metrics = Ok km ->
  Report.totalBlockingTime (Report.km_longTasks km) = Ok (Report.km_tbt km).
Proof.
  unfold Report.keyMetrics. intros H.
  repeat (apply rbind_Ok in H; destruct H as [? [? H]]).
  injection H as <-. assumption.
Qed.


(** ** Signals that are absent *)

Lemma payload_present (entry : value) : nullish (payload entry) = false.
Proof.
  apply truthy_present. unfold payload, js_or.
  destruct (truthy (opt_get (opt_get (own entry "metrics") "result") "payload")) eqn:E;
    [exact E | reflexivity].
Qed.

Lemma js_or_absent (v d : value) : nullish v = true -> js_or v d = d.
Proof. intros H. unfold js_or. rewrite (nullish_falsy _ H). reflexivity. Qed.

Lemma metricsRow_defined (entry : value) :
  nullish entry = false ->
  Report.metricsRow entry =
    Ok {| Report.row_step := own entry "step";
          Report.row_lcp := js_or (own (payload entry) "LargestContentfulPaint") (VStr "N/A");
          Report.row_cls := js_or (own (payload entry) "CumulativeLayoutShift") (Report.Num 0);
          Report.row_inp := js_or (own (payload entry) "InteractionToNextPaint") (VStr "N/A");
          Report.row_ttfb := js_or (own (payload entry) "TimeToFirstByte") (VStr "N/A");
          Report.row_tbt := js_or (own (payload entry) "TotalBlockingTime") (VStr "N/A");
          Report.row_good :=
            (js_lt (js_or (own (payload entry) "LargestContentfulPaint") (VStr "N/A"))
                   (Report.Num 2500)
             && js_lt (js_or (own (payload entry) "CumulativeLayoutShift") (Report.Num 0))
                      (VNum (Fin (1 # 10))))%bool |}.
Proof.
  intros He. unfold Report.metricsRow.
  rewrite !(get_present _ _ He). cbn [rbind].
  fold (payload entry).
  rewrite !(get_present _ _ (payload_present entry)). reflexivity.
Qed.

(** An entry without metrics: the table shows a zero for its CLS, which
    is neither null nor the N/A mark. *)
Lemma absent_cls_shown_as_zero :
  let entry := VObj [("step", VStr "home")] in
  absent (payload entry) "CumulativeLayoutShift"
  /\ exists r, Report.metricsRow entry = Ok r
               /\ Report.row_cls r = Report.Num 0
               /\ marked_absent (Report.row_cls r) = false
               /\ Report.rowText r = "| home | N/A | 0 | N/A | N/A | N/A | ⚠️ |".
Proof.
  split; [reflexivity|]. eexists. split; [reflexivity|].
  repeat split; reflexivity.
Qed.

Lemma absent_lines (metrics : value) :
  nullish metrics = false ->
  (nullish (opt_get (own metrics "lcp") "duration") = true ->
   Report.lcpLine metrics = Ok ["- LCP: N/A"])
  /\ (absent metrics "cls" -> Report.clsLine metrics = Ok ["- CLS: N/A"])
  /\ (absent metrics "inp" -> Report.inpLine metrics = Ok ["- INP: N/Ams"])
  /\ (absent metrics "navigationTiming" -> Report.ttfbLines metrics = Ok [])
  /\ (absent metrics "longTasks" -> Report.tbtLines metrics = Ok []).
Proof.
  intros Hm. unfold absent.
  unfold Report.lcpLine, Report.clsLine, Report.inpLine, Report.ttfbLines,
    Report.tbtLines, Report.markdownTtfb, Report.markdownTbt.
  rewrite !(get_present _ _ Hm). cbn [rbind].
  repeat split; intros Habs.
  - rewrite (nullish_falsy _ Habs). reflexivity.
  - destruct (own metrics "cls"); try discriminate Habs; reflexivity.
  - destruct (own metrics "inp"); try discriminate Habs; reflexivity.
  - rewrite (nullish_falsy _ Habs). reflexivity.
  - destruct (own metrics "longTasks"); try discriminate Habs; reflexivity.
Qed.

Lemma absent_advice (metrics : value) :
  nullish metrics = false ->
  (nullish (opt_get (own metrics "lcp") "duration") = true ->
   Report.lcpAdvice metrics = Ok [])
  /\ (absent metrics "cls" -> Report.clsAdvice metrics = Ok [])
  /\ (absent metrics "longTasks" -> Report.tbtAdvice metrics = Ok []).
Proof.
  intros Hm. unfold absent.
  unfold Report.lcpAdvice, Report.clsAdvice, Report.tbtAdvice, Report.markdownTbt.
  rewrite !(get_present _ _ Hm). cbn [rbind].
  repeat split; intros Habs.
  - destruct (opt_get (own metrics "lcp") "duration"); try discriminate Habs; reflexivity.
  - destruct (own metrics "cls"); try discriminate Habs; reflexivity.
  - destruct (own metrics "longTasks"); try discriminate Habs; reflexivity.
Qed.

(** C7 (amended). An absent Core Web Vitals signal never raises.  In the
    table of the MCP report an absent LCP, INP, TTFB or TBT is shown as
    N/A and an absent CLS as 0; in the markdown report an absent LCP,
    CLS or INP is shown as N/A and the TTFB and TBT lines are left out
    when there is no navigation timing and there are no long tasks, so
    that the section of a step whose metrics file carries none of the
    signals consists of the three N/A lines under its headings. *)
Theorem absent_signals_reported :
  (forall entry, nullish entry = false ->
     exists r, Report.metricsRow entry = Ok r
       /\ (absent (payload entry) "LargestContentfulPaint" -> Report.row_lcp r = VStr "N/A")
       /\ (absent (payload entry) "InteractionToNextPaint" -> Report.row_inp r = VStr "N/A")
       /\ (absent (payload entry) "TimeToFirstByte" -> Report.row_ttfb r = VStr "N/A")
       /\ (absent (payload entry) "TotalBlockingTime" -> Report.row_tbt r = VStr "N/A")
       /\ (absent (payload entry) "CumulativeLayoutShift" -> Report.row_cls r = Report.Num 0))
  /\ (forall fs entry, nullish entry = false ->
        exists lines, Report.entrySection fs entry = Ok lines)
  /\ (forall metrics, nullish metrics = false ->
        (nullish (opt_get (own metrics "lcp") "duration") = true ->
         Report.lcpLine metrics = Ok ["- LCP: N/A"])
        /\ (absent metrics "cls" -> Report.clsLine metrics = Ok ["- CLS: N/A"])
        /\ (absent metrics "inp" -> Report.inpLine metrics = Ok ["- INP: N/Ams"])
        /\ (absent metrics "navigationTiming" -> Report.ttfbLines metrics = Ok [])
        /\ (absent metrics "longTasks" -> Report.tbtLines metrics = Ok []))
  /\ (forall fs entry path content metrics,
        nullish entry = false ->
        own entry "metricsPath" = VStr path ->
        fs path = Ok content ->
        JSON_parse content = Ok metrics ->
        nullish metrics = false ->
        nullish (opt_get (own metrics "lcp") "duration") = true ->
        absent metrics "cls" -> absent metrics "inp" ->
        absent metrics "navigationTiming" -> absent metrics "longTasks" ->
        Report.entrySection fs entry
        = Ok ["## Step: " ++ ToString (own entry "step");
              "### Core Web Vitals"; "- LCP: N/A"; "- CLS: N/A"; "- INP: N/Ams";
              "### Performance Analysis"; "---"]).
Proof.
  split; [|split; [|split]].
  - intros entry He. eexists. split; [apply (metricsRow_defined _ He)|].
    cbn [Report.row_lcp Report.row_inp Report.row_ttfb Report.row_tbt Report.row_cls].
    repeat split; intros H; apply js_or_absent; exact H.
  - intros fs entry He. unfold Report.entrySection.
    rewrite (get_present _ _ He). cbn [rbind].
    match goal with |- context [let '(_, _) := ?b in _] => destruct b end.
    eexists; reflexivity.
  - exact absent_lines.
  - intros fs entry path content metrics He Hp Hf Hj Hm Hl Hc Hi Hn Ht.
    destruct (absent_lines metrics Hm) as (L1 & L2 & L3 & L4 & L5).
    destruct (absent_advice metrics Hm) as (A1 & A2 & A3).
    unfold Report.entrySection. rewrite !(get_present _ _ He). cbn [rbind].
    rewrite Hp. cbn [Report.readFile]. rewrite Hf. cbn [rbind]. rewrite Hj.
    unfold Report.sectionBlocks.
    rewrite (L1 Hl), (L2 Hc), (L3 Hi), (L4 Hn), (L5 Ht), (A1 Hl), (A2 Hc), (A3 Ht).
    reflexivity.
Qed.

(** The entry of a step whose metrics file is an empty object; and an
    entry without a metrics file, which has the row of the table and,
    in the markdown report, the line of the error. *)
Lemma absent_signals_reported_home :
  nullish entry_without_metrics = false
  /\ (exists r, Report.metricsRow entry_without_metrics = Ok r
        /\ Report.row_lcp r = VStr "N/A" /\ Report.row_cls r = Report.Num 0)
  /\ Report.clsLine (VObj []) = Ok ["- CLS: N/A"]
  /\ Report.ttfbLines (VObj []) = Ok []
  /\ Report.entrySection (fun _ => Ok "{}")
       (VObj [("step", VStr "home"); ("metricsPath", VStr "out/home.metrics.json")])
     = Ok ["## Step: home"; "### Core Web Vitals"; "- LCP: N/A"; "- CLS: N/A";
           "- INP: N/Ams"; "### Performance Analysis"; "---"]
  /\ Report.entrySection (fun _ => Ok "{}") entry_without_metrics
     = Ok ["## Step: home";
           "Error reading metrics: " ++
             dq "The 'path' argument must be of type string or an instance of Buffer or URL. Received undefined";
           "---"].
Proof.
  split; [reflexivity|]. split; [|split; [|split; [|split]]].
  - destruct (proj1 absent_signals_reported entry_without_metrics eq_refl)
      as (r & Hr & Hlcp & _ & _ & _ & Hcls).
    exists r. split; [exact Hr|]. split; [apply Hlcp | apply Hcls]; reflexivity.
  - apply (proj1 (proj2 (proj2 absent_signals_reported)) (VObj []) eq_refl). reflexivity.
  - apply (proj1 (proj2 (proj2 absent_signals_reported)) (VObj []) eq_refl). reflexivity.
  - apply (proj2 (proj2 (proj2 absent_signals_reported)) (fun _ => Ok "{}")
             (VObj [("step", VStr "home"); ("metricsPath", VStr "out/home.metrics.json")])
             "out/home.metrics.json" "{}" (VObj [])); reflexivity.
  - vm_compute. reflexivity.
Defined.

(** ** Decoding a trace file *)








(* ================================================================== *)
(** * Properties of the observers *)
(* ================================================================== *)

Lemma final_app {A} (l l' : list A) :
  final (l ++ l') = match final l' with Some y => Some y | None => final l end.
Proof.
  induction l as [|x l IH]; simpl.
  - destruct (final l'); reflexivity.
  - rewrite IH. destruct (final l'); reflexivity.
Qed.

Lemma nth_error_final {A} (l : list A) :
  nth_error l (List.length l - 1) = final l.
Proof.
  induction l as [|x l IH]; [reflexivity|].
  destruct l as [|y l]; [reflexivity|].
  change (final (x :: y :: l)) with
    (match final (y :: l) with Some z => Some z | None => Some x end).
  rewrite <- IH. simpl. rewrite Nat.sub_0_r.
  destruct (nth_error (y :: l) (List.length l)) eqn:E; [reflexivity|].
  apply nth_error_None in E. simpl in E. lia.
Qed.

Lemma onLcp_final (l : list LcpCandidate) (d : Document) :
  win_LCP (onLcp l d) =
  match final l with Some c => Some c | None => win_LCP d end.
Proof.
  unfold onLcp. destruct l as [|c l]; [reflexivity|].
  change (0 <? List.length (c :: l))%nat with true. cbn [win_LCP].
  rewrite nth_error_final. cbn [final]. destruct (final l); reflexivity.
Qed.

Lemma win_LCP_fold (batches : list batch) :
  forall d,
    win_LCP (fold_left deliver batches d) =
    match final (lcpCandidates batches) with
    | Some c => Some c
    | None => win_LCP d
    end.
Proof.
  induction batches as [|b batches IH]; intros d; [reflexivity|].
  cbn [fold_left]. rewrite IH.
  unfold lcpCandidates. cbn [flat_map]. fold (lcpCandidates batches).
  rewrite final_app.
  destruct (final (lcpCandidates batches)); [reflexivity|].
  destruct b as [l|l|l|l]; try reflexivity.
  cbn [deliver]. apply onLcp_final.
Qed.

Lemma final_In {A} (l : list A) (r : A) : final l = Some r -> In r l.
Proof.
  induction l as [|x l IH]; [discriminate|].
  cbn [final]. destruct (final l) as [y|].
  - intros E. injection E as ->. right. apply IH. reflexivity.
  - intros E. injection E as ->. left. reflexivity.
Qed.

Lemma final_None {A} (l : list A) : final l = None -> l = [].
Proof.
  destruct l as [|x l]; [reflexivity|].
  cbn [final]. destruct (final l); discriminate.
Qed.

Lemma final_largest (l : list LcpCandidate) (r : LcpCandidate) :
  StronglySorted smaller l ->
  final l = Some r ->
  forall c, In c l -> (lcp_size c <= lcp_size r)%N.
Proof.
  induction 1 as [|x l Hs IH Hx]; intros Hf c Hin; [destruct Hin|].
  cbn [final] in Hf. destruct (final l) as [y|] eqn:E.
  - injection Hf as ->. destruct Hin as [<-|Hin].
    + apply N.lt_le_incl. apply (proj1 (Forall_forall _ _) Hx).
      apply final_In. exact E.
    + apply IH; [reflexivity | exact Hin].
  - injection Hf as <-. apply final_None in E. subst l.
    destruct Hin as [<-|[]]. apply N.le_refl.
Qed.

(** C6. The LCP the page reports when it is sampled is the last
    largest-contentful-paint candidate the browser has delivered by
    then: a later candidate replaces an earlier one, and with the
    candidates growing in size, as the browser reports them, it is the
    largest of them. *)
Theorem largest_contentful_paint (deadline : N) (timeline : list (N * batch)) :
  let seen := lcpCandidates (delivered deadline timeline) in
  win_LCP (sample deadline timeline) = final seen
  /\ (StronglySorted smaller seen ->
      forall r, win_LCP (sample deadline timeline) = Some r ->
      forall c, In c seen -> (lcp_size c <= lcp_size r)%N).
Proof.
  intros seen.
  assert (win_LCP (sample deadline timeline) = final seen) as H.
  { unfold sample, observe. rewrite win_LCP_fold. fold seen.
    destruct (final seen); reflexivity. }
  split; [exact H|].
  intros Hs r Hr. rewrite H in Hr. exact (final_largest seen r Hs Hr).
Qed.

Lemma largest_contentful_paint_hero :
  win_LCP (sample 3500 lcp_timeline) = Some (candidate 900 48000)
  /\ forall c, In c (lcpCandidates (delivered 3500 lcp_timeline)) ->
               (lcp_size c <= 48000)%N.
Proof.
  split; [reflexivity|].
  apply (proj2 (largest_contentful_paint 3500 lcp_timeline)) with
    (r := candidate 900 48000); [|reflexivity].
  repeat constructor.
Defined.

(** ** Cumulative layout shift *)

Lemma accumulate_sum (entries : list LayoutShift) :
  forall c,
    accumulateShifts entries c
    = fold_left (fun acc e => Binary64.add acc (Fin (shift_value e)))
                (filter unflagged entries) c.
Proof.
  unfold accumulateShifts.
  induction entries as [|e entries IH]; intros c; [reflexivity|].
  cbn [fold_left filter]. unfold unflagged at 1.
  destruct (negb (hadRecentInput e)); [cbn [fold_left]|]; apply IH.
Qed.

Lemma accumulate_unflagged (entries : list LayoutShift) :
  forall c, accumulateShifts (filter unflagged entries) c = accumulateShifts entries c.
Proof.
  unfold accumulateShifts.
  induction entries as [|e entries IH]; intros c; [reflexivity|].
  cbn [filter fold_left]. unfold unflagged at 1.
  destruct (negb (hadRecentInput e)) eqn:E.
  - cbn [fold_left]. rewrite E. apply IH.
  - apply IH.
Qed.

Lemma deliver_dropFlagged (b : batch) (d : Document) :
  deliver d (dropFlagged b) = deliver d b.
Proof.
  destruct b as [l|l|l|l]; try reflexivity.
  cbn [dropFlagged deliver]. unfold onLayoutShift.
  rewrite accumulate_unflagged. reflexivity.
Qed.

Lemma clsValue_fold (batches : list batch) :
  forall d,
    clsValue (fold_left deliver batches d)
    = fold_left (fun acc e => Binary64.add acc (Fin (shift_value e)))
                (filter unflagged (layoutShifts batches)) (clsValue d).
Proof.
  induction batches as [|b batches IH]; intros d; [reflexivity|].
  cbn [fold_left]. unfold layoutShifts. cbn [flat_map]. fold (layoutShifts batches).
  rewrite IH.
  destruct b as [l|l|l|l]; cbn [app filter deliver].
  - unfold onLcp. destruct (0 <? List.length l)%nat; reflexivity.
  - rewrite filter_app, fold_left_app. cbn [onLayoutShift clsValue].
    rewrite accumulate_sum. reflexivity.
  - reflexivity.
  - reflexivity.
Qed.

Lemma win_CLS_fold (batches : list batch) :
  forall d,
    win_CLS d = Some (clsValue d) \/ (exists l, In (ShiftBatch l) batches) ->
    win_CLS (fold_left deliver batches d)
    = Some (clsValue (fold_left deliver batches d)).
Proof.
  induction batches as [|b batches IH]; intros d H.
  - destruct H as [H|[l []]]. exact H.
  - cbn [fold_left]. apply IH.
    destruct b as [l|l|l|l].
    + destruct H as [H|[l' [E|Hin]]]; [left | discriminate E | right; eauto].
      cbn [deliver]. unfold onLcp. destruct (0 <? List.length l)%nat; exact H.
    + left. reflexivity.
    + destruct H as [H|[l' [E|Hin]]]; [left; exact H | discriminate E | right; eauto].
    + destruct H as [H|[l' [E|Hin]]]; [left; exact H | discriminate E | right; eauto].
Qed.

Lemma clsValue_prune (batches : list batch) :
  forall d d',
    clsValue d = clsValue d' ->
    clsValue (fold_left deliver (prune batches) d)
    = clsValue (fold_left deliver batches d').
Proof.
  unfold prune.
  induction batches as [|b batches IH]; intros d d' H; [exact H|].
  cbn [map filter fold_left].
  destruct b as [l|l|l|l]; cbn [dropFlagged].
  - cbn [fold_left]. apply IH. cbn [deliver]. unfold onLcp.
    destruct (0 <? List.length l)%nat; exact H.
  - assert (clsValue (deliver d (ShiftBatch (filter unflagged l)))
            = clsValue (deliver d' (ShiftBatch l))) as Hstep.
    { cbn [deliver onLayoutShift clsValue]. rewrite accumulate_unflagged, H. reflexivity. }
    destruct (filter unflagged l) as [|e l'] eqn:E.
    + apply IH. rewrite <- Hstep. reflexivity.
    + cbn [fold_left]. apply IH. exact Hstep.
  - cbn [fold_left]. apply IH. exact H.
  - cbn [fold_left]. apply IH. exact H.
Qed.

(** C5. The CLS the observer accumulates over the layout shifts it is
    handed is the running sum of the scores of exactly the shifts that
    do not carry [hadRecentInput] (the browser's mark of a shift within
    500 ms of a user input): the scores of those shifts added one after
    the other, in the order of their delivery, each partial sum a
    binary64 value as in the page.  It is what the page publishes once
    a batch of shifts has been delivered; taking the marked shifts out
    of the input leaves the state of the page unchanged, and the
    accumulated CLS is the same when the batches this empties are not
    delivered at all. *)
Theorem cumulative_layout_shift (batches : list batch) :
  clsValue (observe batches) = scoreSum (filter unflagged (layoutShifts batches))
  /\ (forall l, In (ShiftBatch l) batches ->
        win_CLS (observe batches) = Some (clsValue (observe batches)))
  /\ observe (map dropFlagged batches) = observe batches
  /\ clsValue (observe (prune batches)) = clsValue (observe batches).
Proof.
  split; [|split; [|split]].
  - unfold observe, scoreSum. apply clsValue_fold.
  - intros l Hin. apply win_CLS_fold. right. exists l. exact Hin.
  - unfold observe. generalize newDocument.
    induction batches as [|b batches IH]; intros d; [reflexivity|].
    cbn [map fold_left]. rewrite deliver_dropFlagged. apply IH.
  - apply clsValue_prune. reflexivity.
Qed.

(** Shifts of 0.05 and 0.1 around a marked shift of 0.5: the page
    publishes 0.15000000000000002, the sum the hardware gives, and not
    3/20. *)
Lemma cumulative_layout_shift_example :
  clsValue (observe shift_batches) = Binary64.of_float (0.05 + 0.1)%float
  /\ clsValue (observe shift_batches)
     = Fin (1351079888211149 # 9007199254740992)
  /\ clsValue (observe shift_batches) <> Fin (3 # 20)
  /\ clsValue (observe shift_batches)
     = scoreSum [shift false (1 # 20); shift false (1 # 10)]
  /\ win_CLS (observe shift_batches) = Some (clsValue (observe shift_batches))
  /\ observe (map dropFlagged shift_batches) = observe shift_batches
  /\ clsValue (observe (prune shift_batches)) = clsValue (observe shift_batches).
Proof.
  destruct (cumulative_layout_shift shift_batches) as (H1 & H2 & H3 & H4).
  split; [vm_compute; reflexivity|].
  split; [vm_compute; reflexivity|].
  split; [vm_compute; discriminate|].
  split; [exact H1|].
  split; [|split; [exact H3 | exact H4]].
  apply (H2 [shift false (1 # 10)]).
  right. right. left. reflexivity.
Defined.

(* ================================================================== *)
(** * Properties of promises *)
(* ================================================================== *)


Lemma bind_step {A B} (p : promise A) (k : A -> promise B) env w a w1 :
  p env w = (Ok a, w1) -> bind p k env w = k a env w1.
Proof. intros H. unfold bind. rewrite H. reflexivity. Qed.

Lemma bind_Throw {A B} (p : promise A) (k : A -> promise B) env w e w1 :
  p env w = (Throw e, w1) -> bind p k env w = (Throw e, w1).
Proof. intros H. unfold bind. rewrite H. reflexivity. Qed.

Lemma perform_shape {R} (c : call R) env w :
  exists r t,
    (clock w <= t)%N
    /\ r = fst (env R c (List.length (log w)))
    /\ perform c env w
       = (r, {| clock := t; log := log w ++ [Settled c (returns r) t] |}).
Proof.
  unfold perform. destruct (env R c (List.length (log w))) as [r took].
  exists r, (clock w + took)%N. repeat split. lia.
Qed.

Lemma perform_always {R} (c : call R) env w :
  always env c ->
  exists r t,
    (clock w <= t)%N
    /\ perform c env w = (Ok r, {| clock := t; log := log w ++ [Settled c true t] |}).
Proof.
  intros H. destruct (perform_shape c env w) as (r & t & Ht & Hr & Hp).
  destruct (H (List.length (log w))) as [r' Hr']. rewrite Hr' in Hr. subst r.
  exists r', t. split; [exact Ht | exact Hp].
Qed.

Lemma sleep_shape (ms : N) env w :
  exists t,
    (clock w + ms <= t)%N
    /\ sleep ms env w
       = (Ok tt, {| clock := t; log := log w ++ [Settled (Timer ms) true t] |}).
Proof.
  unfold sleep. destruct (env unit (Timer ms) (List.length (log w))) as [r late].
  exists (clock w + ms + late)%N. split; [lia | reflexivity].
Qed.

(** *** Totality *)

Lemma total_ret env {A} (a : A) : total env (ret a).
Proof. intros w. exists a, w. reflexivity. Qed.

Lemma total_bind env {A B} (p : promise A) (k : A -> promise B) :
  total env p -> (forall a, total env (k a)) -> total env (bind p k).
Proof.
  intros Hp Hk w. destruct (Hp w) as (a & w1 & H1).
  destruct (Hk a w1) as (b & w2 & H2).
  exists b, w2. rewrite (bind_step p k env w a w1 H1). exact H2.
Qed.



Lemma total_perform env {R} (c : call R) : always env c -> total env (perform c).
Proof.
  intros H w. destruct (perform_always c env w H) as (r & t & _ & Hp). eauto.
Qed.






(** *** Time *)

Lemma after_ret t {A} (a : A) : after t (ret a).
Proof.
  intros env w r w' H Hw. injection H as <- <-.
  split; [exact Hw|]. exists []. split; [symmetry; apply app_nil_r | constructor].
Qed.

Lemma after_lift t {A} (x : Result A) : after t (lift x).
Proof.
  intros env w r w' H Hw. injection H as <- <-.
  split; [exact Hw|]. exists []. split; [symmetry; apply app_nil_r | constructor].
Qed.

Lemma after_bind t {A B} (p : promise A) (k : A -> promise B) :
  after t p -> (forall a, after t (k a)) -> after t (bind p k).
Proof.
  intros Hp Hk env w r w' H Hw. unfold bind in H.
  destruct (p env w) as [[a|e] w1] eqn:E.
  - destruct (Hp _ _ _ _ E Hw) as (H1 & evs1 & L1 & F1).
    destruct (Hk a _ _ _ _ H H1) as (H2 & evs2 & L2 & F2).
    split; [exact H2|]. exists (evs1 ++ evs2)%list.
    split; [rewrite L2, L1; symmetry; apply app_assoc | apply Forall_app; auto].
  - injection H as <- <-. exact (Hp _ _ _ _ E Hw).
Qed.

Lemma after_catch t {A} (p : promise A) (h : error -> promise A) :
  after t p -> (forall e, after t (h e)) -> after t (catch p h).
Proof.
  intros Hp Hh env w r w' H Hw. unfold catch in H.
  destruct (p env w) as [[a|e] w1] eqn:E.
  - injection H as <- <-. exact (Hp _ _ _ _ E Hw).
  - destruct (Hp _ _ _ _ E Hw) as (H1 & evs1 & L1 & F1).
    destruct (Hh e _ _ _ _ H H1) as (H2 & evs2 & L2 & F2).
    split; [exact H2|]. exists (evs1 ++ evs2)%list.
    split; [rewrite L2, L1; symmetry; apply app_assoc | apply Forall_app; auto].
Qed.

Lemma after_perform t {R} (c : call R) : after t (perform c).
Proof.
  intros env w r w' H Hw.
  destruct (perform_shape c env w) as (r0 & t0 & Ht & _ & Hp).
  rewrite Hp in H. injection H as <- <-. cbn [clock log].
  split; [lia|]. eexists. split; [reflexivity|].
  constructor; [cbn [finished_at]; lia | constructor].
Qed.

Lemma after_sleep t (ms : N) : after t (sleep ms).
Proof.
  intros env w r w' H Hw.
  destruct (sleep_shape ms env w) as (t0 & Ht & Hp).
  rewrite Hp in H. injection H as <- <-. cbn [clock log].
  split; [lia|]. eexists. split; [reflexivity|].
  constructor; [cbn [finished_at]; lia | constructor].
Qed.

Lemma added_app (w w' : World) (evs : list event) :
  log w' = (log w ++ evs)%list -> added w w' = evs.
Proof.
  intros H. unfold added. rewrite H.
  rewrite skipn_app, skipn_all, Nat.sub_diag. reflexivity.
Qed.

(* ================================================================== *)
(** * Properties of the trace transaction *)
(* ================================================================== *)

Lemma full_record_split OUT_DIR name actionFn opts env w :
  FullScenario.recordTraceAround OUT_DIR name actionFn opts env w
  = bind (full_open opts) (fun _ => bind actionFn (fun _ => full_close OUT_DIR name)) env w.
Proof.
  unfold FullScenario.recordTraceAround, full_open, full_close, bind.
  destruct ((if FullScenario.reload opts
             then ignore_errors (perform (Goto "about:blank" ["networkidle0"]))
             else ret tt) env w) as [[u|e] w1]; reflexivity.
Qed.

Lemma enhanced_record_split OUT_DIR name actionFn opts env w :
  EnhancedPerf.recordTraceAround OUT_DIR name actionFn opts env w
  = bind (enhanced_open opts) (fun _ => bind actionFn (fun _ => enhanced_close OUT_DIR name)) env w.
Proof.
  unfold EnhancedPerf.recordTraceAround, enhanced_open, enhanced_close, bind.
  destruct ((if EnhancedPerf.reload opts
             then ignore_errors (perform (Goto "about:blank" ["networkidle0"]))
             else ret tt) env w) as [[u|e] w1]; reflexivity.
Qed.

Lemma full_record_resolved OUT_DIR name actionFn opts env w w0 wa :
  full_open opts env w = (Ok tt, w0) ->
  actionFn env w0 = (Ok tt, wa) ->
  FullScenario.recordTraceAround OUT_DIR name actionFn opts env w
  = full_close OUT_DIR name env wa.
Proof.
  intros H0 Ha. rewrite full_record_split.
  rewrite (bind_step _ _ env w tt w0 H0).
  apply (bind_step actionFn (fun _ => full_close OUT_DIR name) env w0 tt wa Ha).
Qed.

Lemma enhanced_record_resolved OUT_DIR name actionFn opts env w w0 wa :
  enhanced_open opts env w = (Ok tt, w0) ->
  actionFn env w0 = (Ok tt, wa) ->
  EnhancedPerf.recordTraceAround OUT_DIR name actionFn opts env w
  = enhanced_close OUT_DIR name env wa.
Proof.
  intros H0 Ha. rewrite enhanced_record_split.
  rewrite (bind_step _ _ env w tt w0 H0).
  apply (bind_step actionFn (fun _ => enhanced_close OUT_DIR name) env w0 tt wa Ha).
Qed.

Lemma record_rejected_full OUT_DIR name actionFn opts env w w0 e wa :
  full_open opts env w = (Ok tt, w0) ->
  actionFn env w0 = (Throw e, wa) ->
  FullScenario.recordTraceAround OUT_DIR name actionFn opts env w = (Throw e, wa).
Proof.
  intros H0 Ha. rewrite full_record_split.
  rewrite (bind_step _ _ env w tt w0 H0).
  apply (bind_Throw actionFn (fun _ => full_close OUT_DIR name) env w0 e wa Ha).
Qed.

Lemma record_rejected_enhanced OUT_DIR name actionFn opts env w w0 e wa :
  enhanced_open opts env w = (Ok tt, w0) ->
  actionFn env w0 = (Throw e, wa) ->
  EnhancedPerf.recordTraceAround OUT_DIR name actionFn opts env w = (Throw e, wa).
Proof.
  intros H0 Ha. rewrite enhanced_record_split.
  rewrite (bind_step _ _ env w tt w0 H0).
  apply (bind_Throw actionFn (fun _ => enhanced_close OUT_DIR name) env w0 e wa Ha).
Qed.

(** Building [after] along the structure of a promise. *)
Ltac after_tac :=
  repeat first
    [ apply after_ret
    | apply after_lift
    | apply after_perform
    | apply after_sleep
    | apply after_bind; [|intros ?]
    | apply after_catch; [|intros ?] ].

Lemma after_summarize t parsed : after t (FullScenario.summarize parsed).
Proof.
  unfold FullScenario.summarize.
  destruct (truthy (js_and parsed (opt_get parsed "parsedTrace"))); after_tac.
Qed.

Lemma after_now t : after t FullScenario.now.
Proof.
  intros env w r w' H Hw. injection H as <- <-.
  split; [exact Hw|]. exists []. split; [symmetry; apply app_nil_r | constructor].
Qed.

Lemma after_save t OUT_DIR name content : after t (FullScenario.save OUT_DIR name content).
Proof. unfold FullScenario.save. after_tac. Qed.

Lemma bind_assoc {A B C} (p : promise A) (f : A -> promise B) (k : B -> promise C) env w :
  bind (bind p f) k env w = bind p (fun a => bind (f a) k) env w.
Proof.
  unfold bind. destruct (p env w) as [[a|e] w1]; reflexivity.
Qed.

Ltac after_steps :=
  repeat first
    [ apply after_summarize | apply after_now | apply after_save
    | apply after_ret | apply after_lift | apply after_perform | apply after_sleep
    | apply after_bind; [|intros ?]
    | apply after_catch; [|intros ?] ].

(** What follows the settle delay of a transaction finishes after it. *)
Lemma full_close_events OUT_DIR name env wa r w' :
  full_close OUT_DIR name env wa = (r, w') ->
  exists t1 ok t2 evs,
    (clock wa + 2500 <= t1)%N /\ (t1 <= t2)%N
    /\ log w' = (log wa ++ Settled (Timer 2500) true t1
                           :: Settled TracingStop ok t2 :: evs)%list
    /\ Forall (fun e => (t2 <= finished_at e)%N) evs.
Proof.
  unfold full_close. intros H.
  destruct (sleep_shape 2500 env wa) as (t1 & Ht1 & Hs).
  rewrite (bind_step _ _ env wa tt _ Hs) in H.
  destruct (perform_shape TracingStop env
              {| clock := t1; log := log wa ++ [Settled (Timer 2500) true t1] |})
    as (rb & t2 & Ht2 & _ & Hp).
  cbn [clock log] in Ht2, Hp.
  exists t1, (returns rb), t2.
  destruct rb as [buffer|e].
  - rewrite (bind_step _ _ env _ buffer _ Hp) in H.
    match type of H with ?prog env _ = _ =>
      assert (after t2 prog) as Hafter by after_steps
    end.
    destruct (Hafter _ _ _ _ H (N.le_refl _)) as (_ & evs & L & F).
    exists evs. cbn [log] in L. rewrite L, <- !app_assoc. auto.
  - rewrite (bind_Throw _ _ env _ e _ Hp) in H. injection H as <- <-.
    exists []. cbn [log]. rewrite <- app_assoc. auto.
Qed.

Lemma enhanced_close_events OUT_DIR name env wa r w' :
  enhanced_close OUT_DIR name env wa = (r, w') ->
  exists t1 ok t2 evs,
    (clock wa + 2500 <= t1)%N /\ (t1 <= t2)%N
    /\ log w' = (log wa ++ Settled (Timer 2500) true t1
                           :: Settled Snapshot ok t2 :: evs)%list
    /\ Forall (fun e => (t2 <= finished_at e)%N) evs.
Proof.
  unfold enhanced_close, EnhancedPerf.getPerformanceMetrics. intros H.
  destruct (sleep_shape 2500 env wa) as (t1 & Ht1 & Hs).
  rewrite (bind_step _ _ env wa tt _ Hs) in H.
  rewrite bind_assoc in H.
  destruct (perform_shape Snapshot env
              {| clock := t1; log := log wa ++ [Settled (Timer 2500) true t1] |})
    as (rb & t2 & Ht2 & _ & Hp).
  cbn [clock log] in Ht2, Hp.
  exists t1, (returns rb), t2.
  destruct rb as [snapshot|e].
  - rewrite (bind_step _ _ env _ snapshot _ Hp) in H.
    match type of H with ?prog env _ = _ =>
      assert (after t2 prog) as Hafter by after_steps
    end.
    destruct (Hafter _ _ _ _ H (N.le_refl _)) as (_ & evs & L & F).
    exists evs. cbn [log] in L. rewrite L, <- !app_assoc. auto.
  - rewrite (bind_Throw _ _ env _ e _ Hp) in H. injection H as <- <-.
    exists []. cbn [log]. rewrite <- app_assoc. auto.
Qed.

(** ** The settle delay *)

Lemma existsb_app_head {A} (f : A -> bool) (x : A) (l l' : list A) :
  f x = true -> existsb f (l ++ x :: l') = true.
Proof.
  intros H. rewrite existsb_app. cbn [existsb]. rewrite H.
  apply orb_true_iff. right. reflexivity.
Qed.

Lemma open_events (reload : bool) (cats : list string) env w r0 w0 :
  bind (if reload
        then ignore_errors (perform (Goto "about:blank" ["networkidle0"]))
        else ret tt)
       (fun _ => perform (TracingStart cats)) env w = (r0, w0) ->
  existsb is_sampling (added w w0) = false.
Proof.
  intros H. unfold bind, ignore_errors, catch, ret in H.
  destruct reload.
  - destruct (perform_shape (Goto "about:blank" ["networkidle0"]) env w)
      as (r1 & t1 & _ & _ & H1).
    rewrite H1 in H.
    destruct (perform_shape (TracingStart cats) env
                {| clock := t1;
                   log := log w ++ [Settled (Goto "about:blank" ["networkidle0"]) (returns r1) t1] |})
      as (r2 & t2 & _ & _ & H2).
    cbn [log] in H2.
    assert (w0 = {| clock := t2;
                    log := (log w ++ [Settled (Goto "about:blank" ["networkidle0"]) (returns r1) t1])
                           ++ [Settled (TracingStart cats) (returns r2) t2] |}) as ->.
    { destruct r1; rewrite H2 in H; injection H as _ <-; reflexivity. }
    rewrite (added_app w _ [Settled (Goto "about:blank" ["networkidle0"]) (returns r1) t1;
                            Settled (TracingStart cats) (returns r2) t2]).
    + reflexivity.
    + cbn [log]. rewrite <- app_assoc. reflexivity.
  - destruct (perform_shape (TracingStart cats) env w) as (r2 & t2 & _ & _ & H2).
    rewrite H2 in H. injection H as _ <-.
    rewrite (added_app w _ [Settled (TracingStart cats) (returns r2) t2]); reflexivity.
Qed.

(** C10. In a traced step the page is sampled only after the settle
    delay: of the events the transaction adds once its action has
    completed at time [clock wa], those that sample the live metrics
    (and, in the full scenario, the stop of the trace) finish at
    [clock wa + 2500] or later, there is such an event, and nothing is
    sampled while the trace is being started. *)
Theorem settle_delay_honoured :
  (forall OUT_DIR name actionFn opts env w w0 wa r w',
      enhanced_open opts env w = (Ok tt, w0) ->
      actionFn env w0 = (Ok tt, wa) ->
      EnhancedPerf.recordTraceAround OUT_DIR name actionFn opts env w = (r, w') ->
      existsb is_sampling (added wa w') = true
      /\ forall e, In e (added wa w') -> is_sampling e = true ->
                   (clock wa + 2500 <= finished_at e)%N)
  /\ (forall opts env w r0 w0,
        enhanced_open opts env w = (r0, w0) ->
        existsb is_sampling (added w w0) = false)
  /\ (forall OUT_DIR name actionFn opts env w w0 wa r w',
        full_open opts env w = (Ok tt, w0) ->
        actionFn env w0 = (Ok tt, wa) ->
        FullScenario.recordTraceAround OUT_DIR name actionFn opts env w = (r, w') ->
        existsb is_tracing_stop (added wa w') = true
        /\ forall e, In e (added wa w') -> (clock wa + 2500 <= finished_at e)%N).
Proof.
  split; [|split].
  - intros OUT_DIR name actionFn opts env w w0 wa r w' H0 Ha H.
    rewrite (enhanced_record_resolved OUT_DIR name actionFn opts env w w0 wa H0 Ha) in H.
    destruct (enhanced_close_events _ _ _ _ _ _ H) as (t1 & ok & t2 & evs & Ht1 & Ht2 & L & F).
    rewrite (added_app wa w' _ L). split.
    + reflexivity.
    + intros e [<-|[<-|Hin]] He; cbn [finished_at]; try lia.
      pose proof (proj1 (Forall_forall _ _) F e Hin) as Hle. cbn beta in Hle. lia.
  - intros opts env w r0 w0 H. exact (open_events _ _ _ _ _ _ H).
  - intros OUT_DIR name actionFn opts env w w0 wa r w' H0 Ha H.
    rewrite (full_record_resolved OUT_DIR name actionFn opts env w w0 wa H0 Ha) in H.
    destruct (full_close_events _ _ _ _ _ _ H) as (t1 & ok & t2 & evs & Ht1 & Ht2 & L & F).
    rewrite (added_app wa w' _ L). split.
    + reflexivity.
    + intros e [<-|[<-|Hin]]; cbn [finished_at]; try lia.
      pose proof (proj1 (Forall_forall _ _) F e Hin) as Hle. cbn beta in Hle. lia.
Qed.

(** The login step of the enhanced script against a page without a
    form: typing fails, the action swallows it, and the page is sampled
    2500 ms after that. *)
Lemma settle_delay_honoured_login :
  clock (acted_in clickless EnhancedPerf.loginAction) = 307%N
  /\ forall e,
       In e (added (acted_in clickless EnhancedPerf.loginAction)
                   (snd (EnhancedPerf.recordTraceAround "out" "login"
                           EnhancedPerf.loginAction EnhancedPerf.defaults
                           clickless start))) ->
       is_sampling e = true ->
       (clock (acted_in clickless EnhancedPerf.loginAction) + 2500 <= finished_at e)%N.
Proof.
  split; [reflexivity|].
  apply (proj1 settle_delay_honoured "out" "login" EnhancedPerf.loginAction
           EnhancedPerf.defaults clickless start (opened_in clickless)
           (acted_in clickless EnhancedPerf.loginAction)
           (fst (EnhancedPerf.recordTraceAround "out" "login"
                   EnhancedPerf.loginAction EnhancedPerf.defaults clickless start))
           (snd (EnhancedPerf.recordTraceAround "out" "login"
                   EnhancedPerf.loginAction EnhancedPerf.defaults clickless start))).
  - reflexivity.
  - reflexivity.
  - reflexivity.
Defined.

(** ** Failure of the action inside a transaction *)

Lemma scripted_tracing_works reachable dom : tracing_works (scripted reachable dom).
Proof.
  repeat split; intros; intros n; eexists; reflexivity.
Qed.

Lemma total_now env : total env FullScenario.now.
Proof. intros w. exists (clock w), w. reflexivity. Qed.

Lemma total_summarize env parsed :
  (forall p, always env (GetTraceSummary p)) ->
  total env (FullScenario.summarize parsed).
Proof.
  intros H. unfold FullScenario.summarize.
  destruct (truthy (js_and parsed (opt_get parsed "parsedTrace")));
    [apply total_perform, H | apply total_ret].
Qed.

Lemma total_save env OUT_DIR name content :
  (forall path c, always env (WriteFile path c)) ->
  total env (FullScenario.save OUT_DIR name content).
Proof.
  intros H. unfold FullScenario.save.
  apply total_bind; [apply total_perform, H | intros _; apply total_ret].
Qed.

Lemma full_close_resolves OUT_DIR name env wa :
  tracing_works env ->
  exists trace w' t1 t2 buffer t3 rest,
    full_close OUT_DIR name env wa = (Ok trace, w')
    /\ log w' = (log wa ++ Settled (Timer 2500) true t1
                           :: Settled TracingStop true t2
                           :: Settled (ParseRawTraceBuffer buffer) true t3 :: rest)%list.
Proof.
  intros (_ & Hstop & Hparse & Hsum & Hwrite & _).
  destruct (sleep_shape 2500 env wa) as (t1 & _ & Hs).
  destruct (perform_always TracingStop env
              {| clock := t1; log := log wa ++ [Settled (Timer 2500) true t1] |} Hstop)
    as (buffer & t2 & _ & H2).
  cbn [clock log] in H2.
  destruct (perform_always (ParseRawTraceBuffer buffer) env
              {| clock := t2;
                 log := (log wa ++ [Settled (Timer 2500) true t1]) ++
                        [Settled TracingStop true t2] |} (Hparse buffer))
    as (parsed & t3 & _ & H3).
  cbn [clock log] in H3.
  unfold full_close.
  rewrite (bind_step _ _ env wa tt _ Hs).
  rewrite (bind_step _ _ env _ buffer _ H2).
  rewrite (bind_step _ _ env _ parsed _ H3).
  match goal with |- exists _ _ _ _ _ _ _, ?prog env ?w3 = _ /\ _ =>
    assert (total env prog) as Htotal;
    [ apply total_bind; [apply total_summarize, Hsum | intros summary];
      apply total_bind; [apply total_now | intros t];
      apply total_bind; [apply total_save, Hwrite | intros file];
      apply total_ret
    | assert (after 0 prog) as Hafter by after_steps;
      destruct (Htotal w3) as (trace & w' & Hrun);
      destruct (Hafter env w3 _ _ Hrun (N.le_0_l _)) as (_ & rest & L & _) ]
  end.
  exists trace, w', t1, t2, buffer, t3, rest.
  split; [exact Hrun|]. rewrite L. cbn [log]. rewrite <- !app_assoc. reflexivity.
Qed.

Lemma enhanced_close_resolves OUT_DIR name env wa :
  tracing_works env ->
  exists trace w' t1 t2 t3 metrics t4 t5 buffer t6,
    enhanced_close OUT_DIR name env wa = (Ok trace, w')
    /\ log w' = (log wa ++
                 [Settled (Timer 2500) true t1;
                  Settled Snapshot true t2;
                  Settled PageMetrics true t3;
                  Settled (WriteJson (OUT_DIR ++ "/" ++ name ++ ".metrics.json") metrics) true t4;
                  Settled TracingStop true t5;
                  Settled (WriteFile (OUT_DIR ++ "/" ++ name ++ ".trace.json") buffer) true t6])%list.
Proof.
  intros (_ & Hstop & _ & _ & Hwrite & Hsnap & Hpm & Hjson).
  destruct (sleep_shape 2500 env wa) as (t1 & _ & Hs).
  set (W1 := {| clock := t1; log := log wa ++ [Settled (Timer 2500) true t1] |}) in Hs.
  destruct (perform_always Snapshot env W1 Hsnap) as (snapshot & t2 & _ & H2).
  set (W2 := {| clock := t2; log := log W1 ++ [Settled Snapshot true t2] |}) in H2.
  destruct (perform_always PageMetrics env W2 Hpm) as (cm & t3 & _ & H3).
  set (W3 := {| clock := t3; log := log W2 ++ [Settled PageMetrics true t3] |}) in H3.
  set (metrics := VObj (EnhancedPerf.properties snapshot ++ [("chromeMetrics", cm)])).
  destruct (perform_always
              (WriteJson (OUT_DIR ++ "/" ++ name ++ ".metrics.json") metrics)
              env W3 (Hjson _ _)) as (u4 & t4 & _ & H4).
  set (W4 := {| clock := t4;
                log := log W3 ++
                  [Settled (WriteJson (OUT_DIR ++ "/" ++ name ++ ".metrics.json") metrics)
                           true t4] |}) in H4.
  destruct (perform_always TracingStop env W4 Hstop) as (buffer & t5 & _ & H5).
  set (W5 := {| clock := t5; log := log W4 ++ [Settled TracingStop true t5] |}) in H5.
  destruct (perform_always
              (WriteFile (OUT_DIR ++ "/" ++ name ++ ".trace.json") buffer)
              env W5 (Hwrite _ _)) as (u6 & t6 & _ & H6).
  exists {| EnhancedPerf.path := OUT_DIR ++ "/" ++ name ++ ".trace.json";
            EnhancedPerf.metricsPath := OUT_DIR ++ "/" ++ name ++ ".metrics.json";
            EnhancedPerf.metrics := metrics |}.
  eexists. exists t1, t2, t3, metrics, t4, t5, buffer, t6.
  unfold enhanced_close, EnhancedPerf.getPerformanceMetrics.
  rewrite (bind_step _ _ env wa tt _ Hs).
  rewrite bind_assoc.
  rewrite (bind_step _ _ env W1 snapshot _ H2).
  rewrite bind_assoc.
  rewrite (bind_step _ _ env W2 cm _ H3).
  unfold bind at 1. cbn [ret]. fold metrics.
  rewrite (bind_step _ _ env W3 u4 _ H4).
  rewrite (bind_step _ _ env W4 buffer _ H5).
  rewrite (bind_step _ _ env W5 u6 _ H6).
  cbn [ret]. split; [reflexivity|].
  subst W5 W4 W3 W2 W1. cbn [log]. rewrite <- !app_assoc. reflexivity.
Qed.

(** The shop cannot be reached: the navigation of the home step is
    rejected, and the transaction is rejected with it, its trace never
    stopped nor decoded and, in the enhanced script, the page never
    sampled. *)
Lemma telemetry_lost_when_action_rejects :
  (let '(r, w) := FullScenario.recordTraceAround "out" "home"
                    (FullScenario.homeAction shop) FullScenario.defaults offline start in
   r = Throw (Rejected "net::ERR_CONNECTION_REFUSED")
   /\ existsb is_tracing_start (log w) = true
   /\ existsb is_tracing_stop (log w) = false
   /\ existsb is_decode (log w) = false)
  /\ (let '(r, w) := EnhancedPerf.recordTraceAround "out" "homepage"
                       (EnhancedPerf.homeAction shop) EnhancedPerf.defaults offline start in
      r = Throw (Rejected "net::ERR_CONNECTION_REFUSED")
      /\ existsb is_tracing_start (log w) = true
      /\ existsb is_tracing_stop (log w) = false
      /\ existsb is_sampling (log w) = false).
Proof. vm_compute. repeat split. Qed.

(** C8 (amended). For every traced step whose action resolves, whatever
    failed inside it and was absorbed there (an element that was not
    found, a navigation that was refused and ignored), the transaction
    goes on to the settle delay, stops the trace, decodes it (or samples
    the page and writes the metrics) and returns its result, as long as
    tracing and the files work.  When the action itself is rejected the
    transaction is rejected at that point. *)
Theorem telemetry_after_absorbed_failure :
  (forall OUT_DIR name actionFn opts env w w0 wa,
      tracing_works env ->
      full_open opts env w = (Ok tt, w0) ->
      actionFn env w0 = (Ok tt, wa) ->
      exists trace w' t1 t2 buffer t3 rest,
        FullScenario.recordTraceAround OUT_DIR name actionFn opts env w = (Ok trace, w')
        /\ added wa w' = Settled (Timer 2500) true t1
                         :: Settled TracingStop true t2
                         :: Settled (ParseRawTraceBuffer buffer) true t3 :: rest)
  /\ (forall OUT_DIR name actionFn opts env w w0 wa,
        tracing_works env ->
        enhanced_open opts env w = (Ok tt, w0) ->
        actionFn env w0 = (Ok tt, wa) ->
        exists trace w' t1 t2 t3 metrics t4 t5 buffer t6,
          EnhancedPerf.recordTraceAround OUT_DIR name actionFn opts env w = (Ok trace, w')
          /\ added wa w' =
             [Settled (Timer 2500) true t1;
              Settled Snapshot true t2;
              Settled PageMetrics true t3;
              Settled (WriteJson (OUT_DIR ++ "/" ++ name ++ ".metrics.json") metrics) true t4;
              Settled TracingStop true t5;
              Settled (WriteFile (OUT_DIR ++ "/" ++ name ++ ".trace.json") buffer) true t6])
  /\ (forall OUT_DIR name actionFn opts env w w0 e wa,
        full_open opts env w = (Ok tt, w0) ->
        actionFn env w0 = (Throw e, wa) ->
        FullScenario.recordTraceAround OUT_DIR name actionFn opts env w = (Throw e, wa))
  /\ (forall OUT_DIR name actionFn opts env w w0 e wa,
        enhanced_open opts env w = (Ok tt, w0) ->
        actionFn env w0 = (Throw e, wa) ->
        EnhancedPerf.recordTraceAround OUT_DIR name actionFn opts env w = (Throw e, wa)).
Proof.
  split; [|split; [|split]].
  - intros OUT_DIR name actionFn opts env w w0 wa Hw H0 Ha.
    destruct (full_close_resolves OUT_DIR name env wa Hw)
      as (trace & w' & t1 & t2 & buffer & t3 & rest & Hrun & L).
    exists trace, w', t1, t2, buffer, t3, rest. split.
    + rewrite (full_record_resolved OUT_DIR name actionFn opts env w w0 wa H0 Ha). exact Hrun.
    + exact (added_app wa w' _ L).
  - intros OUT_DIR name actionFn opts env w w0 wa Hw H0 Ha.
    destruct (enhanced_close_resolves OUT_DIR name env wa Hw)
      as (trace & w' & t1 & t2 & t3 & metrics & t4 & t5 & buffer & t6 & Hrun & L).
    exists trace, w', t1, t2, t3, metrics, t4, t5, buffer, t6. split.
    + rewrite (enhanced_record_resolved OUT_DIR name actionFn opts env w w0 wa H0 Ha). exact Hrun.
    + exact (added_app wa w' _ L).
  - intros. eapply record_rejected_full; eassumption.
  - intros. eapply record_rejected_enhanced; eassumption.
Qed.

(** The sign-in step of the full scenario when no link matches and the
    fallback navigation is refused: the action swallows both, and the
    trace is stopped, decoded and summarised. *)
Lemma telemetry_after_failed_sign_in :
  existsb (is_goto "https://shop.example/actions/Account.action?signonForm=")
          (log (snd (FullScenario.signInAction shop unresponsive
                       (snd (full_open FullScenario.defaults unresponsive start))))) = true
  /\ exists trace w' t1 t2 buffer t3 rest,
       FullScenario.recordTraceAround "out" "sign_in" (FullScenario.signInAction shop)
         FullScenario.defaults unresponsive start = (Ok trace, w')
       /\ added (snd (FullScenario.signInAction shop unresponsive
                        (snd (full_open FullScenario.defaults unresponsive start)))) w'
          = Settled (Timer 2500) true t1
            :: Settled TracingStop true t2
            :: Settled (ParseRawTraceBuffer buffer) true t3 :: rest.
Proof.
  split; [reflexivity|].
  apply (proj1 telemetry_after_absorbed_failure "out" "sign_in"
           (FullScenario.signInAction shop) FullScenario.defaults unresponsive start
           (snd (full_open FullScenario.defaults unresponsive start))).
  - apply scripted_tracing_works.
  - reflexivity.
  - reflexivity.
Defined.

(** ** The action executor *)

(** C9 (defect). The action executor of the full scenario signals a
    failure by a returned value and tries its fallbacks in order, but
    for two slips.  [typeIfExists] turns a rejected
    lookup into the answer false, but its sibling [clickByText] has no
    such guard: when the evaluation in the page is rejected, the
    rejection leaves [clickByText], the sign-in action and the whole
    run, which ends with exit code 1.  And in the view-cart, checkout
    and logout steps the clicks after the first are started without
    being awaited, so that the pending promise counts as a click that
    succeeded: on a page where none of the texts is found, the third
    click of the view-cart step and the fallback navigations of the
    view-cart and logout steps are never attempted, while the sign-in
    step, which awaits its click, does navigate. *)
Theorem click_failure_raises_past_executor :
  fst (FullScenario.typeIfExists "input" "j2ee" stale start) = Ok false
  /\ fst (FullScenario.clickByText "a,button" "Sign In" detached start)
     = Throw (Rejected "Execution context was destroyed")
  /\ fst (FullScenario.signInAction shop detached start)
     = Throw (Rejected "Execution context was destroyed")
  /\ fst (FullScenario.run shop "out" detached start)
     = Throw (Rejected "Execution context was destroyed")
  /\ FullScenario.exitCode shop "out" detached = 1
  /\ found emptyDom "a,button" "Cart" = false
  /\ found emptyDom "a,button" "View Cart" = false
  /\ found emptyDom "a,button" "My Cart" = false
  /\ added start (snd (FullScenario.viewCartAction shop clickless start))
     = [Settled Evaluate true 3; Settled Evaluate true 6;
        Settled (WaitForNavigation (Some 8000%N)) false 8003;
        Settled (Timer 1000) true 9003]
  /\ added start (snd (FullScenario.logoutAction shop clickless start))
     = [Settled Evaluate true 3; Settled Evaluate true 6;
        Settled (WaitForNavigation (Some 8000%N)) false 8003;
        Settled (Timer 1000) true 9003]
  /\ added start (snd (FullScenario.signInAction shop clickless start))
     = [Settled Evaluate true 3;
        Settled (Goto "https://shop.example/actions/Account.action?signonForm=" ["load"])
                true 303;
        Settled (Timer 1000) true 1303].
Proof. vm_compute. repeat split. Qed.

Lemma clickByText_evaluated selectorList txt (env : Browser) w (d : Dom) (took : N) :
  env Dom Evaluate (List.length (log w)) = (Ok d, took) ->
  FullScenario.clickByText selectorList txt env w =
    (Ok (found d selectorList txt),
     {| clock := clock w + took;
        log := (log w ++ [Settled Evaluate true (clock w + took)]) ++
               match FullScenario.firstMatch d (split "," selectorList) txt with
               | Some n => [InPage (Click n) (clock w + took)]
               | None => []
               end |}).
Proof.
  intros H. unfold FullScenario.clickByText, evaluate, perform, found. rewrite H.
  cbn [returns clock log].
  destruct (FullScenario.firstMatch d (split "," selectorList) txt); reflexivity.
Qed.

Lemma viewCart_never_falls_back BASE env w :
  FullScenario.viewCartAction BASE env w =
  bind (FullScenario.clickByText "a,button" "Cart") (fun a =>
  bind (FullScenario.or_start (FullScenario.Awaited a)
          (FullScenario.clickByText "a,button" "View Cart")) (fun b =>
  bind (FullScenario.or_start b (FullScenario.clickByText "a,button" "My Cart")) (fun _ =>
  bind (FullScenario.awaitNavigation 8000) (fun _ => sleep 1000)))) env w.
Proof.
  unfold FullScenario.viewCartAction, bind.
  destruct (FullScenario.clickByText "a,button" "Cart" env w) as [[[|]|e] w1];
    try reflexivity.
  unfold FullScenario.or_start at 1 3. cbn [FullScenario.holds negb].
  unfold bind, unawaited.
  destruct (FullScenario.clickByText "a,button" "View Cart" env w1) as [r2 w2].
  reflexivity.
Qed.

(* ================================================================== *)
(** * Properties of the scenario runners *)
(* ================================================================== *)

Lemma finally_Ok {A} (p : promise A) (q : promise unit) env w (a : A) w' :
  finally p q env w = (Ok a, w') -> exists w1, p env w = (Ok a, w1).
Proof.
  unfold finally. destruct (p env w) as [r w1].
  destruct (q env w1) as [[u|e] w2]; intros H; inversion H; subst; eauto.
Qed.
















(** The default bases of the two scripts are plain, and so is a local
    server; an upper-case scheme, a space, a default port, a dot
    segment, a query and a numeric host are not. *)
Lemma plain_bases :
  map plainBase
      ["https://petstore.octoperf.com/actions/Catalog.action";
       "https://petstore.octoperf.com"; "http://localhost:8080/shop"]
  = [true; true; true]
  /\ map plainBase
       ["HTTP://shop.example"; "https://shop example"; "http://shop.example:80";
        "https://shop.example/a/../b"; "https://shop.example?x=1"; "https://127.0.0.1"]
     = [false; false; false; false; false; false]
  /\ URL "https://petstore.octoperf.com"
     = Ok ("https://petstore.octoperf.com", "https://petstore.octoperf.com/")
  /\ resolveUrl "/actions/Cart.action" "https://petstore.octoperf.com/actions/Catalog.action"
     = Ok "https://petstore.octoperf.com/actions/Cart.action".
Proof. vm_compute. repeat split. Qed.






(* ================================================================== *)
(** * What the runners leave in the log *)
(* ================================================================== *)

Lemma emits_ret P {A} (a : A) : emits P (ret a).
Proof.
  intros env w r w' H. injection H as <- <-.
  exists []. split; [symmetry; apply app_nil_r | constructor].
Qed.

Lemma emits_lift P {A} (x : Result A) : emits P (lift x).
Proof.
  intros env w r w' H. injection H as <- <-.
  exists []. split; [symmetry; apply app_nil_r | constructor].
Qed.

Lemma emits_now P : emits P FullScenario.now.
Proof.
  intros env w r w' H. injection H as <- <-.
  exists []. split; [symmetry; apply app_nil_r | constructor].
Qed.

Lemma emits_bind P {A B} (p : promise A) (k : A -> promise B) :
  emits P p -> (forall a, emits P (k a)) -> emits P (bind p k).
Proof.
  intros Hp Hk env w r w' H. unfold bind in H.
  destruct (p env w) as [[a|e] w1] eqn:E.
  - destruct (Hp _ _ _ _ E) as (evs1 & L1 & F1).
    destruct (Hk a _ _ _ _ H) as (evs2 & L2 & F2).
    exists (evs1 ++ evs2)%list.
    split; [rewrite L2, L1; symmetry; apply app_assoc | apply Forall_app; auto].
  - injection H as <- <-. exact (Hp _ _ _ _ E).
Qed.

Lemma emits_catch P {A} (p : promise A) (h : error -> promise A) :
  emits P p -> (forall e, emits P (h e)) -> emits P (catch p h).
Proof.
  intros Hp Hh env w r w' H. unfold catch in H.
  destruct (p env w) as [[a|e] w1] eqn:E.
  - injection H as <- <-. exact (Hp _ _ _ _ E).
  - destruct (Hp _ _ _ _ E) as (evs1 & L1 & F1).
    destruct (Hh e _ _ _ _ H) as (evs2 & L2 & F2).
    exists (evs1 ++ evs2)%list.
    split; [rewrite L2, L1; symmetry; apply app_assoc | apply Forall_app; auto].
Qed.

Lemma emits_ignore_errors P (p : promise unit) : emits P p -> emits P (ignore_errors p).
Proof. intros H. apply emits_catch; [exact H | intros e; apply emits_ret]. Qed.

Lemma emits_perform (P : event -> Prop) {R} (c : call R) :
  (forall ok t, P (Settled c ok t)) -> emits P (perform c).
Proof.
  intros HP env w r w' H.
  destruct (perform_shape c env w) as (r0 & t0 & _ & _ & Hp).
  rewrite Hp in H. injection H as <- <-. cbn [log].
  eexists. split; [reflexivity|]. constructor; [apply HP | constructor].
Qed.

Lemma emits_sleep (P : event -> Prop) (ms : N) :
  (forall ok t, P (Settled (Timer ms) ok t)) -> emits P (sleep ms).
Proof.
  intros HP env w r w' H.
  destruct (sleep_shape ms env w) as (t0 & _ & Hp).
  rewrite Hp in H. injection H as <- <-. cbn [log].
  eexists. split; [reflexivity|]. constructor; [apply HP | constructor].
Qed.

Lemma emits_evaluate (P : event -> Prop) {A} (fn : Dom -> A * list effect) :
  (forall ok t, P (Settled Evaluate ok t)) ->
  (forall d t, Forall (fun ef => P (InPage ef t)) (snd (fn d))) ->
  emits P (evaluate fn).
Proof.
  intros HP HI env w r w' H. unfold evaluate in H.
  destruct (perform_shape Evaluate env w) as (r0 & t0 & _ & _ & Hp).
  rewrite Hp in H. destruct r0 as [d|e].
  - specialize (HI d t0). destruct (fn d) as [a effects].
    injection H as <- <-. cbn [log clock].
    exists (Settled Evaluate (returns (Ok d)) t0 :: map (fun ef => InPage ef t0) effects).
    split; [rewrite <- app_assoc; reflexivity|].
    constructor; [apply HP|]. apply Forall_map. exact HI.
  - injection H as <- <-. cbn [log].
    eexists. split; [reflexivity|]. constructor; [apply HP | constructor].
Qed.

Lemma emits_unawaited P {A} (p : promise A) : emits P p -> emits P (unawaited p).
Proof.
  intros Hp env w r w' H. unfold unawaited in H.
  destruct (p env w) as [r1 w1] eqn:E. injection H as <- <-. cbn [log].
  exact (Hp _ _ _ _ E).
Qed.

Lemma together_log P {A B} (p : promise A) (q : promise B) env w x y l :
  emits P p -> emits P q ->
  together p q env w = (x, y, l) ->
  exists evs, l = (log w ++ evs)%list /\ Forall P evs.
Proof.
  intros Hp Hq H. unfold together in H.
  destruct (p env w) as [ra wa] eqn:Ea.
  destruct (q env {| clock := clock w; log := log wa |}) as [rb wb] eqn:Eb.
  injection H as _ _ <-.
  destruct (Hp _ _ _ _ Ea) as (evs1 & L1 & F1).
  destruct (Hq _ _ _ _ Eb) as (evs2 & L2 & F2). cbn [log] in L2.
  exists (evs1 ++ evs2)%list.
  split; [rewrite L2, L1; symmetry; apply app_assoc | apply Forall_app; auto].
Qed.

Lemma emits_race P {A} (p q : promise A) :
  emits P p -> emits P q -> emits P (Promise_race p q).
Proof.
  intros Hp Hq env w r w' H. unfold Promise_race in H.
  destruct (together p q env w) as [[[ra ta] [rb tb]] l] eqn:E.
  destruct (together_log P p q env w _ _ _ Hp Hq E) as (evs & L & F).
  exists evs. split; [|exact F].
  destruct (ta <=? tb)%N; injection H as <- <-; exact L.
Qed.

Lemma emits_all P {A B} (p : promise A) (q : promise B) :
  emits P p -> emits P q -> emits P (Promise_all p q).
Proof.
  intros Hp Hq env w r w' H. unfold Promise_all in H.
  destruct (together p q env w) as [[[ra ta] [rb tb]] l] eqn:E.
  destruct (together_log P p q env w _ _ _ Hp Hq E) as (evs & L & F).
  exists evs. split; [|exact F].
  destruct ra as [a|ea], rb as [b|eb]; try destruct (ta <=? tb)%N;
    injection H as <- <-; exact L.
Qed.

(** Building [emits] along the structure of a promise, for a property
    of events that is decided by computation. *)
Ltac emits_tac :=
  repeat first
    [ apply emits_ret
    | apply emits_lift
    | apply emits_now
    | apply emits_perform; intros; reflexivity
    | apply emits_sleep; intros; reflexivity
    | apply emits_bind; [|intros ?]
    | apply emits_catch; [|intros ?]
    | apply emits_ignore_errors
    | apply emits_unawaited
    | apply emits_race
    | apply emits_all
    | match goal with
      | |- emits _ (if ?b then _ else _) => destruct b
      | |- emits _ (match ?o with Some _ => _ | None => _ end) => destruct o
      end ].

Lemma existsb_Forall_false {A} (f : A -> bool) (l : list A) :
  Forall (fun x => f x = false) l -> existsb f l = false.
Proof.
  induction 1 as [|x l Hx _ IH]; [reflexivity|].
  cbn [existsb]. rewrite Hx, IH. reflexivity.
Qed.

Lemma rejects_within_bind P {A B} (p : promise A) (k : A -> promise B) :
  emits P p -> (forall a, rejects_within P (k a)) -> rejects_within P (bind p k).
Proof.
  intros Hp Hk env w e w' H. unfold bind in H.
  destruct (p env w) as [[a|e1] w1] eqn:E.
  - destruct (Hp _ _ _ _ E) as (evs1 & L1 & F1).
    destruct (Hk a _ _ _ _ H) as (evs2 & L2 & F2).
    exists (evs1 ++ evs2)%list.
    split; [rewrite L2, L1; symmetry; apply app_assoc | apply Forall_app; auto].
  - injection H as <- <-. exact (Hp _ _ _ _ E).
Qed.

Lemma emits_enhanced_getPerformanceMetrics (P : event -> Prop) :
  (forall ok t, P (Settled Snapshot ok t)) ->
  (forall ok t, P (Settled PageMetrics ok t)) ->
  emits P EnhancedPerf.getPerformanceMetrics.
Proof.
  intros H1 H2. unfold EnhancedPerf.getPerformanceMetrics.
  apply emits_bind; [apply emits_perform, H1 | intros m].
  apply emits_bind; [apply emits_perform, H2 | intros c]. apply emits_ret.
Qed.

(** A transaction of the enhanced scenario never closes the browser
    when its action does not. *)
Lemma enhanced_record_keeps_open OUT_DIR name actionFn opts :
  emits (fun e => is_closed e = false) actionFn ->
  emits (fun e => is_closed e = false)
        (EnhancedPerf.recordTraceAround OUT_DIR name actionFn opts).
Proof.
  intros Ha. unfold EnhancedPerf.recordTraceAround. cbv zeta.
  apply emits_bind; [destruct (EnhancedPerf.reload opts); emits_tac | intros _].
  apply emits_bind; [emits_tac | intros _].
  apply emits_bind; [exact Ha | intros _].
  apply emits_bind; [emits_tac | intros _].
  apply emits_bind;
    [apply emits_enhanced_getPerformanceMetrics; intros; reflexivity | intros metrics].
  emits_tac.
Qed.

Lemma enhanced_actions_keep_open BASE o :
  let P := fun e => is_closed e = false in
  emits P (EnhancedPerf.homeAction BASE)
  /\ emits P (EnhancedPerf.signInAction o)
  /\ emits P EnhancedPerf.loginAction
  /\ emits P (EnhancedPerf.fishAction o)
  /\ emits P EnhancedPerf.productAction
  /\ emits P EnhancedPerf.addToCartAction
  /\ emits P (EnhancedPerf.viewCartAction o)
  /\ emits P EnhancedPerf.checkoutAction
  /\ emits P (EnhancedPerf.logoutAction o).
Proof.
  intros P. subst P.
  unfold EnhancedPerf.homeAction, EnhancedPerf.signInAction, EnhancedPerf.loginAction,
    EnhancedPerf.fishAction, EnhancedPerf.productAction, EnhancedPerf.addToCartAction,
    EnhancedPerf.viewCartAction, EnhancedPerf.checkoutAction, EnhancedPerf.logoutAction,
    EnhancedPerf.clickOrGoto, EnhancedPerf.clickAndWait, EnhancedPerf.waitForLoad.
  repeat split; emits_tac.
Qed.

(** X1. When the enhanced scenario fails, at whatever step, the browser
    it launched has not been closed: [browser.close()] is the last
    statement of the [try] block and there is no [finally]. *)
Theorem browser_left_open_on_failure BASE OUT_DIR (env : Browser) w e w' :
  EnhancedPerf.scenario BASE OUT_DIR env w = (Throw e, w') ->
  existsb is_closed (added w w') = false.
Proof.
  intros H.
  assert (rejects_within (fun ev => is_closed ev = false)
            (EnhancedPerf.scenario BASE OUT_DIR)) as R.
  { unfold EnhancedPerf.scenario, EnhancedPerf.ensureOut. cbv zeta.
    do 5 (apply rejects_within_bind; [emits_tac | intros _]).
    apply rejects_within_bind; [emits_tac | intros [o href]].
    destruct (enhanced_actions_keep_open href o)
      as (A1 & A2 & A3 & A4 & A5 & A6 & A7 & A8 & A9).
    do 9 (apply rejects_within_bind;
          [apply enhanced_record_keeps_open; assumption | intros ?]).
    apply rejects_within_bind; [emits_tac | intros _].
    intros env0 w0 e0 w0' H0. unfold bind in H0.
    destruct (perform_shape BrowserClose env0 w0) as (r & t & _ & _ & Hp).
    rewrite Hp in H0. destruct r as [u|e1]; [discriminate|].
    injection H0 as <- <-. cbn [log].
    eexists. split; [reflexivity|]. repeat constructor. }
  destruct (R env w e w' H) as (evs & L & F).
  rewrite (added_app _ _ _ L). apply existsb_Forall_false, F.
Qed.

Lemma browser_left_open_when_offline :
  fst (EnhancedPerf.scenario shop "out" offline start)
    = Throw (Rejected "net::ERR_CONNECTION_REFUSED")
  /\ existsb is_closed
       (added start (snd (EnhancedPerf.scenario shop "out" offline start))) = false.
Proof.
  split; [vm_compute; reflexivity|].
  apply (browser_left_open_on_failure shop "out" offline start
           (Rejected "net::ERR_CONNECTION_REFUSED")).
  vm_compute. reflexivity.
Defined.

(** X2. In an environment in which no evaluation in the page is
    rejected, so that none of the clicks the view-cart, checkout and
    logout steps start without awaiting can reject behind the run, a
    run of the full scenario that has launched the browser closes it
    as its last operation, whether its steps resolved or raised, and
    settles as its steps did: a failure to close is swallowed. *)
Theorem browser_closed_after_every_run BASE OUT_DIR (env : Browser) w r w' :
  always env (Mkdir OUT_DIR) ->
  always env Launch ->
  always env Evaluate ->
  FullScenario.run BASE OUT_DIR env w = (r, w') ->
  exists w1 w2 ok t,
    FullScenario.steps BASE OUT_DIR env w1 = (r, w2)
    /\ log w' = (log w2 ++ [Settled BrowserClose ok t])%list
    /\ final (log w') = Some (Settled BrowserClose ok t).
Proof.
  intros Hm Hl _ H. unfold FullScenario.run, FullScenario.ensureOut in H.
  destruct (perform_always (Mkdir OUT_DIR) env w Hm) as (u1 & t1 & _ & H1).
  rewrite (bind_step _ _ env w u1 _ H1) in H.
  match type of H with bind _ _ env ?w1 = _ =>
    destruct (perform_always Launch env w1 Hl) as (u2 & t2 & _ & H2)
  end.
  rewrite (bind_step _ _ env _ u2 _ H2) in H.
  unfold finally, ignore_errors, catch in H.
  match type of H with context [FullScenario.steps BASE OUT_DIR env ?w1] =>
    exists w1; destruct (FullScenario.steps BASE OUT_DIR env w1) as [r1 w2]
  end.
  destruct (perform_shape BrowserClose env w2) as (rc & tc & _ & _ & Hc).
  rewrite Hc in H.
  exists w2, (returns rc), tc.
  assert (r = r1 /\ w' = {| clock := tc;
                            log := log w2 ++ [Settled BrowserClose (returns rc) tc] |})
    as [-> ->].
  { destruct rc as [[]|ec]; cbn [ret] in H; injection H as <- <-; split; reflexivity. }
  cbn [log]. repeat split. rewrite final_app. reflexivity.
Qed.

Lemma browser_closed_when_offline :
  fst (FullScenario.run shop "out" offline start)
    = Throw (Rejected "net::ERR_CONNECTION_REFUSED")
  /\ exists w1 w2 ok t,
       FullScenario.steps shop "out" offline w1
         = (fst (FullScenario.run shop "out" offline start), w2)
       /\ log (snd (FullScenario.run shop "out" offline start))
          = (log w2 ++ [Settled BrowserClose ok t])%list
       /\ final (log (snd (FullScenario.run shop "out" offline start)))
          = Some (Settled BrowserClose ok t).
Proof.
  split; [vm_compute; reflexivity|].
  apply (browser_closed_after_every_run shop "out" offline start).
  - intros n. eexists. reflexivity.
  - intros n. eexists. reflexivity.
  - intros n. eexists. reflexivity.
  - apply surjective_pairing.
Defined.

(* ================================================================== *)
(** * The helpers of the full scenario *)
(* ================================================================== *)

Lemma emits_clickByText (P : event -> Prop) selectorList txt :
  (forall ok t, P (Settled Evaluate ok t)) ->
  (forall ef t, P (InPage ef t)) ->
  emits P (FullScenario.clickByText selectorList txt).
Proof.
  intros H1 H2. unfold FullScenario.clickByText. apply emits_evaluate; [exact H1|].
  intros d t. destruct (FullScenario.firstMatch d (split "," selectorList) txt);
    repeat constructor. apply H2.
Qed.

Lemma emits_or_start (P : event -> Prop) a p :
  emits P p -> emits P (FullScenario.or_start a p).
Proof.
  intros H. unfold FullScenario.or_start. destruct (FullScenario.holds a).
  - apply emits_ret.
  - apply emits_bind; [apply emits_unawaited, H | intros _; apply emits_ret].
Qed.

Lemma logout_never_falls_back BASE env w :
  FullScenario.logoutAction BASE env w =
  bind (FullScenario.clickByText "a,button" "Sign Out") (fun a =>
  bind (FullScenario.or_start (FullScenario.Awaited a)
          (FullScenario.clickByText "a,button" "Logout")) (fun _ =>
  bind (FullScenario.awaitNavigation 8000) (fun _ => sleep 1000))) env w.
Proof.
  unfold FullScenario.logoutAction, bind.
  destruct (FullScenario.clickByText "a,button" "Sign Out" env w) as [[[|]|e] w1];
    try reflexivity.
  unfold FullScenario.or_start. cbn [FullScenario.holds negb].
  unfold bind, unawaited.
  destruct (FullScenario.clickByText "a,button" "Logout" env w1) as [r2 w2].
  reflexivity.
Qed.

Lemma checkout_never_falls_back env w :
  FullScenario.checkoutAction env w =
  bind (FullScenario.clickByText "a,button" "Proceed to Checkout") (fun a =>
  bind (FullScenario.or_start (FullScenario.Awaited a)
          (FullScenario.clickByText "a,button" "Proceed")) (fun _ =>
  bind (FullScenario.awaitNavigation 8000) (fun _ => sleep 1000))) env w.
Proof.
  unfold FullScenario.checkoutAction, bind.
  destruct (FullScenario.clickByText "a,button" "Proceed to Checkout" env w)
    as [[[|]|e] w1]; try reflexivity.
  unfold FullScenario.or_start. cbn [FullScenario.holds negb].
  unfold bind, unawaited.
  destruct (FullScenario.clickByText "a,button" "Proceed" env w1) as [r2 w2].
  reflexivity.
Qed.

Ltac clicks_only :=
  repeat first
    [ apply emits_clickByText; intros; reflexivity
    | apply emits_or_start
    | apply emits_bind; [|intros ?]
    | apply emits_ignore_errors
    | apply emits_perform; intros; reflexivity
    | apply emits_sleep; intros; reflexivity ].

(** X3. The view-cart and logout steps of the full scenario never
    navigate, whatever the page shows and however the browser answers:
    the value they test before their fallback navigation is a pending
    promise, so the fallback is dead code.  The same holds for the
    in-page fallback of the checkout step, which behaves as the step
    without it. *)
Theorem unawaited_clicks_disable_fallbacks BASE (env : Browser) w :
  existsb is_navigation (added w (snd (FullScenario.viewCartAction BASE env w))) = false
  /\ existsb is_navigation (added w (snd (FullScenario.logoutAction BASE env w))) = false
  /\ FullScenario.checkoutAction env w =
     bind (FullScenario.clickByText "a,button" "Proceed to Checkout") (fun a =>
     bind (FullScenario.or_start (FullScenario.Awaited a)
             (FullScenario.clickByText "a,button" "Proceed")) (fun _ =>
     bind (FullScenario.awaitNavigation 8000) (fun _ => sleep 1000))) env w.
Proof.
  split; [|split; [|apply checkout_never_falls_back]].
  - rewrite viewCart_never_falls_back.
    match goal with |- context [snd (?p env w)] =>
      assert (emits (fun e => is_navigation e = false) p) as E
    end.
    { unfold FullScenario.awaitNavigation. clicks_only. }
    match goal with |- context [snd (?p env w)] =>
      destruct (p env w) as [r w'] eqn:R
    end.
    destruct (E _ _ _ _ R) as (evs & L & F). cbn [snd].
    rewrite (added_app _ _ _ L). apply existsb_Forall_false, F.
  - rewrite logout_never_falls_back.
    match goal with |- context [snd (?p env w)] =>
      assert (emits (fun e => is_navigation e = false) p) as E
    end.
    { unfold FullScenario.awaitNavigation. clicks_only. }
    match goal with |- context [snd (?p env w)] =>
      destruct (p env w) as [r w'] eqn:R
    end.
    destruct (E _ _ _ _ R) as (evs & L & F). cbn [snd].
    rewrite (added_app _ _ _ L). apply existsb_Forall_false, F.
Qed.

(** X4. [typeIfExists] never raises, and it answers true exactly when
    it has typed: the element was found, selected by a triple click and
    the text typed into that same element, every operation having
    resolved. *)
Theorem typeIfExists_true_iff_typed selector value (env : Browser) w r w' :
  FullScenario.typeIfExists selector value env w = (r, w') ->
  exists b,
    r = Ok b
    /\ (b = true <->
        exists n t1 t2 t3,
          added w w' = [Settled (Query selector) true t1;
                        Settled (HandleClick n 3) true t2;
                        Settled (HandleType n value) true t3]).
Proof.
  unfold FullScenario.typeIfExists, catch, bind.
  destruct (perform_shape (Query selector) env w) as (r0 & t & _ & _ & Hp). rewrite Hp.
  destruct r0 as [[n|]|e].
  - match goal with |- context [perform (HandleClick n 3) env ?w1] =>
      destruct (perform_shape (HandleClick n 3) env w1) as (r1 & t1 & _ & _ & H1)
    end.
    rewrite H1. destruct r1 as [u|e1].
    + match goal with |- context [perform (HandleType n value) env ?w2] =>
        destruct (perform_shape (HandleType n value) env w2) as (r2 & t2 & _ & _ & H2)
      end.
      rewrite H2. destruct r2 as [u2|e2]; cbn [ret returns log];
        intros H; injection H as <- <-.
      * exists true. split; [reflexivity|]. split; [intros _ | reflexivity].
        exists n, t, t1, t2. apply added_app. cbn [log].
        rewrite <- !app_assoc. reflexivity.
      * exists false. split; [reflexivity|]. split; [discriminate|].
        intros (n' & a1 & a2 & a3 & E).
        rewrite (added_app w _ [Settled (Query selector) true t;
                                Settled (HandleClick n 3) true t1;
                                Settled (HandleType n value) false t2]) in E
          by (cbn [log]; rewrite <- !app_assoc; reflexivity).
        discriminate E.
    + cbn [ret returns log]. intros H; injection H as <- <-.
      exists false. split; [reflexivity|]. split; [discriminate|].
      intros (n' & a1 & a2 & a3 & E).
      rewrite (added_app w _ [Settled (Query selector) true t;
                              Settled (HandleClick n 3) false t1]) in E
        by (cbn [log]; rewrite <- !app_assoc; reflexivity).
      discriminate E.
  - cbn [ret returns log]. intros H; injection H as <- <-.
    exists false. split; [reflexivity|]. split; [discriminate|].
    intros (n' & a1 & a2 & a3 & E).
    rewrite (added_app w _ [Settled (Query selector) true t]) in E by reflexivity.
    discriminate E.
  - cbn [ret returns log]. intros H; injection H as <- <-.
    exists false. split; [reflexivity|]. split; [discriminate|].
    intros (n' & a1 & a2 & a3 & E).
    rewrite (added_app w _ [Settled (Query selector) false t]) in E by reflexivity.
    discriminate E.
Qed.

Lemma typeIfExists_user_name :
  FullScenario.typeIfExists "input" "j2ee" (scripted (fun _ => true) loginDom) start
    = (Ok true,
       {| clock := 22;
          log := [Settled (Query "input") true 2%N;
                  Settled (HandleClick userField 3) true 12%N;
                  Settled (HandleType userField "j2ee") true 22%N] |})
  /\ exists b,
       Ok true = Ok b
       /\ (b = true <->
           exists n t1 t2 t3,
             added start
               {| clock := 22;
                  log := [Settled (Query "input") true 2%N;
                          Settled (HandleClick userField 3) true 12%N;
                          Settled (HandleType userField "j2ee") true 22%N] |}
             = [Settled (Query "input") true t1;
                Settled (HandleClick n 3) true t2;
                Settled (HandleType n "j2ee") true t3]).
Proof.
  split; [vm_compute; reflexivity|].
  apply (typeIfExists_true_iff_typed "input" "j2ee" (scripted (fun _ => true) loginDom) start).
  vm_compute. reflexivity.
Defined.

Lemma firstMatch_found (d : Dom) (txt : string) (n : Node) :
  forall sels,
    FullScenario.firstMatch d sels txt = Some n ->
    exists before sel rest,
      sels = (before ++ sel :: rest)%list
      /\ (forall s m, In s before -> In m (querySelectorAll d s) ->
                      FullScenario.matchesText txt m = false)
      /\ find (FullScenario.matchesText txt) (querySelectorAll d sel) = Some n.
Proof.
  induction sels as [|sel sels IH]; [discriminate|].
  cbn [FullScenario.firstMatch].
  destruct (find (FullScenario.matchesText txt) (querySelectorAll d sel)) as [m|] eqn:E.
  - intros H. injection H as ->.
    exists [], sel, sels. repeat split; [intros s m [] | exact E].
  - intros H. destruct (IH H) as (before & sel' & rest & -> & Hb & Hf).
    exists (sel :: before), sel', rest. repeat split; [|exact Hf].
    intros s m [<-|Hs] Hm.
    + apply (find_none _ _ E _ Hm).
    + apply (Hb s m Hs Hm).
Qed.

(** X5. [clickByText] clicks at most one element, and only one whose
    trimmed text contains the wanted text, case ignored: the first such
    element of the first selector of the list, in the order written,
    that has one.  It answers true when it has clicked. *)
Theorem clickByText_clicks_first_match selectorList txt (env : Browser) w r w' ef t :
  FullScenario.clickByText selectorList txt env w = (r, w') ->
  In (InPage ef t) (added w w') ->
  exists d n before sel rest,
    fst (env Dom Evaluate (List.length (log w))) = Ok d
    /\ r = Ok true
    /\ added w w' = [Settled Evaluate true t; InPage (Click n) t]
    /\ ef = Click n
    /\ FullScenario.matchesText txt n = true
    /\ split "," selectorList = (before ++ sel :: rest)%list
    /\ (forall s m, In s before -> In m (querySelectorAll d s) ->
                    FullScenario.matchesText txt m = false)
    /\ find (FullScenario.matchesText txt) (querySelectorAll d sel) = Some n.
Proof.
  intros H Hin.
  destruct (env Dom Evaluate (List.length (log w))) as [[d|e] took] eqn:E.
  - rewrite (clickByText_evaluated selectorList txt env w d took E) in H.
    injection H as <- <-. unfold found.
    destruct (FullScenario.firstMatch d (split "," selectorList) txt) as [n|] eqn:F.
    + rewrite (added_app w _ [Settled Evaluate true (clock w + took);
                              InPage (Click n) (clock w + took)]) in Hin |- *
        by (cbn [log]; rewrite <- app_assoc; reflexivity).
      destruct Hin as [Hin|[Hin|[]]]; [discriminate Hin|].
      injection Hin as <- <-.
      destruct (firstMatch_found d txt n _ F) as (before & sel & rest & Hs & Hb & Hf).
      exists d, n, before, sel, rest. repeat split; try assumption.
      apply (find_some _ _ Hf).
    + rewrite (added_app w _ [Settled Evaluate true (clock w + took)]) in Hin
        by (cbn [log]; rewrite app_nil_r; reflexivity).
      destruct Hin as [Hin|[]]. discriminate Hin.
  - unfold FullScenario.clickByText, evaluate, perform in H. rewrite E in H.
    injection H as <- <-.
    rewrite (added_app w _ [Settled Evaluate false (clock w + took)]) in Hin by reflexivity.
    destruct Hin as [Hin|[]]. discriminate Hin.
Qed.

Lemma clickByText_clicks_sign_in :
  In (InPage (Click signInLink) 3%N)
     (added start (snd (FullScenario.clickByText "button,a" "sign in"
                          (scripted (fun _ => true) shopDom) start)))
  /\ exists d n before sel rest,
       fst (scripted (fun _ => true) shopDom Dom Evaluate 0) = Ok d
       /\ fst (FullScenario.clickByText "button,a" "sign in"
                 (scripted (fun _ => true) shopDom) start) = Ok true
       /\ added start (snd (FullScenario.clickByText "button,a" "sign in"
                              (scripted (fun _ => true) shopDom) start))
          = [Settled Evaluate true 3%N; InPage (Click n) 3%N]
       /\ Click signInLink = Click n
       /\ FullScenario.matchesText "sign in" n = true
       /\ split "," "button,a" = (before ++ sel :: rest)%list
       /\ (forall s m, In s before -> In m (querySelectorAll d s) ->
                       FullScenario.matchesText "sign in" m = false)
       /\ find (FullScenario.matchesText "sign in") (querySelectorAll d sel) = Some n.
Proof.
  assert (In (InPage (Click signInLink) 3%N)
            (added start (snd (FullScenario.clickByText "button,a" "sign in"
                                 (scripted (fun _ => true) shopDom) start)))) as Hin.
  { vm_compute. right. left. reflexivity. }
  split; [exact Hin|].
  apply (clickByText_clicks_first_match "button,a" "sign in"
           (scripted (fun _ => true) shopDom) start _ _ (Click signInLink) 3%N
           (surjective_pairing _) Hin).
Defined.

(* ================================================================== *)
(** * The interaction and long-task observers *)
(* ================================================================== *)

Lemma Math_max_Fin (a b : Q) :
  exists m, Math_max (Fin a) (Fin b) = Fin m
            /\ (a <= m)%Q /\ (b <= m)%Q /\ (m = a \/ m = b).
Proof.
  unfold Math_max, num_ltb. destruct (Qle_bool b a) eqn:E; cbn [negb].
  - exists a. apply Qle_bool_iff in E.
    repeat split; [apply Qle_refl | exact E | left; reflexivity].
  - exists b. repeat split; [|apply Qle_refl | right; reflexivity].
    apply Qlt_le_weak, Qnot_le_lt. intro H. apply Qle_bool_iff in H. congruence.
Qed.

Lemma onInteraction_max (entries : list Interaction) :
  forall m0 : Q,
  exists m,
    fold_left (fun acc entry => Math_max acc (Fin (interaction_duration entry)))
              entries (Fin m0) = Fin m
    /\ (m0 <= m)%Q
    /\ (forall e, In e entries -> (interaction_duration e <= m)%Q)
    /\ (m = m0 \/ exists e, In e entries /\ m = interaction_duration e).
Proof.
  induction entries as [|x entries IH]; intros m0.
  - exists m0. repeat split; [apply Qle_refl | intros e [] | left; reflexivity].
  - cbn [fold_left].
    destruct (Math_max_Fin m0 (interaction_duration x)) as (m1 & -> & H0 & Hx & Hor).
    destruct (IH m1) as (m & Hm & H1 & Hall & Hex).
    exists m. split; [exact Hm|]. split; [eapply Qle_trans; eassumption|]. split.
    + intros e [<-|He]; [eapply Qle_trans; eassumption | apply Hall, He].
    + destruct Hex as [-> | (e & He & ->)].
      * destruct Hor as [-> | ->]; [left; reflexivity|].
        right. exists x. split; [left|]; reflexivity.
      * right. exists e. split; [right; exact He | reflexivity].
Qed.

Lemma maxINP_fold (batches : list batch) :
  forall d (m0 : Q),
    maxINP d = Fin m0 ->
    exists m,
      maxINP (fold_left deliver batches d) = Fin m
      /\ (m0 <= m)%Q
      /\ (forall e, In e (interactions batches) -> (interaction_duration e <= m)%Q)
      /\ (m = m0 \/ exists e, In e (interactions batches) /\ m = interaction_duration e).
Proof.
  induction batches as [|b batches IH]; intros d m0 H0.
  - exists m0. repeat split; [exact H0 | apply Qle_refl | intros e [] | left; reflexivity].
  - cbn [fold_left].
    assert (exists m1,
               maxINP (deliver d b) = Fin m1 /\ (m0 <= m1)%Q
               /\ (forall e, In e (interactions [b]) -> (interaction_duration e <= m1)%Q)
               /\ (m1 = m0 \/ exists e, In e (interactions [b])
                                        /\ m1 = interaction_duration e)) as (m1 & E1 & L1 & A1 & X1).
    { destruct b as [l|l|l|l];
        try (exists m0; cbn [deliver]; repeat split;
             [ first [exact H0 | unfold onLcp; destruct (0 <? List.length l)%nat; exact H0]
             | apply Qle_refl | intros e [] | left; reflexivity ]).
      cbn [deliver onInteraction maxINP]. rewrite H0.
      destruct (onInteraction_max l m0) as (m & Hm & Hle & Hall & Hex).
      exists m. unfold interactions. cbn [flat_map]. rewrite app_nil_r.
      repeat split; assumption. }
    destruct (IH (deliver d b) m1 E1) as (m & Hm & Hle & Hall & Hex).
    exists m. split; [exact Hm|]. split; [eapply Qle_trans; eassumption|].
    unfold interactions in *. cbn [flat_map] in *. rewrite app_nil_r in A1, X1.
    split.
    + intros e He. apply in_app_or in He. destruct He as [He|He].
      * eapply Qle_trans; [apply A1, He | exact Hle].
      * apply Hall, He.
    + destruct Hex as [-> | (e & He & ->)].
      * destruct X1 as [-> | (e & He & ->)]; [left; reflexivity|].
        right. exists e. split; [apply in_or_app; left; exact He | reflexivity].
      * right. exists e. split; [apply in_or_app; right; exact He | reflexivity].
Qed.

Lemma maxINP_kept (batches : list batch) :
  forall d,
    existsb is_interaction_batch batches = false ->
    maxINP (fold_left deliver batches d) = maxINP d.
Proof.
  induction batches as [|b batches IH]; intros d H; [reflexivity|].
  cbn [existsb] in H. apply orb_false_iff in H. destruct H as [Hb Hr].
  cbn [fold_left]. rewrite (IH _ Hr).
  destruct b as [l|l|l|l]; try discriminate Hb; try reflexivity.
  cbn [deliver]. unfold onLcp. destruct (0 <? List.length l)%nat; reflexivity.
Qed.

Lemma win_INP_fold (batches : list batch) :
  forall d,
    win_INP (fold_left deliver batches d) =
    if existsb is_interaction_batch batches
    then Some (maxINP (fold_left deliver batches d))
    else win_INP d.
Proof.
  induction batches as [|b batches IH]; intros d; [reflexivity|].
  cbn [fold_left existsb]. rewrite IH.
  destruct (existsb is_interaction_batch batches) eqn:E.
  - rewrite orb_true_r. reflexivity.
  - rewrite orb_false_r, (maxINP_kept _ _ E).
    destruct b as [l|l|l|l]; try reflexivity.
    cbn [deliver]. unfold onLcp. destruct (0 <? List.length l)%nat; reflexivity.
Qed.

(** X6. The INP the page publishes is the largest duration among all
    the interaction entries delivered since the document was created,
    and at least zero; it stays undefined until the first batch of
    interactions is delivered. *)
Theorem interaction_to_next_paint (batches : list batch) :
  (existsb is_interaction_batch batches = false ->
   win_INP (observe batches) = None)
  /\ (existsb is_interaction_batch batches = true ->
      exists m,
        win_INP (observe batches) = Some (Fin m)
        /\ (0 <= m)%Q
        /\ (forall e, In e (interactions batches) -> (interaction_duration e <= m)%Q)
        /\ (m = 0%Q \/ exists e, In e (interactions batches)
                                 /\ m = interaction_duration e)).
Proof.
  unfold observe. rewrite win_INP_fold. split; intros ->; [reflexivity|].
  destruct (maxINP_fold batches newDocument 0 eq_refl) as (m & Hm & H0 & Hall & Hex).
  exists m. rewrite Hm. repeat split; assumption.
Qed.

Lemma interaction_to_next_paint_busy :
  win_INP (observe busy_batches) = Some (Fin 80)
  /\ exists m,
       win_INP (observe busy_batches) = Some (Fin m)
       /\ (0 <= m)%Q
       /\ (forall e, In e (interactions busy_batches) -> (interaction_duration e <= m)%Q)
       /\ (m = 0%Q \/ exists e, In e (interactions busy_batches)
                                /\ m = interaction_duration e).
Proof.
  split; [reflexivity|].
  apply (proj2 (interaction_to_next_paint busy_batches)). reflexivity.
Defined.

Lemma longTasks_fold (batches : list batch) :
  forall d,
    longTasks (fold_left deliver batches d)
    = (longTasks d ++ longTaskEntries batches)%list.
Proof.
  induction batches as [|b batches IH]; intros d.
  - cbn [fold_left longTaskEntries flat_map]. symmetry. apply app_nil_r.
  - cbn [fold_left]. rewrite IH. unfold longTaskEntries. cbn [flat_map].
    destruct b as [l|l|l|l]; cbn [deliver]; try reflexivity.
    + unfold onLcp. destruct (0 <? List.length l)%nat; reflexivity.
    + cbn [onLongTask longTasks]. symmetry. apply app_assoc.
Qed.

Lemma longTasks_kept (batches : list batch) :
  forall d,
    existsb is_longtask_batch batches = false ->
    longTasks (fold_left deliver batches d) = longTasks d.
Proof.
  induction batches as [|b batches IH]; intros d H; [reflexivity|].
  cbn [existsb] in H. apply orb_false_iff in H. destruct H as [Hb Hr].
  cbn [fold_left]. rewrite (IH _ Hr).
  destruct b as [l|l|l|l]; try discriminate Hb; try reflexivity.
  cbn [deliver]. unfold onLcp. destruct (0 <? List.length l)%nat; reflexivity.
Qed.

Lemma win_longTasks_fold (batches : list batch) :
  forall d,
    win_longTasks (fold_left deliver batches d) =
    if existsb is_longtask_batch batches
    then Some (longTasks (fold_left deliver batches d))
    else win_longTasks d.
Proof.
  induction batches as [|b batches IH]; intros d; [reflexivity|].
  cbn [fold_left existsb]. rewrite IH.
  destruct (existsb is_longtask_batch batches) eqn:E.
  - rewrite orb_true_r. reflexivity.
  - rewrite orb_false_r, (longTasks_kept _ _ E).
    destruct b as [l|l|l|l]; try reflexivity.
    cbn [deliver]. unfold onLcp. destruct (0 <? List.length l)%nat; reflexivity.
Qed.

Lemma lasts_serialised (ser : LongTask -> value) (tasks : list LongTask) :
  (forall t, lasts (ser t) (task_duration t)) ->
  Forall2 lasts (map ser tasks) (map task_duration tasks).
Proof.
  intros H. induction tasks as [|t tasks IH]; constructor; [apply H | exact IH].
Qed.

(** X7. The long tasks the page publishes are all the entries of all
    the long-task batches delivered since the document was created, in
    the order of their delivery; the Total Blocking Time the reports
    compute from that list, however the entries are serialised as long
    as each keeps its duration, is therefore the blocking time of
    every long task observed, added in the order of observation, every
    partial sum a binary64 value. *)
Theorem long_tasks_accumulate (batches : list batch) (ser : LongTask -> value) :
  existsb is_longtask_batch batches = true ->
  (forall t, lasts (ser t) (task_duration t)) ->
  win_longTasks (observe batches) = Some (longTaskEntries batches)
  /\ Report.totalBlockingTime (map ser (longTaskEntries batches))
     = Ok (VNum (blockingSum64 (map task_duration (longTaskEntries batches)))).
Proof.
  intros H Hser. split.
  - unfold observe. rewrite win_longTasks_fold, H, longTasks_fold. reflexivity.
  - exact (totalBlockingTime_sum _ _
             (lasts_serialised ser (longTaskEntries batches) Hser)).
Qed.

Lemma long_tasks_accumulate_busy :
  Report.totalBlockingTime (map taskValue (longTaskEntries busy_batches))
    = Ok (Report.Num 95)
  /\ win_longTasks (observe busy_batches) = Some (longTaskEntries busy_batches)
  /\ Report.totalBlockingTime (map taskValue (longTaskEntries busy_batches))
     = Ok (VNum (blockingSum64 (map task_duration (longTaskEntries busy_batches)))).
Proof.
  split; [vm_compute; reflexivity|].
  apply (long_tasks_accumulate busy_batches taskValue).
  - reflexivity.
  - intros t. split; reflexivity.
Defined.

(* ================================================================== *)
(** * Properties of the detailed analysis *)
(* ================================================================== *)

Section DetailedPerfProperties.

Import DetailedPerf.
Import DetailedPerf.Tracker.

Lemma update_identity (id : string) (f : Request -> Request) (requests : list Request) :
  (forall r, identity (f r) = identity r) ->
  map identity (update id f requests) = map identity requests.
Proof.
  intros Hf. induction requests as [|r rest IH]; [reflexivity|].
  cbn [update]. destruct (String.eqb (requestId r) id); cbn [map].
  - rewrite Hf. reflexivity.
  - rewrite IH. reflexivity.
Qed.

Lemma handle_identity (requests : list Request) (e : NetworkEvent) :
  map identity (handle requests e) = (map identity requests ++ announced [e])%list.
Proof.
  destruct e; cbn [handle announced flat_map]; rewrite ?app_nil_r;
    try (apply update_identity; intros r; reflexivity).
  rewrite map_app. reflexivity.
Qed.

Lemma track_identity (events : list NetworkEvent) :
  forall requests,
    map identity (fold_left handle events requests)
    = (map identity requests ++ announced events)%list.
Proof.
  induction events as [|e events IH]; intros requests.
  - cbn [fold_left announced flat_map]. symmetry. apply app_nil_r.
  - cbn [fold_left]. rewrite IH, handle_identity.
    unfold announced. cbn [flat_map]. rewrite app_nil_r.
    symmetry. apply app_assoc.
Qed.

(** X8. The tracker holds one entry for every request the browser
    announced, in the order of the announcements, under the id, the
    address and the resource type it was announced with: the events
    about responses never add, drop, reorder or retype an entry, and
    the number of requests the analysis reports is the number of
    announcements. *)
Theorem tracker_lists_announced_requests (events : list NetworkEvent) :
  map identity (track events) = announced events
  /\ List.length (track events) = List.length (announced events).
Proof.
  assert (map identity (track events) = announced events) as H.
  { unfold track. rewrite track_identity. reflexivity. }
  split; [exact H|]. rewrite <- H. symmetry. apply length_map.
Qed.

Lemma update_unknown (id : string) (f : Request -> Request) (requests : list Request) :
  ~ In id (map requestId requests) -> update id f requests = requests.
Proof.
  induction requests as [|r rest IH]; intros H; [reflexivity|].
  cbn [update]. destruct (String.eqb (requestId r) id) eqn:E.
  - apply String.eqb_eq in E. exfalso. apply H. left. exact E.
  - rewrite IH; [reflexivity|]. intros Hin. apply H. right. exact Hin.
Qed.

Lemma update_first (id : string) (f : Request -> Request)
  (before : list Request) (r : Request) (rest : list Request) :
  requestId r = id ->
  ~ In id (map requestId before) ->
  update id f (before ++ r :: rest) = (before ++ f r :: rest)%list.
Proof.
  intros Hr. induction before as [|x before IH]; intros H.
  - cbn [app update]. rewrite Hr, String.eqb_refl. reflexivity.
  - cbn [app update]. destruct (String.eqb (requestId x) id) eqn:E.
    + apply String.eqb_eq in E. exfalso. apply H. left. exact E.
    + rewrite IH; [reflexivity|]. intros Hin. apply H. right. exact Hin.
Qed.

(** X9. An event about a response, a finished or a failed load changes
    the oldest entry that carries its request id, and nothing else: an
    event for an id the tracker has not seen is dropped, and entries
    that reuse an id (the hops of a redirect) are never updated after
    the first. *)
Theorem response_events_update_first_entry (e : NetworkEvent) (id : string) :
  reportsOn e = Some id ->
  (forall requests,
      ~ In id (map requestId requests) -> handle requests e = requests)
  /\ (forall before r rest,
        requestId r = id ->
        ~ In id (map requestId before) ->
        handle (before ++ r :: rest) e = (before ++ handle [r] e ++ rest)%list).
Proof.
  intros He. split.
  - intros requests H.
    destruct e; try discriminate He; injection He as ->; cbn [handle];
      apply update_unknown, H.
  - intros before r rest Hr Hb.
    destruct e; try discriminate He; injection He as ->; cbn [handle];
      rewrite (update_first _ _ before r rest Hr Hb);
      cbn [update]; rewrite Hr, String.eqb_refl; reflexivity.
Qed.

Lemma response_events_page_load :
  handle (track page_load) (loadingFinished "9" 123 17) = track page_load
  /\ (forall requests,
        ~ In "2" (map requestId requests) ->
        handle requests (loadingFailed "2" "net::ERR_ABORTED") = requests)
  /\ (forall before r rest,
        requestId r = "2" ->
        ~ In "2" (map requestId before) ->
        handle (before ++ r :: rest) (loadingFailed "2" "net::ERR_ABORTED")
        = (before ++ handle [r] (loadingFailed "2" "net::ERR_ABORTED") ++ rest)%list).
Proof.
  split.
  - apply (proj1 (response_events_update_first_entry (loadingFinished "9" 123 17) "9"
                    eq_refl)).
    vm_compute. intros [H|[H|[H|[]]]]; discriminate H.
  - exact (response_events_update_first_entry (loadingFailed "2" "net::ERR_ABORTED") "2"
             eq_refl).
Defined.

(** *** The breakdowns *)

Lemma bump_counted (key : string) (bytes : Q) (groups : Breakdown) :
  counted (bump key bytes groups) = S (counted groups).
Proof.
  induction groups as [|[k s] rest IH]; [reflexivity|].
  cbn [bump]. destruct (String.eqb k key); cbn [counted fold_right snd count].
  - reflexivity.
  - fold (counted (bump key bytes rest)). rewrite IH. fold (counted rest). lia.
Qed.

Lemma bump_weighed (key : string) (bytes : Q) (groups : Breakdown) :
  (weighed (bump key bytes groups) == weighed groups + bytes)%Q.
Proof.
  induction groups as [|[k s] rest IH].
  - cbn [bump weighed fold_right snd size]. ring.
  - cbn [bump]. destruct (String.eqb k key); cbn [weighed fold_right snd size].
    + fold (weighed rest). ring.
    + fold (weighed (bump key bytes rest)). fold (weighed rest). rewrite IH. ring.
Qed.

Lemma bump_keys (key : string) (bytes : Q) (groups : Breakdown) :
  map fst (bump key bytes groups)
  = if existsb (String.eqb key) (map fst groups)
    then map fst groups else (map fst groups ++ [key])%list.
Proof.
  induction groups as [|[k s] rest IH]; [reflexivity|].
  cbn [bump map fst existsb]. rewrite (String.eqb_sym key k).
  destruct (String.eqb k key); cbn [orb map fst]; [reflexivity|].
  rewrite IH. destruct (existsb (String.eqb key) (map fst rest)); reflexivity.
Qed.

Lemma tally_keys_distinct (key : string) (bytes : Q) (groups : Breakdown) :
  NoDup (map fst groups) -> NoDup (map fst (tally key bytes groups)).
Proof.
  intros H. unfold tally. destruct (inherited key); [exact H|].
  rewrite bump_keys.
  destruct (existsb (String.eqb key) (map fst groups)) eqn:E; [exact H|].
  apply NoDup_app; [exact H | repeat constructor; intros [] | ].
  intros k Hk [Hkey|[]]. subst k.
  assert (existsb (String.eqb key) (map fst groups) = true) as T.
  { apply existsb_exists. exists key. split; [exact Hk | apply String.eqb_refl]. }
  congruence.
Qed.

Lemma tally_fold (key : Request -> option string) (requests : list Request) :
  forall groups,
    let groups' :=
      fold_left (fun g r => match key r with
                            | Some k => tally k (transferred r) g
                            | None => g
                            end) requests groups in
    counted groups' = (counted groups + List.length (grouped key requests))%nat
    /\ (weighed groups' == weighed groups + transferSum (grouped key requests))%Q
    /\ (NoDup (map fst groups) -> NoDup (map fst groups')).
Proof.
  induction requests as [|r rest IH]; intros groups; cbn zeta.
  - cbn [fold_left grouped filter List.length transferSum fold_right].
    split; [lia|]. split; [ring | auto].
  - cbn [fold_left]. unfold grouped. cbn [filter]. fold (grouped key rest).
    destruct (key r) as [k|] eqn:K.
    + destruct (IH (tally k (transferred r) groups)) as (Hc & Hw & Hn).
      cbn zeta in Hc, Hw, Hn. rewrite Hc, Hw. clear Hc Hw.
      pose proof (tally_keys_distinct k (transferred r) groups) as T.
      unfold tally in *. destruct (inherited k); cbn [negb].
      * split; [reflexivity|]. split; [reflexivity | exact Hn].
      * cbn [List.length transferSum fold_right].
        fold (transferSum (grouped key rest)).
        rewrite bump_counted, bump_weighed.
        split; [lia|]. split; [ring | auto].
    + destruct (IH groups) as (Hc & Hw & Hn).
      cbn zeta in Hc, Hw, Hn. rewrite Hc, Hw.
      split; [reflexivity|]. split; [reflexivity | exact Hn].
Qed.

Variable hostname : string -> option string.

Lemma classify_fold (requests : list Request) :
  forall byType byDomain,
    fold_left (classify hostname) requests (byType, byDomain)
    = (fold_left (fun g r => match Some (typeOf r) with
                             | Some k => tally k (transferred r) g
                             | None => g
                             end) requests byType,
       fold_left (fun g r => match hostname (url r) with
                             | Some k => tally k (transferred r) g
                             | None => g
                             end) requests byDomain).
Proof.
  induction requests as [|r rest IH]; intros byType byDomain; [reflexivity|].
  cbn [fold_left]. unfold classify at 2. rewrite IH. reflexivity.
Qed.

Lemma transfer_fold (requests : list Request) :
  forall a : Q,
    (fold_left (fun sum r => sum + transferred r) requests a
     == a + transferSum requests)%Q.
Proof.
  induction requests as [|r rest IH]; intros a.
  - cbn [fold_left transferSum fold_right]. ring.
  - cbn [fold_left transferSum fold_right]. fold (transferSum rest).
    rewrite IH. ring.
Qed.

Lemma grouped_all (key : Request -> option string) (requests : list Request) :
  Forall (fun r => exists k, key r = Some k /\ inherited k = false) requests ->
  grouped key requests = requests.
Proof.
  induction 1 as [|r rest (k & Hk & Hi) _ IH]; [reflexivity|].
  unfold grouped. cbn [filter]. rewrite Hk, Hi. cbn [negb].
  fold (grouped key rest). rewrite IH. reflexivity.
Qed.

(** X10. The breakdowns account for every request once.  The counts
    of the breakdown by resource type add up to the number of requests
    and its sizes to the total transfer size, each type having one
    group; the breakdown by domain covers in the same way the requests
    whose address is a valid URL.  The one exception is a key that
    every object inherits ([constructor], [toString], ...): a request
    under such a key is counted in no group. *)
Theorem breakdowns_account_for_requests (requests : list Request) :
  let stats := networkStats hostname requests in
  counted (requestsByType stats)
    = List.length (grouped (fun r => Some (typeOf r)) requests)
  /\ (weighed (requestsByType stats)
      == transferSum (grouped (fun r => Some (typeOf r)) requests))%Q
  /\ counted (requestsByDomain stats)
     = List.length (grouped (fun r => hostname (url r)) requests)
  /\ (weighed (requestsByDomain stats)
      == transferSum (grouped (fun r => hostname (url r)) requests))%Q
  /\ NoDup (map fst (requestsByType stats))
  /\ NoDup (map fst (requestsByDomain stats))
  /\ (Forall (fun r => inherited (typeOf r) = false) requests ->
      counted (requestsByType stats) = totalRequests stats
      /\ (weighed (requestsByType stats) == totalTransferSize stats)%Q).
Proof.
  cbn zeta. unfold networkStats.
  cbn [requestsByType requestsByDomain totalRequests totalTransferSize].
  rewrite classify_fold. cbn [fst snd].
  destruct (tally_fold (fun r => Some (typeOf r)) requests []) as (C1 & W1 & N1).
  destruct (tally_fold (fun r => hostname (url r)) requests []) as (C2 & W2 & N2).
  cbn zeta in C1, W1, N1, C2, W2, N2.
  cbn [counted weighed fold_right] in C1, W1, C2, W2.
  split; [exact C1|]. split; [rewrite W1; ring|].
  split; [exact C2|]. split; [rewrite W2; ring|].
  split; [apply N1; constructor|]. split; [apply N2; constructor|].
  intros H.
  assert (grouped (fun r => Some (typeOf r)) requests = requests) as G.
  { apply grouped_all. eapply Forall_impl; [|exact H].
    intros r Hr. exists (typeOf r). split; [reflexivity | exact Hr]. }
  rewrite G in C1, W1. split; [exact C1|].
  rewrite W1, transfer_fold. reflexivity.
Qed.

End DetailedPerfProperties.

Lemma breakdowns_of_page_load :
  let stats := DetailedPerf.networkStats hostOf (DetailedPerf.Tracker.track page_load) in
  DetailedPerf.requestsByType stats
    = [("Document", {| DetailedPerf.count := 1; DetailedPerf.size := 0 + 4096 |});
       ("Script", {| DetailedPerf.count := 1; DetailedPerf.size := 0 + 600000 |});
       ("Image", {| DetailedPerf.count := 1; DetailedPerf.size := 0 + 0 |})]
  /\ map fst (DetailedPerf.requestsByDomain stats) = ["shop.example"; "cdn.example"]
  /\ DetailedPerf.totalRequests stats = 3%nat
  /\ counted (DetailedPerf.requestsByDomain stats) = 2%nat
  /\ (Forall (fun r => DetailedPerf.inherited (DetailedPerf.typeOf r) = false)
             (DetailedPerf.Tracker.track page_load) ->
      counted (DetailedPerf.requestsByType stats) = DetailedPerf.totalRequests stats
      /\ (weighed (DetailedPerf.requestsByType stats)
          == DetailedPerf.totalTransferSize stats)%Q).
Proof.
  cbn zeta. split; [reflexivity|]. split; [reflexivity|].
  split; [reflexivity|]. split; [reflexivity|].
  exact (proj2 (proj2 (proj2 (proj2 (proj2 (proj2
           (breakdowns_account_for_requests hostOf
              (DetailedPerf.Tracker.track page_load)))))))).
Defined.

(** *** Recommendations *)

Lemma exceeds_false (a b : Q) : DetailedPerf.exceeds a b = false <-> (a <= b)%Q.
Proof.
  unfold DetailedPerf.exceeds. rewrite negb_false_iff. apply Qle_bool_iff.
Qed.

Lemma guarded_nil {A} (b : bool) (x : A) : (if b then [x] else []) = [] <-> b = false.
Proof. destruct b; split; intros H; try reflexivity; discriminate H. Qed.

(** X11. The analysis recommends nothing exactly when the page stays
    within every budget: at most 50 requests, at most 2 MiB
    transferred, DOM content loaded within 1500 ms, load within
    3000 ms, no failed request, at most 1 MiB of images and at most
    500 KiB of scripts.  Each bound is inclusive. *)
Theorem no_recommendation_within_budgets
  (stats : DetailedPerf.NetworkStats) (timings : DetailedPerf.Timing.Timings) :
  DetailedPerf.recommendations stats timings = []
  <-> ((DetailedPerf.totalRequests stats <= 50)%nat
       /\ (DetailedPerf.totalTransferSize stats <= 2097152)%Q
       /\ (DetailedPerf.Timing.domContentLoadedTime timings <= 1500)%Q
       /\ (DetailedPerf.Timing.loadTime timings <= 3000)%Q
       /\ DetailedPerf.failedRequests stats = 0%nat
       /\ (DetailedPerf.sizeOf "Image" (DetailedPerf.requestsByType stats) <= 1048576)%Q
       /\ (DetailedPerf.sizeOf "Script" (DetailedPerf.requestsByType stats) <= 512000)%Q).
Proof.
  unfold DetailedPerf.recommendations. cbv zeta.
  assert ((2 * 1024 * 1024 == 2097152)%Q) as E1 by reflexivity.
  assert ((1024 * 1024 == 1048576)%Q) as E2 by reflexivity.
  assert ((500 * 1024 == 512000)%Q) as E3 by reflexivity.
  rewrite <- E1, <- E2, <- E3.
  rewrite <- !exceeds_false.
  split.
  - intros H.
    apply app_eq_nil in H. destruct H as [H1 H].
    apply app_eq_nil in H. destruct H as [H2 H].
    apply app_eq_nil in H. destruct H as [H3 H].
    apply app_eq_nil in H. destruct H as [H4 H].
    apply app_eq_nil in H. destruct H as [H5 H].
    apply app_eq_nil in H. destruct H as [H6 H7].
    apply guarded_nil in H1, H2, H3, H4, H5, H6, H7.
    apply Nat.ltb_ge in H1, H5.
    repeat split; try assumption. lia.
  - intros (H1 & H2 & H3 & H4 & H5 & H6 & H7).
    apply Nat.ltb_ge in H1. rewrite H1, H2, H3, H4, H5, H6, H7. reflexivity.
Qed.

Lemma recommendations_of_page_load :
  DetailedPerf.recommendations
    (DetailedPerf.networkStats hostOf (DetailedPerf.Tracker.track page_load))
    (DetailedPerf.Timing.calculateTimings unfinished_load)
  = [DetailedPerf.SlowDomContentLoaded (1700000002500 - 1700000000000);
     DetailedPerf.FailedRequests 1;
     DetailedPerf.LargeScriptPayload (0 + 600000)]
  /\ (DetailedPerf.recommendations
        (DetailedPerf.networkStats hostOf [])
        (DetailedPerf.Timing.calculateTimings unfinished_load) = []
      <-> ((0 <= 50)%nat
           /\ (0 <= 2097152)%Q
           /\ (1700000002500 - 1700000000000 <= 1500)%Q
           /\ (0 - 1700000000000 <= 3000)%Q
           /\ 0%nat = 0%nat
           /\ (0 <= 1048576)%Q
           /\ (0 <= 512000)%Q)).
Proof.
  split; [reflexivity|].
  exact (no_recommendation_within_budgets
           (DetailedPerf.networkStats hostOf [])
           (DetailedPerf.Timing.calculateTimings unfinished_load)).
Defined.

Lemma slow_load_recommended
  (stats : DetailedPerf.NetworkStats) (timings : DetailedPerf.Timing.Timings) (ms : Q) :
  In (DetailedPerf.SlowLoad ms) (DetailedPerf.recommendations stats timings) ->
  DetailedPerf.exceeds (DetailedPerf.Timing.loadTime timings) 3000 = true.
Proof.
  intros Hin. unfold DetailedPerf.recommendations in Hin. cbv zeta in Hin.
  repeat (apply in_app_or in Hin; destruct Hin as [Hin|Hin]).
  all: match type of Hin with
       | In _ (if ?b then _ else _) => destruct b eqn:E
       end.
  all: try (destruct Hin as [Hin|[]]; try discriminate Hin).
  all: try (destruct Hin; fail).
  reflexivity.
Qed.

(** X12. A page whose load event has not fired when the timings are
    read ([loadEventStart] is still 0) is never reported as slow to
    load, however long it has been loading: its load time is computed
    as a negative number. *)
Theorem unfinished_load_is_never_slow
  (stats : DetailedPerf.NetworkStats) (timing : DetailedPerf.Timing.NavigationTiming) :
  (DetailedPerf.Timing.loadEventStart timing == 0)%Q ->
  (0 <= DetailedPerf.Timing.navigationStart timing)%Q ->
  (DetailedPerf.Timing.loadTime (DetailedPerf.Timing.calculateTimings timing) <= 0)%Q
  /\ forall ms,
       ~ In (DetailedPerf.SlowLoad ms)
            (DetailedPerf.recommendations stats
               (DetailedPerf.Timing.calculateTimings timing)).
Proof.
  intros H0 Hn.
  assert (DetailedPerf.Timing.loadTime (DetailedPerf.Timing.calculateTimings timing) <= 0)%Q
    as Hle.
  { cbn [DetailedPerf.Timing.calculateTimings DetailedPerf.Timing.loadTime].
    rewrite H0. apply (Qplus_le_l _ _ (DetailedPerf.Timing.navigationStart timing)).
    ring_simplify. exact Hn. }
  split; [exact Hle|]. intros ms Hin.
  apply slow_load_recommended in Hin.
  assert (DetailedPerf.exceeds
            (DetailedPerf.Timing.loadTime (DetailedPerf.Timing.calculateTimings timing))
            3000 = false) as E.
  { apply exceeds_false. eapply Qle_trans; [exact Hle | discriminate]. }
  congruence.
Qed.

Lemma unfinished_load_example :
  (DetailedPerf.Timing.loadTime (DetailedPerf.Timing.calculateTimings unfinished_load) <= 0)%Q
  /\ forall ms,
       ~ In (DetailedPerf.SlowLoad ms)
            (DetailedPerf.recommendations
               (DetailedPerf.networkStats hostOf (DetailedPerf.Tracker.track page_load))
               (DetailedPerf.Timing.calculateTimings unfinished_load)).
Proof.
  apply (unfinished_load_is_never_slow
           (DetailedPerf.networkStats hostOf (DetailedPerf.Tracker.track page_load))
           unfinished_load).
  - reflexivity.
  - vm_compute. discriminate.
Defined.

(* ================================================================== *)
(** * Properties of the MCP report *)
(* ================================================================== *)

Lemma num_ltb_asym (a b : num) : num_ltb a b = true -> num_ltb b a = false.
Proof.
  destruct a as [x| |[|]], b as [y| |[|]]; cbn [num_ltb andb negb];
    intros H; try discriminate H; try reflexivity.
  apply negb_true_iff in H. apply negb_false_iff.
  apply Qle_bool_iff. apply Qlt_le_weak, Qnot_le_lt.
  intros C. apply Qle_bool_iff in C. congruence.
Qed.

Lemma js_lt_not_gt (v c : value) : js_lt v c = true -> js_gt v c = false.
Proof. unfold js_lt, js_gt. apply num_ltb_asym. Qed.

Lemma falsy_number (v : value) :
  truthy v = false ->
  ToNumber v = NaN \/ exists q, ToNumber v = Fin q /\ (q == 0)%Q.
Proof.
  destruct v as [| |b|n|s|l|props]; cbn [truthy ToNumber]; intros H;
    try discriminate H.
  - left. reflexivity.
  - right. exists 0%Q. split; reflexivity.
  - rewrite H. right. exists 0%Q. split; reflexivity.
  - destruct n as [q| |s]; try discriminate H.
    + right. exists q. split; [reflexivity|].
      apply negb_false_iff in H. apply Qeq_bool_iff in H. exact H.
    + left. reflexivity.
  - apply negb_false_iff, String.eqb_eq in H. subst s.
    right. exists 0%Q. split; reflexivity.
Qed.

Lemma falsy_not_gt (v : value) (c : Q) :
  truthy v = false -> (0 <= c)%Q -> js_gt v (VNum (Fin c)) = false.
Proof.
  intros H Hc. unfold js_gt. cbn [ToNumber].
  destruct (falsy_number v H) as [->|(q & -> & Hq)]; [reflexivity|].
  cbn [num_ltb]. apply negb_false_iff, Qle_bool_iff. rewrite Hq. exact Hc.
Qed.

Lemma or_default_not_gt (v d : value) (c : Q) :
  (0 <= c)%Q -> js_lt (js_or v d) (VNum (Fin c)) = true -> js_gt v (VNum (Fin c)) = false.
Proof.
  intros Hc. unfold js_or. destruct (truthy v) eqn:T.
  - apply js_lt_not_gt.
  - intros _. apply falsy_not_gt; assumption.
Qed.

Lemma payload_signal (entry : value) (signal : string) :
  String.eqb signal "length" = false ->
  opt_get (opt_get (opt_get (own entry "metrics") "result") "payload") signal
  = own (payload entry) signal.
Proof.
  intros Hs. unfold payload.
  destruct (opt_get (opt_get (own entry "metrics") "result") "payload")
    as [| |b|n|s|l|props]; try reflexivity.
  - destruct b; reflexivity.
  - destruct n as [q| |s]; try reflexivity.
    unfold js_or. cbn [truthy]. destruct (negb (Qeq_bool q 0)); reflexivity.
  - unfold js_or. cbn [truthy opt_get nullish own]. rewrite Hs.
    destruct (negb (String.eqb s EmptyString)); cbn [own]; [rewrite Hs|]; reflexivity.
Qed.

Lemma signalOrZero_defined (entry : value) (signal : string) :
  nullish entry = false ->
  String.eqb signal "length" = false ->
  McpReport.signalOrZero signal entry
  = Ok (js_or (own (payload entry) signal) (Report.Num 0)).
Proof.
  intros He Hs. unfold McpReport.signalOrZero.
  rewrite (get_present _ _ He). cbn [rbind].
  rewrite (payload_signal entry signal Hs). reflexivity.
Qed.

Lemma every_below_none_above (f : value -> Result value) (c : value) (l : list value) :
  McpReport.Array_every (fun e => rbind (f e) (fun v => Ok (js_lt v c))) l = Ok true ->
  McpReport.Array_some (fun e => rbind (f e) (fun v => Ok (js_gt v c))) l = Ok false.
Proof.
  induction l as [|x l IH]; [reflexivity|].
  cbn [McpReport.Array_every McpReport.Array_some].
  destruct (f x) as [v|e]; cbn [rbind]; [|discriminate].
  destruct (js_lt v c) eqn:L; [|discriminate].
  rewrite (js_lt_not_gt _ _ L). exact IH.
Qed.

Lemma some_defined (signal : string) (c : value) (l : list value) :
  String.eqb signal "length" = false ->
  Forall present l ->
  exists b,
    McpReport.Array_some
      (fun e => rbind (McpReport.signalOrZero signal e) (fun v => Ok (js_gt v c))) l = Ok b.
Proof.
  intros Hs. induction 1 as [|x l Hx _ [b IH]]; [eexists; reflexivity|].
  cbn [McpReport.Array_some]. rewrite (signalOrZero_defined x signal Hx Hs). cbn [rbind].
  destruct (js_gt _ c); [eexists; reflexivity | eauto].
Qed.

Lemma every_without_lcp (l : list value) :
  Forall (fun e => present e /\ absent (payload e) "LargestContentfulPaint") l ->
  McpReport.Array_every
    (fun e => rbind (McpReport.signalOrZero "LargestContentfulPaint" e)
                    (fun v => Ok (js_lt v (Report.Num 2500)))) l = Ok true.
Proof.
  induction 1 as [|x l [Hx Ha] _ IH]; [reflexivity|].
  cbn [McpReport.Array_every].
  rewrite (signalOrZero_defined x "LargestContentfulPaint" Hx eq_refl),
    (js_or_absent _ _ Ha). cbn [rbind].
  change (js_lt (Report.Num 0) (Report.Num 2500)) with true. exact IH.
Qed.

(** X13. In the MCP report a conclusion that reads [good] goes with an
    LCP item that asks for nothing.  A missing LCP counts as zero
    there: a report none of whose steps carries an LCP concludes
    [good], although every row of its table bears the warning mark. *)
Theorem conclusion_counts_missing_lcp_as_good (entries : list value) :
  (forall s,
      McpReport.summarize (VArr entries) = Ok s ->
      McpReport.good s = true -> McpReport.lcpCritical s = false)
  /\ (Forall (fun e => present e /\ absent (payload e) "LargestContentfulPaint") entries ->
      (exists s,
          McpReport.summarize (VArr entries) = Ok s
          /\ McpReport.good s = true /\ McpReport.lcpCritical s = false)
      /\ forall e, In e entries ->
           exists row, Report.metricsRow e = Ok row /\ Report.row_good row = false).
Proof.
  split.
  - intros s H Hg. unfold McpReport.summarize in H. cbn [as_array rbind] in H.
    apply rbind_Ok in H. destruct H as (lcp & Hl & H).
    apply rbind_Ok in H. destruct H as (cls & Hc & H).
    apply rbind_Ok in H. destruct H as (g & Hgood & H).
    injection H as <-. cbn [McpReport.good McpReport.lcpCritical] in *. subst g.
    apply every_below_none_above in Hgood. congruence.
  - intros H. split.
    + assert (Forall present entries) as Hp.
      { eapply Forall_impl; [|exact H]. intros e [He _]. exact He. }
      pose proof (every_without_lcp entries H) as Hgood.
      pose proof (every_below_none_above _ _ _ Hgood) as Hl.
      destruct (some_defined "CumulativeLayoutShift" (VNum (Fin (1 # 10))) entries
                  eq_refl Hp) as [cls Hc].
      exists {| McpReport.lcpCritical := false; McpReport.clsCritical := cls;
                McpReport.good := true |}.
      unfold McpReport.summarize. cbn [as_array rbind].
      rewrite Hl. cbn [rbind]. rewrite Hc. cbn [rbind]. rewrite Hgood.
      repeat split.
    + intros e He. destruct (proj1 (Forall_forall _ _) H e He) as [Hp Ha].
      eexists. split; [apply (metricsRow_defined _ Hp)|].
      cbn [Report.row_good]. rewrite (js_or_absent _ _ Ha). reflexivity.
Qed.

Lemma conclusion_of_steps_without_lcp :
  McpReport.summarize (VArr steps_without_lcp)
    = Ok {| McpReport.lcpCritical := false; McpReport.clsCritical := true;
            McpReport.good := true |}
  /\ (exists s,
         McpReport.summarize (VArr steps_without_lcp) = Ok s
         /\ McpReport.good s = true /\ McpReport.lcpCritical s = false)
  /\ forall e, In e steps_without_lcp ->
       exists row, Report.metricsRow e = Ok row /\ Report.row_good row = false.
Proof.
  split; [reflexivity|].
  apply (proj2 (conclusion_counts_missing_lcp_as_good steps_without_lcp)).
  repeat constructor.
Defined.

Lemma detailSection_defined (entry : value) (d : McpReport.Detail) :
  McpReport.detailSection entry = Ok d ->
  nullish entry = false
  /\ nth_error (McpReport.vitals d) 0
     = Some ("- **LCP (Largest Contentful Paint):** " ++
             ToString (own (payload entry) "LargestContentfulPaint") ++ "ms " ++
             McpReport.verdict
               (js_gt (own (payload entry) "LargestContentfulPaint") (Report.Num 2500))
               "⚠️ NEEDS IMPROVEMENT")
  /\ McpReport.insights d
     = ((if js_gt (own (payload entry) "LargestContentfulPaint") (Report.Num 2500)
         then ["**⚠️ High LCP Detected**"] else []) ++
        (if js_gt (own (payload entry) "CumulativeLayoutShift") (VNum (Fin (1 # 10)))
         then ["**⚠️ High CLS Detected**"] else []) ++
        (if js_gt (own (payload entry) "TotalBlockingTime") (Report.Num 200)
         then ["**⚠️ High Total Blocking Time**"] else []) ++
        (if js_gt (own (payload entry) "TimeToFirstByte") (Report.Num 600)
         then ["**⚠️ Slow Time to First Byte**"] else []))%list.
Proof.
  intros H. unfold McpReport.detailSection in H.
  destruct (nullish entry) eqn:He.
  { unfold get in H. rewrite He in H. discriminate H. }
  split; [reflexivity|].
  rewrite !(get_present _ _ He) in H. cbn [rbind] in H.
  apply rbind_Ok in H. destruct H as (title & _ & H).
  fold (payload entry) in H.
  rewrite !(get_present _ _ (payload_present entry)) in H. cbn [rbind] in H.
  injection H as <-. split; reflexivity.
Qed.

(** X14. The table and the detailed analysis of the MCP report judge a
    step by different rules.  A step the table marks as passing has no
    LCP and no CLS insight in its section; but a step without any LCP
    bears the warning mark in the table while its section prints the
    LCP as [undefinedms] with the verdict GOOD. *)
Theorem table_and_details_disagree_on_missing_lcp
  (entry : value) (row : Report.Row) (d : McpReport.Detail) :
  Report.metricsRow entry = Ok row ->
  McpReport.detailSection entry = Ok d ->
  (Report.row_good row = true ->
   ~ In "**⚠️ High LCP Detected**" (McpReport.insights d)
   /\ ~ In "**⚠️ High CLS Detected**" (McpReport.insights d))
  /\ (own (payload entry) "LargestContentfulPaint" = VUndef ->
      Report.row_good row = false
      /\ nth_error (McpReport.vitals d) 0
         = Some "- **LCP (Largest Contentful Paint):** undefinedms ✅ GOOD").
Proof.
  intros Hr Hd.
  destruct (detailSection_defined _ _ Hd) as (He & Hv & Hi).
  rewrite (metricsRow_defined _ He) in Hr. injection Hr as <-.
  cbn [Report.row_good]. split.
  - intros Hg. apply andb_true_iff in Hg. destruct Hg as [Hl Hc].
    apply (or_default_not_gt _ _ (inject_Z 2500)) in Hl; [|discriminate].
    apply (or_default_not_gt _ _ (1 # 10)) in Hc; [|discriminate].
    change (VNum (Fin (inject_Z 2500))) with (Report.Num 2500) in Hl.
    rewrite Hi, Hl, Hc. cbn [app].
    split; intros Hin;
      (destruct (js_gt (own (payload entry) "TotalBlockingTime") (Report.Num 200));
       destruct (js_gt (own (payload entry) "TimeToFirstByte") (Report.Num 600));
       cbn [app In] in Hin;
       repeat (destruct Hin as [Hin|Hin]; [discriminate Hin|]); exact Hin).
  - intros Hu. rewrite Hv, Hu. split; reflexivity.
Qed.

Lemma table_and_details_of_two_steps :
  (exists row d,
      Report.metricsRow fast_step = Ok row
      /\ McpReport.detailSection fast_step = Ok d
      /\ Report.row_good row = true
      /\ McpReport.insights d = ["**⚠️ Slow Time to First Byte**"]
      /\ ~ In "**⚠️ High LCP Detected**" (McpReport.insights d)
      /\ ~ In "**⚠️ High CLS Detected**" (McpReport.insights d))
  /\ (exists row d,
        Report.metricsRow entry_without_metrics = Ok row
        /\ McpReport.detailSection entry_without_metrics = Ok d
        /\ Report.row_good row = false
        /\ nth_error (McpReport.vitals d) 0
           = Some "- **LCP (Largest Contentful Paint):** undefinedms ✅ GOOD").
Proof.
  split.
  - do 2 eexists. split; [reflexivity|]. split; [reflexivity|].
    split; [reflexivity|]. split; [reflexivity|].
    apply (proj1 (table_and_details_disagree_on_missing_lcp fast_step _ _
                    eq_refl eq_refl)).
    reflexivity.
  - do 2 eexists. split; [reflexivity|]. split; [reflexivity|].
    apply (proj2 (table_and_details_disagree_on_missing_lcp entry_without_metrics _ _
                    eq_refl eq_refl)).
    reflexivity.
Defined.

(* ================================================================== *)
(** * Properties of the tables of the Word reports *)
(* ================================================================== *)

Lemma opt_get_own (v : value) (k : string) : opt_get v k = own v k.
Proof. destruct v; reflexivity. Qed.

Lemma blockingPortion_nonneg (d : Q) : (0 <= blockingPortion d)%Q.
Proof. unfold blockingPortion. apply Q.le_max_l. Qed.

Lemma blockingPortion_zero (d : Q) : (blockingPortion d == 0)%Q <-> (d <= 50)%Q.
Proof.
  unfold blockingPortion. split.
  - intros H. apply (Qplus_le_l _ _ (- (50))%Q).
    setoid_replace (50 + - (50))%Q with 0%Q by ring.
    rewrite <- H. apply Q.le_max_r.
  - intros H. apply Q.max_l.
    apply (Qplus_le_l _ _ 50%Q). ring_simplify. exact H.
Qed.

Lemma blockingSum_nonneg (ds : list Q) : (0 <= blockingSum ds)%Q.
Proof.
  induction ds as [|d ds IH]; [apply Qle_refl|].
  cbn [blockingSum fold_right]. fold (blockingSum ds).
  setoid_replace 0%Q with (0 + 0)%Q by ring.
  apply Qplus_le_compat; [apply blockingPortion_nonneg | exact IH].
Qed.

Lemma blockingSum_zero (ds : list Q) :
  (blockingSum ds == 0)%Q <-> Forall (fun d => (d <= 50)%Q) ds.
Proof.
  induction ds as [|d ds IH].
  - split; [constructor | reflexivity].
  - cbn [blockingSum fold_right]. fold (blockingSum ds).
    pose proof (blockingPortion_nonneg d) as Hp.
    pose proof (blockingSum_nonneg ds) as Hs.
    split.
    + intros H.
      assert (blockingPortion d == 0)%Q as Hd.
      { apply Qle_antisym; [|exact Hp]. rewrite <- H.
        setoid_replace (blockingPortion d) with (blockingPortion d + 0)%Q at 1 by ring.
        apply Qplus_le_compat; [apply Qle_refl | exact Hs]. }
      constructor; [apply blockingPortion_zero, Hd|].
      apply IH. rewrite Hd in H. rewrite <- H. ring.
    + intros H. inversion H as [|? ? Hd Hr]; subst.
      apply blockingPortion_zero in Hd. apply IH in Hr. rewrite Hd, Hr. ring.
Qed.

Lemma or_not_available (q : Q) :
  js_or (VNum (Fin q)) (VStr "N/A") = VStr "N/A" <-> (q == 0)%Q.
Proof.
  unfold js_or. cbn [truthy]. destruct (Qeq_bool q 0) eqn:E; cbn [negb].
  - apply Qeq_bool_iff in E. split; [intros _; exact E | reflexivity].
  - split; [discriminate|]. intros H. apply Qeq_bool_iff in H. congruence.
Qed.

(** X15. The table of the enhanced Word report cannot tell a measured
    zero from a missing value.  The TBT cell reads N/A when the step
    has no list of long tasks, and also when it has one and none of
    its tasks lasted more than 50 ms; the TTFB cell reads N/A when
    the step has no navigation timing, and also when the response
    started with the request. *)
Theorem zero_is_shown_as_not_available (metrics : value) :
  (forall tasks ds,
      own metrics "longTasks" = VArr tasks ->
      Forall2 lasts tasks ds ->
      exists v,
        EnhancedReport.tbtCell metrics = Ok v
        /\ (v = VStr "N/A" <-> Forall (fun d => (d <= 50)%Q) ds))
  /\ (absent metrics "longTasks" -> EnhancedReport.tbtCell metrics = Ok (VStr "N/A"))
  /\ (forall props rs rq,
        own metrics "navigationTiming" = VObj props ->
        own (VObj props) "responseStart" = VNum (Fin rs) ->
        own (VObj props) "requestStart" = VNum (Fin rq) ->
        (EnhancedReport.ttfbCell metrics = VStr "N/A" <-> (rs == rq)%Q))
  /\ (absent metrics "navigationTiming" ->
      EnhancedReport.ttfbCell metrics = VStr "N/A").
Proof.
  split; [|split; [|split]].
  - intros tasks ds Hl Hd. unfold EnhancedReport.tbtCell. cbv zeta.
    rewrite opt_get_own, Hl. cbn [nullish as_array rbind].
    destruct (blockingTime_from _ _ Hd 0) as (q & Hq & Eq).
    unfold Report.blockingTime.
    change (Report.Num 0) with (VNum (Fin 0)). rewrite Hq. cbn [rbind].
    eexists. split; [reflexivity|].
    rewrite or_not_available, Eq, Qplus_0_l. apply blockingSum_zero.
  - intros Ha. unfold EnhancedReport.tbtCell. cbv zeta.
    rewrite opt_get_own. unfold absent in Ha. rewrite Ha. reflexivity.
  - intros props rs rq Hn Hrs Hrq. unfold EnhancedReport.ttfbCell. cbv zeta.
    rewrite !opt_get_own, Hn, Hrs, Hrq.
    change (js_sub (VNum (Fin rs)) (VNum (Fin rq))) with (VNum (Fin (Qred (rs - rq)))).
    rewrite or_not_available, Qred_correct. split; intros H.
    + apply (Qplus_inj_r _ _ (- rq)%Q). rewrite H. ring.
    + rewrite H. ring.
  - intros Ha. unfold EnhancedReport.ttfbCell. cbv zeta.
    rewrite !opt_get_own. unfold absent in Ha.
    destruct (own metrics "navigationTiming"); try discriminate Ha; reflexivity.
Qed.

Lemma zero_is_shown_as_not_available_idle :
  EnhancedReport.tableRow (VObj [("step", VStr "home"); ("metrics", idle_step)])
    = Ok {| EnhancedReport.cell_step := VStr "home";
            EnhancedReport.cell_lcp := "N/A";
            EnhancedReport.cell_cls := "N/A";
            EnhancedReport.cell_inp := "N/A";
            EnhancedReport.cell_ttfb := "N/A";
            EnhancedReport.cell_tbt := "N/A" |}
  /\ (exists v,
         EnhancedReport.tbtCell idle_step = Ok v
         /\ (v = VStr "N/A" <-> Forall (fun d => (d <= 50)%Q) [50%Q; 12%Q]))
  /\ (EnhancedReport.ttfbCell idle_step = VStr "N/A" <-> (120 == 120)%Q).
Proof.
  split; [vm_compute; reflexivity|]. split.
  - apply (proj1 (zero_is_shown_as_not_available idle_step)
             [VObj [("duration", Report.Num 50)]; VObj [("duration", Report.Num 12)]]
             [50%Q; 12%Q]).
    + reflexivity.
    + repeat constructor.
  - apply (proj1 (proj2 (proj2 (zero_is_shown_as_not_available idle_step)))
             [("requestStart", Report.Num 120); ("responseStart", Report.Num 120)]
             120%Q 120%Q); reflexivity.
Defined.

(* ================================================================== *)
(** * Properties of the HTML report *)
(* ================================================================== *)



(* ================================================================== *)
(** * Properties of the trace decoder of the Word report *)
(* ================================================================== *)










(* ================================================================== *)
(** * Properties of the enhanced scenario *)
(* ================================================================== *)

Lemma lookup_last (k k' : string) (x : value) (props : list (string * value)) :
  lookup k (props ++ [(k', x)])
  = if String.eqb k' k then Some x else lookup k props.
Proof.
  induction props as [|[k0 v0] props IH].
  - cbn [app lookup]. destruct (String.eqb k' k); reflexivity.
  - cbn [app lookup]. rewrite IH. destruct (String.eqb k' k); reflexivity.
Qed.

(** X19. The metrics of a step are the snapshot taken in the page with
    the metrics of the browser added under [chromeMetrics]: every
    other key of the snapshot is kept as it is, and a [chromeMetrics]
    key of the snapshot, should it have one, is overridden.  The
    snapshot is taken first, and both calls have to resolve. *)
Theorem browser_metrics_join_the_snapshot (env : Browser) w v w' :
  EnhancedPerf.getPerformanceMetrics env w = (Ok v, w') ->
  exists snapshot chromeMetrics t1 t2,
    fst (env value Snapshot (List.length (log w))) = Ok snapshot
    /\ fst (env value PageMetrics (S (List.length (log w)))) = Ok chromeMetrics
    /\ added w w' = [Settled Snapshot true t1; Settled PageMetrics true t2]
    /\ own v "chromeMetrics" = chromeMetrics
    /\ forall props k,
         snapshot = VObj props -> k <> "chromeMetrics" -> own v k = own snapshot k.
Proof.
  unfold EnhancedPerf.getPerformanceMetrics, bind.
  destruct (perform_shape Snapshot env w) as (r1 & t1 & _ & E1 & H1). rewrite H1.
  destruct r1 as [snapshot|e1]; [|discriminate].
  match goal with |- context [perform PageMetrics env ?w1] =>
    destruct (perform_shape PageMetrics env w1) as (r2 & t2 & _ & E2 & H2)
  end.
  rewrite H2. destruct r2 as [chromeMetrics|e2]; [|discriminate].
  cbn [ret returns log]. intros H. injection H as <- <-.
  cbn [log] in E2. rewrite length_app, Nat.add_comm in E2. cbn [List.length Nat.add] in E2.
  exists snapshot, chromeMetrics, t1, t2.
  split; [symmetry; exact E1|]. split; [symmetry; exact E2|].
  split; [apply added_app; cbn [log]; rewrite <- app_assoc; reflexivity|].
  split.
  - cbn [own]. rewrite lookup_last, String.eqb_refl. reflexivity.
  - intros props k -> Hk. cbn [own EnhancedPerf.properties]. rewrite lookup_last.
    destruct (String.eqb "chromeMetrics" k) eqn:E; [|reflexivity].
    apply String.eqb_eq in E. congruence.
Qed.

Lemma browser_metrics_override_page_key :
  exists v w',
    EnhancedPerf.getPerformanceMetrics shadowing start = (Ok v, w')
    /\ v = VObj [("cls", VNum (Fin (1 # 20))); ("chromeMetrics", VStr "page");
                 ("chromeMetrics", VObj [("Nodes", Report.Num 512)])]
    /\ own v "chromeMetrics" = VObj [("Nodes", Report.Num 512)]
    /\ own v "cls" = VNum (Fin (1 # 20))
    /\ exists snapshot chromeMetrics t1 t2,
         fst (shadowing value Snapshot (List.length (log start))) = Ok snapshot
         /\ fst (shadowing value PageMetrics (S (List.length (log start)))) = Ok chromeMetrics
         /\ added start w' = [Settled Snapshot true t1; Settled PageMetrics true t2]
         /\ own v "chromeMetrics" = chromeMetrics
         /\ forall props k,
              snapshot = VObj props -> k <> "chromeMetrics" -> own v k = own snapshot k.
Proof.
  do 2 eexists. split; [reflexivity|]. split; [reflexivity|].
  split; [reflexivity|]. split; [reflexivity|].
  apply (browser_metrics_join_the_snapshot shadowing start). reflexivity.
Defined.

Lemma race_click_goto selector url (env : Browser) w r w' :
  Promise_race (perform (PageClick selector)) (perform (Goto url [])) env w = (r, w') ->
  exists ok1 t1 ok2 t2,
    log w' = (log w ++ [Settled (PageClick selector) ok1 t1;
                        Settled (Goto url []) ok2 t2])%list.
Proof.
  unfold Promise_race, together.
  destruct (perform_shape (PageClick selector) env w) as (r1 & t1 & _ & _ & H1).
  rewrite H1. cbn [log clock].
  match goal with |- context [perform (Goto url []) env ?w1] =>
    destruct (perform_shape (Goto url []) env w1) as (r2 & t2 & _ & _ & H2)
  end.
  rewrite H2. cbn [log clock].
  intros H. exists (returns r1), t1, (returns r2), t2.
  destruct (t1 <=? t2)%N; injection H as <- <-; cbn [log];
    rewrite <- app_assoc; reflexivity.
Qed.

Lemma clickOrGoto_log selector url (env : Browser) w :
  exists ok1 t1 ok2 t2 rest,
    added w (snd (EnhancedPerf.clickOrGoto selector url env w))
    = Settled (PageClick selector) ok1 t1 :: Settled (Goto url []) ok2 t2 :: rest
    /\ (forall e,
          fst (Promise_race (perform (PageClick selector)) (perform (Goto url [])) env w)
          = Throw e ->
          exists ok3 t3 rest',
            rest = Settled (Goto url []) ok3 t3 :: rest').
Proof.
  unfold EnhancedPerf.clickOrGoto, catch, bind.
  destruct (Promise_race (perform (PageClick selector)) (perform (Goto url [])) env w)
    as [r w1] eqn:R.
  destruct (race_click_goto _ _ _ _ _ _ R) as (ok1 & t1 & ok2 & t2 & L).
  exists ok1, t1, ok2, t2. cbn [fst].
  destruct r as [u|e].
  - destruct (sleep_shape 1000 env w1) as (t3 & _ & Hs). rewrite Hs.
    eexists. split; [|discriminate].
    apply added_app. cbn [snd log]. rewrite L, <- app_assoc. reflexivity.
  - destruct (perform_shape (Goto url []) env w1) as (r3 & t3 & _ & _ & H3).
    rewrite H3. destruct r3 as [u3|e3].
    + match goal with |- context [sleep 1000 env ?w2] =>
        destruct (sleep_shape 1000 env w2) as (t4 & _ & Hs)
      end.
      rewrite Hs. eexists. split.
      * apply added_app. cbn [snd log]. rewrite L, <- !app_assoc. reflexivity.
      * intros _ _. do 3 eexists. reflexivity.
    + eexists. split.
      * apply added_app. cbn [snd log]. rewrite L, <- !app_assoc. reflexivity.
      * intros _ _. do 3 eexists. reflexivity.
Qed.

(** X20. In the sign-in and fish steps of the enhanced scenario the
    navigation to the address of the step is no fallback: it is
    started together with the click, whatever the click does.  When
    the faster of the two is rejected, the address is loaded a second
    time. *)
Theorem navigation_races_the_click (o : string) (env : Browser) w :
  (exists ok1 t1 ok2 t2 rest,
      added w (snd (EnhancedPerf.signInAction o env w))
      = Settled (PageClick (dq "a:has-text('Sign In')")) ok1 t1
        :: Settled (Goto (o ++ "/actions/Account.action?signonForm=") []) ok2 t2 :: rest
      /\ (forall e,
            fst (Promise_race
                   (perform (PageClick (dq "a:has-text('Sign In')")))
                   (perform (Goto (o ++ "/actions/Account.action?signonForm=") []))
                   env w) = Throw e ->
            exists ok3 t3 rest',
              rest = Settled (Goto (o ++ "/actions/Account.action?signonForm=") []) ok3 t3
                     :: rest'))
  /\ (exists ok1 t1 ok2 t2 rest,
        added w (snd (EnhancedPerf.fishAction o env w))
        = Settled (PageClick (dq "a:has-text('Fish')")) ok1 t1
          :: Settled (Goto (o ++ "/actions/Catalog.action?categoryId=FISH") []) ok2 t2 :: rest
        /\ (forall e,
              fst (Promise_race
                     (perform (PageClick (dq "a:has-text('Fish')")))
                     (perform (Goto (o ++ "/actions/Catalog.action?categoryId=FISH") []))
                     env w) = Throw e ->
              exists ok3 t3 rest',
                rest = Settled (Goto (o ++ "/actions/Catalog.action?categoryId=FISH") []) ok3 t3
                       :: rest')).
Proof.
  split; [unfold EnhancedPerf.signInAction | unfold EnhancedPerf.fishAction];
    apply clickOrGoto_log.
Qed.

Lemma navigation_races_the_click_clickless :
  added start (snd (EnhancedPerf.signInAction "https://shop.example" clickless start))
  = [Settled (PageClick (dq "a:has-text('Sign In')")) false 2%N;
     Settled (Goto "https://shop.example/actions/Account.action?signonForm=" []) true 300%N;
     Settled (Goto "https://shop.example/actions/Account.action?signonForm=" []) true 302%N;
     Settled (Timer 1000) true 1302%N]
  /\ exists ok1 t1 ok2 t2 rest,
       added start (snd (EnhancedPerf.signInAction "https://shop.example" clickless start))
       = Settled (PageClick (dq "a:has-text('Sign In')")) ok1 t1
         :: Settled (Goto ("https://shop.example" ++ "/actions/Account.action?signonForm=") [])
                    ok2 t2 :: rest
       /\ (forall e,
             fst (Promise_race
                    (perform (PageClick (dq "a:has-text('Sign In')")))
                    (perform (Goto ("https://shop.example" ++
                                    "/actions/Account.action?signonForm=") []))
                    clickless start) = Throw e ->
             exists ok3 t3 rest',
               rest = Settled (Goto ("https://shop.example" ++
                                     "/actions/Account.action?signonForm=") []) ok3 t3
                      :: rest').
Proof.
  split; [vm_compute; reflexivity|].
  exact (proj1 (navigation_races_the_click "https://shop.example" clickless start)).
Defined.

(* ================================================================== *)
(** * Properties of the issue analysis of the Word report *)
(* ================================================================== *)







(* ================================================================== *)
(** * Properties of the markdown report *)
(* ================================================================== *)

Lemma entrySection_shape (fs : Report.FS) (entry : value) :
  nullish entry = false ->
  exists body,
    Report.entrySection fs entry
    = Ok (("## Step: " ++ ToString (own entry "step")) :: List.app body ["---"]).
Proof.
  intros He. unfold Report.entrySection.
  rewrite (get_present _ _ He). cbn [rbind].
  match goal with |- context [let '(_, _) := ?b in _] => destruct b as [lines failure] end.
  eexists. rewrite app_assoc. reflexivity.
Qed.

(** X22. The markdown report has one section for every entry of the
    report file, in order, from the heading of the step to the rule
    that closes it; a metrics file that cannot be read or parsed does
    not end the report, it leaves in its section the one line
    [Error reading metrics: ...], which carries the message of the
    file system when the file cannot be read. *)
Theorem markdown_report_survives_unreadable_metrics
  (fs : Report.FS) (entries : list value) :
  Forall present entries ->
  (exists secs,
      Report.sections fs entries = Ok (List.concat secs)
      /\ Forall2
           (fun entry sec =>
              exists body,
                sec = ("## Step: " ++ ToString (own entry "step")) :: List.app body ["---"])
           entries secs)
  /\ (forall entry path e,
        In entry entries ->
        own entry "metricsPath" = VStr path ->
        fs path = Throw e ->
        Report.entrySection fs entry
        = Ok ["## Step: " ++ ToString (own entry "step");
              "Error reading metrics: " ++ message e; "---"])
  /\ (forall entry e,
        In entry entries ->
        rbind (Report.readFile fs (own entry "metricsPath")) JSON_parse = Throw e ->
        exists text,
          Report.entrySection fs entry
          = Ok ["## Step: " ++ ToString (own entry "step");
                "Error reading metrics: " ++ text; "---"]).
Proof.
  intros H. split; [|split].
  - induction H as [|entry entries He _ (secs & Hs & Hf)].
    + exists []. split; [reflexivity | constructor].
    + destruct (entrySection_shape fs entry He) as [body Hb].
      exists ((("## Step: " ++ ToString (own entry "step")) :: List.app body ["---"])
              :: secs).
      split.
      * cbn [Report.sections]. rewrite Hb. cbn [rbind]. rewrite Hs. reflexivity.
      * constructor; [exists body; reflexivity | exact Hf].
  - intros entry path e Hin Hp Hfail.
    pose proof (proj1 (Forall_forall _ _) H entry Hin) as He.
    unfold Report.entrySection. rewrite !(get_present _ _ He). cbn [rbind].
    rewrite Hp. cbn [Report.readFile]. rewrite Hfail. reflexivity.
  - intros entry e Hin Hfail.
    pose proof (proj1 (Forall_forall _ _) H entry Hin) as He.
    exists (message e).
    unfold Report.entrySection. rewrite !(get_present _ _ He). cbn [rbind].
    change (fun content : string => JSON_parse content) with JSON_parse.
    rewrite Hfail. reflexivity.
Qed.

Lemma markdown_report_without_login_metrics :
  Report.sections login_metrics_missing home_and_login
  = Ok ["## Step: home"; "### Core Web Vitals"; "- LCP: N/A"; "- CLS: N/A";
        "- INP: N/Ams"; "### Performance Analysis"; "---";
        "## Step: login";
        "Error reading metrics: ENOENT: no such file or directory"; "---"]
  /\ (exists secs,
         Report.sections login_metrics_missing home_and_login = Ok (List.concat secs)
         /\ Forall2
              (fun entry sec =>
                 exists body,
                   sec = ("## Step: " ++ ToString (own entry "step"))
                         :: List.app body ["---"])
              home_and_login secs)
  /\ Report.entrySection login_metrics_missing
       (VObj [("step", VStr "login"); ("metricsPath", VStr "out/login.metrics.json")])
     = Ok ["## Step: " ++ "login";
           "Error reading metrics: " ++ "ENOENT: no such file or directory"; "---"].
Proof.
  assert (Forall present home_and_login) as H by (repeat constructor).
  split; [vm_compute; reflexivity|]. split.
  - exact (proj1 (markdown_report_survives_unreadable_metrics
                    login_metrics_missing home_and_login H)).
  - apply (proj1 (proj2 (markdown_report_survives_unreadable_metrics
                           login_metrics_missing home_and_login H))
             (VObj [("step", VStr "login"); ("metricsPath", VStr "out/login.metrics.json")])
             "out/login.metrics.json" (Rejected "ENOENT: no such file or directory")).
    + right. left. reflexivity.
    + reflexivity.
    + reflexivity.
Defined.
